(** * ipware.utils: address normalisation, validation and selection

    A shallow embedding of [ipware/utils.py] together with the part of the
    Python runtime and of the C library it runs on:

    - [Py]: exceptions as an error result, and the [str] methods the module
      calls ([strip], [lower], [split], [startswith], [replace], [count]);
    - [Libc]: [inet_pton] and [inet_ntop] for both address families, after
      the GNU C library;
    - [Socket]: the functions of Python's [socket] module, which wrap the
      C library and turn its failures into exceptions;
    - [Ipware]: the functions of [utils.py] themselves;
    - [Spec]: the behaviour the specification describes, for comparison;
    - [Shape]: the shapes of canonical texts, used to state the lemmas.

    A Python [str] is a [string]; each character stands for the code point
    of the same number, so the strings covered are those over U+0000..U+00FF,
    a range closed under every method used here. *)

From Stdlib Require Import NArith Strings.Byte Ascii String.
From stdpp Require Import base option list strings gmap.

Local Open Scope string_scope.
Local Open Scope list_scope.
Local Open Scope N_scope.

(** ** The Python runtime

    The semantics are those of Python 3, where [str] is a sequence of code
    points. *)

Module Py.

(** The exceptions that can occur in [utils.py]. [socket.error] is an alias
    of [OSError]. *)
Inductive exn : Set :=
| SocketError
| ValueError
| AttributeError
| IndexError.

(** The outcome of evaluating an expression: a value, or a raised
    exception. *)
Inductive result (A : Type) : Type :=
| Ok (v : A)
| Raise (e : exn).

Arguments Ok {A} v.
Arguments Raise {A} e.

Definition bind {A B : Type} (r : result A) (k : A -> result B) : result B :=
  match r with
  | Ok v => k v
  | Raise e => Raise e
  end.

Definition returns {A : Type} (r : result A) : Prop :=
  exists v, r = Ok v.

Definition code (c : ascii) : N := N_of_ascii c.

(** [str.isspace] on one character: the code points below U+0100 that
    Python counts as whitespace. *)
Definition is_space (c : ascii) : bool :=
  let n := code c in
  ((9 <=? n) && (n <=? 13)) || ((28 <=? n) && (n <=? 32))
  || (n =? 133) || (n =? 160).

Fixpoint lstrip (s : string) : string :=
  match s with
  | EmptyString => EmptyString
  | String c r => if is_space c then lstrip r else s
  end.

Fixpoint rstrip (s : string) : string :=
  match s with
  | EmptyString => EmptyString
  | String c r =>
      match rstrip r with
      | EmptyString => if is_space c then EmptyString else String c EmptyString
      | r' => String c r'
      end
  end.

(** [s.strip()] *)
Definition str_strip (s : string) : string := rstrip (lstrip s).

(** Lower-casing of one code point below U+0100: the letters A-Z and the
    capital letters of the Latin-1 supplement (all of U+00C0..U+00DE but the
    multiplication sign) move up by 32. *)
Definition lower_char (c : ascii) : ascii :=
  let n := code c in
  if ((65 <=? n) && (n <=? 90))
     || ((192 <=? n) && (n <=? 222) && negb (n =? 215))
  then ascii_of_N (n + 32) else c.

(** [s.lower()] *)
Fixpoint str_lower (s : string) : string :=
  match s with
  | EmptyString => EmptyString
  | String c r => String (lower_char c) (str_lower r)
  end.

(** [s.split(sep)] for a one-character separator: never the empty list. *)
Fixpoint str_split (sep : ascii) (s : string) : list string :=
  match s with
  | EmptyString => [EmptyString]
  | String c r =>
      if Ascii.eqb c sep then EmptyString :: str_split sep r
      else match str_split sep r with
           | h :: t => String c h :: t
           | [] => [String c EmptyString]
           end
  end.

(** [s.startswith(prefixes)] with a tuple of prefixes. *)
Definition str_startswith (s : string) (prefixes : list string) : bool :=
  existsb (fun p => String.prefix p s) prefixes.

(** [s.replace(old, new)] for a non-empty [old]: every occurrence, leftmost
    first, occurrences not overlapping. [skip] counts the characters of a
    matched occurrence still to be dropped. *)
Fixpoint replace_from (old new : string) (skip : nat) (s : string) : string :=
  match s with
  | EmptyString => EmptyString
  | String c r =>
      match skip with
      | S k => replace_from old new k r
      | O =>
          if String.prefix old s
          then new +:+ replace_from old new (String.length old - 1)%nat r
          else String c (replace_from old new O r)
      end
  end.

Definition str_replace (old new s : string) : string :=
  replace_from old new O s.

(** [s.count(c)] for a one-character [c]. *)
Fixpoint str_count (c : ascii) (s : string) : nat :=
  match s with
  | EmptyString => O
  | String d r => (if Ascii.eqb d c then 1 else 0)%nat + str_count c r
  end.

(** Truth value of a string: the empty string is false. *)
Definition truthy (s : string) : bool :=
  match s with
  | EmptyString => false
  | String _ _ => true
  end.

(** Does the string hold the character U+0000? *)
Fixpoint has_nul (s : string) : bool :=
  match s with
  | EmptyString => false
  | String c r => Ascii.eqb c Ascii.zero || has_nul r
  end.

(** No character of the text satisfies [p]. *)
Fixpoint none_of (p : ascii -> bool) (s : string) : bool :=
  match s with
  | EmptyString => true
  | String c r => negb (p c) && none_of p r
  end.

End Py.

Export Py.

Notation "'let!' x ':=' e 'in' k" := (bind e (fun x => k))
  (at level 10, x name, e at level 200, k at level 200).

(** ** The C library: textual and packed addresses

    [inet_pton], [inet_ntop] and [inet_aton] as the GNU C library has them,
    loop for loop. A packed address is its list of bytes; the integers of
    the C code are numbers in [N], no wrap-around being written out since
    every bound is tested before a value can outgrow its type. *)

Module Libc.

(** [(unsigned char) n] *)
Definition u8 (n : N) : byte := default x00 (Byte.of_N (n mod 256)).

Definition is_digit (ch : ascii) : bool := (48 <=? code ch) && (code ch <=? 57).

Definition digit_value (ch : ascii) : N := code ch - 48.

(** The loop of [inet_pton4]. [done] holds the octets already closed by a
    dot ([tmp] below [tp]), [cur] the octet being read ([*tp]). At the end
    of the text the four octets of [tmp] are the result. *)
Fixpoint pton4_loop (src : string) (saw_digit : bool) (octets : nat)
    (done : list byte) (cur : N) : option (list byte) :=
  match src with
  | EmptyString =>
      if (octets <? 4)%nat then None else Some (done ++ [u8 cur])
  | String ch rest =>
      if is_digit ch then
        let new := cur * 10 + digit_value ch in
        if saw_digit && (cur =? 0) then None
        else if 255 <? new then None
        else if saw_digit then pton4_loop rest true octets done new
        else if (4 <? S octets)%nat then None
        else pton4_loop rest true (S octets) done new
      else if Ascii.eqb ch "." && saw_digit then
        if (octets =? 4)%nat then None
        else pton4_loop rest false octets (done ++ [u8 cur]) 0
      else None
  end.

(** [inet_pton(AF_INET, src, dst)]: [Some dst] when it returns 1. *)
Definition inet_pton4 (src : string) : option (list byte) :=
  pton4_loop src false 0 [] 0.

Definition hex_digit_value (ch : ascii) : option N :=
  let n := code ch in
  if (48 <=? n) && (n <=? 57) then Some (n - 48)
  else if (97 <=? n) && (n <=? 102) then Some (n - 87)
  else if (65 <=? n) && (n <=? 70) then Some (n - 55)
  else None.

(** The two bytes of a 16-bit group, high byte first. *)
Definition group_bytes (val : N) : list byte :=
  [u8 (N.land (N.shiftr val 8) 255); u8 (N.land val 255)].

(** The end of [inet_pton6], after the text is consumed: store a pending
    group, then move the groups read after [::] to the end and fill the gap
    with zeros. [tp] is the part of [tmp] written so far, [colonp] the
    offset in it at which [::] stood. *)
Definition pton6_finish (xdigits_seen : nat) (val : N) (tp : list byte)
    (colonp : option nat) : option (list byte) :=
  let stored :=
    if (0 <? xdigits_seen)%nat then
      if (16 <? length tp + 2)%nat then None else Some (tp ++ group_bytes val)
    else Some tp in
  match stored with
  | None => None
  | Some tp =>
      match colonp with
      | Some c =>
          if (length tp =? 16)%nat then None
          else Some (take c tp ++ replicate (16 - length tp) x00 ++ drop c tp)
      | None => if (length tp =? 16)%nat then Some tp else None
      end
  end.

(** The loop of [inet_pton6]. [curtok] is the text from the start of the
    current group, handed to [inet_pton4] when a dot shows that the tail is
    a dotted quad. *)
Fixpoint pton6_loop (src curtok : string) (xdigits_seen : nat) (val : N)
    (tp : list byte) (colonp : option nat) : option (list byte) :=
  match src with
  | EmptyString => pton6_finish xdigits_seen val tp colonp
  | String ch rest =>
      match hex_digit_value ch with
      | Some digit =>
          if (xdigits_seen =? 4)%nat then None
          else
            let val := N.lor (N.shiftl val 4) digit in
            if 65535 <? val then None
            else pton6_loop rest curtok (S xdigits_seen) val tp colonp
      | None =>
          if Ascii.eqb ch ":" then
            if (xdigits_seen =? 0)%nat then
              match colonp with
              | Some _ => None
              | None => pton6_loop rest rest 0 val tp (Some (length tp))
              end
            else
              match rest with
              | EmptyString => None
              | _ =>
                  if (16 <? length tp + 2)%nat then None
                  else pton6_loop rest rest 0 0 (tp ++ group_bytes val) colonp
              end
          else if Ascii.eqb ch "." && (length tp + 4 <=? 16)%nat then
            match inet_pton4 curtok with
            | Some quad => pton6_finish 0 val (tp ++ quad) colonp
            | None => None
            end
          else None
      end
  end.

(** [inet_pton(AF_INET6, src, dst)]: [Some dst] when it returns 1. A leading
    colon must be the first of two. *)
Definition inet_pton6 (src : string) : option (list byte) :=
  match src with
  | EmptyString => None
  | String ch rest =>
      if Ascii.eqb ch ":" then
        match rest with
        | String ch' _ =>
            if Ascii.eqb ch' ":" then pton6_loop rest rest 0 0 [] None
            else None
        | EmptyString => None
        end
      else pton6_loop src src 0 0 [] None
  end.

Definition digit_char (d : N) : ascii := ascii_of_N (48 + d).

(** [sprintf("%u", n)] for an octet. *)
Definition fmt_u (n : N) : string :=
  if n <? 10 then String (digit_char n) EmptyString
  else if n <? 100 then
    String (digit_char (n / 10)) (String (digit_char (n mod 10)) EmptyString)
  else
    String (digit_char (n / 100))
      (String (digit_char (n / 10 mod 10))
         (String (digit_char (n mod 10)) EmptyString)).

(** [inet_ntop(AF_INET, src, ...)]: the four octets at [src], in decimal. *)
Definition inet_ntop4 (src : list byte) : string :=
  match src with
  | a :: b :: c :: d :: _ =>
      fmt_u (Byte.to_N a) +:+ "." +:+ fmt_u (Byte.to_N b) +:+ "."
      +:+ fmt_u (Byte.to_N c) +:+ "." +:+ fmt_u (Byte.to_N d)
  | _ => EmptyString
  end.

Definition hex_char (d : N) : ascii :=
  if d <? 10 then ascii_of_N (48 + d) else ascii_of_N (87 + d).

(** [sprintf("%x", w)] for a 16-bit group. *)
Definition fmt_x (w : N) : string :=
  let h3 := hex_char (w / 4096) in
  let h2 := hex_char (w / 256 mod 16) in
  let h1 := hex_char (w / 16 mod 16) in
  let h0 := hex_char (w mod 16) in
  if w <? 16 then String h0 EmptyString
  else if w <? 256 then String h1 (String h0 EmptyString)
  else if w <? 4096 then String h2 (String h1 (String h0 EmptyString))
  else String h3 (String h2 (String h1 (String h0 EmptyString))).

(** The packed address as 16-bit groups. *)
Fixpoint words_of (src : list byte) : list N :=
  match src with
  | hi :: lo :: r =>
      N.lor (N.shiftl (Byte.to_N hi) 8) (Byte.to_N lo) :: words_of r
  | _ => []
  end.

(** A run of zero groups: where it starts and how long it is. *)
Record run : Set := Run { base : nat; len : nat }.

(** [best = cur] when [cur] is a run and is the first or strictly longer. *)
Definition longer (best cur : option run) : option run :=
  match cur, best with
  | None, _ => best
  | Some c, None => Some c
  | Some c, Some b => if (len b <? len c)%nat then Some c else Some b
  end.

Definition extend (cur : option run) (i : nat) : option run :=
  match cur with
  | None => Some (Run i 1)
  | Some c => Some (Run (base c) (S (len c)))
  end.

(** The search of [inet_ntop6] for the longest run of zero groups, the
    first one among equals. *)
Fixpoint scan_runs (ws : list N) (i : nat) (best cur : option run)
  : option run :=
  match ws with
  | [] => longer best cur
  | w :: r =>
      if w =? 0 then scan_runs r (S i) best (extend cur i)
      else scan_runs r (S i) (longer best cur) None
  end.

(** A run of one group is not abbreviated. *)
Definition best_run (ws : list N) : option run :=
  match scan_runs ws 0 None None with
  | Some b => if (len b <? 2)%nat then None else Some b
  | None => None
  end.

Definition in_run (best : option run) (i : nat) : bool :=
  match best with
  | Some b => (base b <=? i)%nat && (i <? base b + len b)%nat
  | None => false
  end.

Definition starts_run (best : option run) (i : nat) : bool :=
  match best with
  | Some b => (i =? base b)%nat
  | None => false
  end.

(** An address whose first 80 bits are zero, then all ones or zero, holds
    an IPv4 address in its last four bytes. *)
Definition encapsulated_v4 (best : option run) (words : list N) : bool :=
  match best with
  | Some b =>
      (base b =? 0)%nat
      && ((len b =? 6)%nat
          || ((len b =? 5)%nat && bool_decide (words !! 5%nat = Some 65535)))
  | None => false
  end.

(** The colon that closes a run reaching the last group. *)
Definition trailing_colon (best : option run) : string :=
  match best with
  | Some b => if (base b + len b =? 8)%nat then ":" else EmptyString
  | None => EmptyString
  end.

(** The formatting loop of [inet_ntop6] from group [i] on; [ws] holds the
    groups from [i]. *)
Fixpoint ntop6_loop (src : list byte) (words : list N) (best : option run)
    (ws : list N) (i : nat) : string :=
  match ws with
  | [] => trailing_colon best
  | w :: r =>
      if in_run best i then
        (if starts_run best i then ":" else EmptyString)
        +:+ ntop6_loop src words best r (S i)
      else
        (if (i =? 0)%nat then EmptyString else ":")
        +:+ (if (i =? 6)%nat && encapsulated_v4 best words
             then inet_ntop4 (drop 12 src) +:+ trailing_colon best
             else fmt_x w +:+ ntop6_loop src words best r (S i))
  end.

(** [inet_ntop(AF_INET6, src, ...)] *)
Definition inet_ntop6 (src : list byte) : string :=
  let words := words_of src in
  ntop6_loop src words (best_run words) words 0.

(** [strtoul(cp, &endp, 0)] on text that starts with a digit: the digits of
    one radix, read as far as they go. *)
Fixpoint take_digits (radix : N) (cp : string) (acc : N) : N * string :=
  match cp with
  | EmptyString => (acc, cp)
  | String ch rest =>
      match hex_digit_value ch with
      | Some d =>
          if d <? radix then take_digits radix rest (acc * radix + d)
          else (acc, cp)
      | None => (acc, cp)
      end
  end.

Definition is_x (ch : ascii) : bool := (code ch =? 120) || (code ch =? 88).

Definition strtoul0 (cp : string) : N * string :=
  match cp with
  | String zero (String x rest as after) =>
      if code zero =? 48 then
        if is_x x && match rest with
                     | String h _ => bool_decide (is_Some (hex_digit_value h))
                     | EmptyString => false
                     end
        then take_digits 16 rest 0
        else take_digits 8 after 0
      else take_digits 10 cp 0
  | _ => take_digits 10 cp 0
  end.

(** [isascii(c) && isspace(c)] in the C locale. *)
Definition c_isspace (ch : ascii) : bool :=
  ((9 <=? code ch) && (code ch <=? 13)) || (code ch =? 32).

(** The address [parts ++ [val]] stands for: all parts but the last are
    octets, the last one fills the bytes that remain. *)
Definition aton_bytes (parts : list N) (val : N) : list byte :=
  (u8 <$> parts)
  ++ match length parts with
     | 0%nat => [u8 (N.shiftr val 24); u8 (N.shiftr val 16);
                 u8 (N.shiftr val 8); u8 val]
     | 1%nat => [u8 (N.shiftr val 16); u8 (N.shiftr val 8); u8 val]
     | 2%nat => [u8 (N.shiftr val 8); u8 val]
     | _ => [u8 val]
     end.

Definition aton_max (nparts : nat) : N :=
  match nparts with
  | 0%nat => 4294967295
  | 1%nat => 16777215
  | 2%nat => 65535
  | _ => 255
  end.

(** The loop of [inet_aton]; [more] bounds the numbers still to be read,
    four in all. *)
Fixpoint aton_loop (more : nat) (cp : string) (parts : list N)
  : option (list byte) :=
  match more, cp with
  | S more, String c _ =>
      if is_digit c then
        let '(val, endp) := strtoul0 cp in
        if 4294967295 <? val then None
        else
          match endp with
          | String c' after =>
              if Ascii.eqb c' "." then
                if (2 <? length parts)%nat || (255 <? val) then None
                else aton_loop more after (parts ++ [val])
              else if negb (c_isspace c') then None
              else if aton_max (length parts) <? val then None
              else Some (aton_bytes parts val)
          | EmptyString =>
              if aton_max (length parts) <? val then None
              else Some (aton_bytes parts val)
          end
      else None
  | _, _ => None
  end.

(** [inet_aton(cp, &addr)]: [Some addr] when it returns 1. It takes
    shorthand ([127.1]), octal and hexadecimal numbers, and ignores what
    follows a blank. *)
Definition inet_aton (cp : string) : option (list byte) :=
  aton_loop 4 cp [].

End Libc.

(** ** Python's [socket] module *)

Module Socket.

Inductive family : Set := AF_INET | AF_INET6.

(** What the interpreter's [socket] module offers. [inet_pton] and
    [inet_ntop] are absent from some builds, where naming them raises
    [AttributeError]; [inet_aton] and [inet_ntoa] are always there, the
    first with the leniency of the C library at hand. *)
Record platform : Type := Platform {
  has_inet_pton : bool;
  libc_inet_aton : string -> option (list byte)
}.

(** A build with [inet_pton]. *)
Definition posix (aton : string -> option (list byte)) : platform :=
  Platform true aton.

(** A build without. *)
Definition legacy (aton : string -> option (list byte)) : platform :=
  Platform false aton.

Definition glibc : platform := posix Libc.inet_aton.

(** [socket.inet_pton(af, ip)]: the text argument is converted to a C
    string first, which fails with [ValueError] on an embedded null
    character; a text the C library rejects gives [socket.error]. The C
    library reads the UTF-8 bytes of the text: a code point from U+0080 on
    becomes bytes from 0x80 on, which the parsers reject just as they
    reject the character itself here. *)
Definition inet_pton (sock : platform) (af : family) (ip : string)
  : result (list byte) :=
  if has_inet_pton sock then
    if has_nul ip then Raise ValueError
    else
      match match af with
            | AF_INET => Libc.inet_pton4 ip
            | AF_INET6 => Libc.inet_pton6 ip
            end with
      | Some packed => Ok packed
      | None => Raise SocketError
      end
  else Raise AttributeError.

(** [socket.inet_ntop(af, packed)]: [ValueError] when [packed] has not the
    length of the family. *)
Definition inet_ntop (sock : platform) (af : family) (packed : list byte)
  : result string :=
  if has_inet_pton sock then
    match af with
    | AF_INET =>
        if (length packed =? 4)%nat then Ok (Libc.inet_ntop4 packed)
        else Raise ValueError
    | AF_INET6 =>
        if (length packed =? 16)%nat then Ok (Libc.inet_ntop6 packed)
        else Raise ValueError
    end
  else Raise AttributeError.

(** [socket.inet_aton(ip)] *)
Definition inet_aton (sock : platform) (ip : string) : result (list byte) :=
  if has_nul ip then Raise ValueError
  else
    match libc_inet_aton sock ip with
    | Some packed => Ok packed
    | None => Raise SocketError
    end.

(** [socket.inet_ntoa(packed)] *)
Definition inet_ntoa (packed : list byte) : result string :=
  if (length packed =? 4)%nat then Ok (Libc.inet_ntop4 packed)
  else Raise SocketError.

End Socket.

Export Socket.

(** ** [ipware/utils.py] *)

Module Ipware.

(** The two prefix tables of [ipware/defaults.py] that [utils.py] reads,
    as [defs.IPWARE_NON_PUBLIC_IP_PREFIX] and [defs.IPWARE_LOOPBACK_PREFIX]. *)
Record defaults : Type := Defaults {
  IPWARE_NON_PUBLIC_IP_PREFIX : list string;
  IPWARE_LOOPBACK_PREFIX : list string
}.

(** The request object, of which only the [META] dictionary is read. *)
Record http_request : Type := Request {
  META : gmap string string
}.

(** [d.get(key, default)] *)
Definition dict_get (d : gmap string string) (key default : string) : string :=
  match d !! key with
  | Some v => v
  | None => default
  end.

(** [l[0]] and [l[-1]]: [IndexError] on the empty list. *)
Definition first_item (l : list string) : result string :=
  match head l with
  | Some x => Ok x
  | None => Raise IndexError
  end.

Definition last_item (l : list string) : result string :=
  match last l with
  | Some x => Ok x
  | None => Raise IndexError
  end.

(** [clean_ip or ip], with [None] for Python's [None]. *)
Definition or_else (clean_ip : option string) (ip : string) : string :=
  match clean_ip with
  | Some c => if truthy c then c else ip
  | None => ip
  end.

(** [not clean_ip] *)
Definition falsy (clean_ip : option string) : bool :=
  match clean_ip with
  | Some c => negb (truthy c)
  | None => true
  end.

Section Utils.

Variable sock : platform.
Variable defs : defaults.

(** The first [try] statement of [cleanup_ip]: the value of [clean_ip]
    after it. *)
Definition cleanup_v4 (ip : string) : result (option string) :=
  match (let! packed := inet_pton sock AF_INET ip in
         inet_ntop sock AF_INET packed) with
  | Ok clean_ip => Ok (Some clean_ip)
  | Raise AttributeError =>
      match (let! packed := inet_aton sock ip in inet_ntoa packed) with
      | Ok clean_ip => Ok (Some clean_ip)
      | Raise AttributeError => Ok None
      | Raise e => Raise e
      end
  | Raise SocketError => Ok None
  | Raise e => Raise e
  end.

Definition cleanup_ip (ip : string) : result string :=
  let ip := str_strip ip in
  let! clean_ip := cleanup_v4 ip in
  if falsy clean_ip then
    match (let! packed := inet_pton sock AF_INET6 ip in
           inet_ntop sock AF_INET6 packed) with
    | Ok clean_ip =>
        if String.prefix "::ffff:" clean_ip
        then Ok (str_replace "::ffff:" "" clean_ip)
        else Ok (or_else (Some clean_ip) ip)
    | Raise SocketError => Ok (or_else clean_ip ip)
    | Raise e => Raise e
    end
  else Ok (or_else clean_ip ip).

Definition is_valid_ipv4 (ip_str : string) : result bool :=
  match inet_pton sock AF_INET ip_str with
  | Ok _ => Ok true
  | Raise AttributeError =>
      match inet_aton sock ip_str with
      | Ok _ => Ok (str_count "." ip_str =? 3)%nat
      | Raise AttributeError | Raise SocketError => Ok false
      | Raise e => Raise e
      end
  | Raise SocketError => Ok false
  | Raise e => Raise e
  end.

Definition is_valid_ipv6 (ip_str : string) : result bool :=
  match inet_pton sock AF_INET6 ip_str with
  | Ok _ => Ok true
  | Raise SocketError => Ok false
  | Raise e => Raise e
  end.

Definition is_valid_ip (ip_str : string) : result bool :=
  let! v4 := is_valid_ipv4 ip_str in
  if v4 then Ok true else is_valid_ipv6 ip_str.

Definition is_private_ip (ip_str : string) : bool :=
  str_startswith ip_str (IPWARE_NON_PUBLIC_IP_PREFIX defs).

Definition is_public_ip (ip_str : string) : bool :=
  negb (is_private_ip ip_str).

Definition is_loopback_ip (ip_str : string) : bool :=
  str_startswith ip_str (IPWARE_LOOPBACK_PREFIX defs).

Definition get_request_meta (request : http_request) (key : string)
  : option string :=
  let value :=
    str_strip
      (dict_get (META request) key
         (dict_get (META request) (str_replace "_" "-" key) "")) in
  if String.eqb value "" then None else Some value.

(** The [for] loop of [get_ips_from_string] over the pieces still to come,
    [ip_list] being the list built so far. *)
Fixpoint collect_ips (pieces : list string) (ip_list : list string)
  : list string :=
  match pieces with
  | [] => ip_list
  | ip :: pieces =>
      let clean_ip := str_lower (str_strip ip) in
      collect_ips pieces
        (if truthy clean_ip then ip_list ++ [clean_ip] else ip_list)
  end.

Definition get_ips_from_string (ip_str : string)
  : result (list string * nat) :=
  let ip_list := collect_ips (str_split "," ip_str) [] in
  let ip_count := length ip_list in
  let! accepted :=
    if (0 <? ip_count)%nat then
      let! first := first_item ip_list in
      let! first_ok := is_valid_ip first in
      if first_ok then
        let! final := last_item ip_list in
        is_valid_ip final
      else Ok false
    else Ok false in
  if accepted then Ok (ip_list, ip_count) else Ok ([], 0%nat).

Definition get_ip_info (ip_str : string) : result (option string * bool) :=
  let! clean_ip := cleanup_ip ip_str in
  let! valid := is_valid_ip clean_ip in
  if valid then Ok (Some clean_ip, is_public_ip clean_ip)
  else Ok (None, false).

Definition get_best_ip (last_ip : option string) (next_ip : string)
  : result string :=
  match last_ip with
  | None => Ok next_ip
  | Some last_ip =>
      let! clean_last_ip := cleanup_ip last_ip in
      let! clean_next_ip := cleanup_ip next_ip in
      if is_public_ip clean_last_ip && negb (is_public_ip clean_next_ip)
      then Ok last_ip
      else if is_private_ip clean_last_ip && is_loopback_ip clean_next_ip
      then Ok last_ip
      else Ok next_ip
  end.

End Utils.

(** Modelled from the spec: the prefix tables of [ipware/defaults.py], a
    file that is not among the sources. The spec describes them as a
    non-public set (private and reserved ranges such as the RFC 1918 blocks,
    link-local and documentation ranges, with the loopback prefixes) and a
    loopback set, and has 203.0.113.5 public, 10.0.0.1 private and
    127.0.0.1 loopback. The tables below are one such configuration. *)
Definition example_defaults : defaults :=
  Defaults
    ["10."; "172.16."; "192.168."; "169.254."; "192.0.2."; "fc00:"; "fe80:";
     "127."; "::1"]
    ["127."; "::1"].

End Ipware.

Export Ipware.

(** ** The behaviour the specification describes *)

Module Spec.

Definition parses_ipv4 (s : string) : bool :=
  bool_decide (is_Some (Libc.inet_pton4 s)).

Definition parses_ipv6 (s : string) : bool :=
  bool_decide (is_Some (Libc.inet_pton6 s)).

(** General validity is the disjunction of the two families. *)
Definition valid_ip (s : string) : bool := parses_ipv4 s || parses_ipv6 s.

Fixpoint drop_chars (n : nat) (s : string) : string :=
  match n, s with
  | S n, String _ r => drop_chars n r
  | _, _ => s
  end.

(** Strip the IPv4-mapped prefix from a canonical IPv6 text. *)
Definition unwrap_mapped (canonical : string) : string :=
  if String.prefix "::ffff:" canonical then drop_chars 7 canonical
  else canonical.

(** Trim; the canonical dotted quad if the text parses as IPv4; else the
    canonical IPv6 text, unwrapped, if it parses as IPv6; else the trimmed
    text. *)
Definition normalize (s : string) : string :=
  let trimmed := str_strip s in
  match Libc.inet_pton4 trimmed with
  | Some packed => Libc.inet_ntop4 packed
  | None =>
      match Libc.inet_pton6 trimmed with
      | Some packed => unwrap_mapped (Libc.inet_ntop6 packed)
      | None => trimmed
      end
  end.

(** Split on commas, trim and lower-case each piece, drop the empty ones. *)
Definition chain_tokens (s : string) : list string :=
  List.filter truthy ((fun piece => str_lower (str_strip piece)) <$> str_split "," s).

(** The whole chain with its count when its two ends are valid, nothing
    otherwise. *)
Definition parse_chain (s : string) : list string * nat :=
  let chain := chain_tokens s in
  match head chain, last chain with
  | Some first, Some final =>
      if valid_ip first && valid_ip final then (chain, length chain)
      else ([], 0%nat)
  | _, _ => ([], 0%nat)
  end.

(** The precedence policy on two candidates already normalised: keep the
    held one when it is public and the new one is not, or when it is
    private and the new one is loopback. *)
Definition keeps_last (defs : defaults) (clean_last clean_next : string) : bool :=
  (is_public_ip defs clean_last && negb (is_public_ip defs clean_next))
  || (is_private_ip defs clean_last && is_loopback_ip defs clean_next).

(** The key with every underscore replaced by a hyphen. *)
Fixpoint hyphenate (key : string) : string :=
  match key with
  | EmptyString => EmptyString
  | String c r =>
      String (if Ascii.eqb c "_" then "-"%char else c) (hyphenate r)
  end.

(** The canonical texts: what [inet_ntop] prints, with the mapped prefix
    stripped for IPv6. *)
Definition canonical_ipv4 (s : string) : Prop :=
  exists packed, length packed = 4%nat /\ s = Libc.inet_ntop4 packed.

Definition canonical_ipv6 (s : string) : Prop :=
  exists packed,
    length packed = 16%nat /\ s = unwrap_mapped (Libc.inet_ntop6 packed).

End Spec.

(** ** The shape of canonical texts *)

Module Shape.

(** The octets closed by a dot, as [inet_pton4] has read them. *)
Fixpoint dotted (done : list byte) : string :=
  match done with
  | [] => EmptyString
  | o :: r => Libc.fmt_u (Byte.to_N o) +:+ "." +:+ dotted r
  end.

(** The text [inet_pton4] has consumed when its state is
    [(saw_digit, done, cur)], were it in canonical form. *)
Definition quad_so_far (done : list byte) (saw_digit : bool) (cur : N)
  : string :=
  dotted done +:+ (if saw_digit then Libc.fmt_u cur else EmptyString).

Definition is_quad_char (c : ascii) : bool :=
  Libc.is_digit c || Ascii.eqb c ".".

(** Groups in hexadecimal, each after a colon. *)
Fixpoint colon_groups (ws : list N) : string :=
  match ws with
  | [] => EmptyString
  | w :: r => ":" +:+ Libc.fmt_x w +:+ colon_groups r
  end.

(** Groups in hexadecimal with a colon between them. *)
Definition groups (ws : list N) : string :=
  match ws with
  | [] => EmptyString
  | w :: r => Libc.fmt_x w +:+ colon_groups r
  end.

(** Groups in hexadecimal, each before a colon. *)
Fixpoint terminated (ws : list N) : string :=
  match ws with
  | [] => EmptyString
  | w :: r => Libc.fmt_x w +:+ ":" +:+ terminated r
  end.

(** The bytes of a list of groups. *)
Definition words_bytes (ws : list N) : list byte :=
  concat (Libc.group_bytes <$> ws).

(** What the loop of [inet_pton6] does to its counters over a run of
    hexadecimal digits. *)
Fixpoint scan_hex (ds : string) (xdigits_seen : nat) (val : N)
  : option (nat * N) :=
  match ds with
  | EmptyString => Some (xdigits_seen, val)
  | String ch r =>
      match Libc.hex_digit_value ch with
      | Some digit =>
          if (xdigits_seen =? 4)%nat then None
          else
            let val := N.lor (N.shiftl val 4) digit in
            if 65535 <? val then None else scan_hex r (S xdigits_seen) val
      | None => None
      end
  end.

Definition is_hex (c : ascii) : bool :=
  bool_decide (is_Some (Libc.hex_digit_value c)).

Definition is_colon (c : ascii) : bool := Ascii.eqb c ":".

(** The characters of canonical addresses. *)
Definition is_addr_char (c : ascii) : bool :=
  is_hex c || is_colon c || Ascii.eqb c ".".

(** No two colons in a row. *)
Fixpoint no_colon_pair (s : string) : bool :=
  match s with
  | String c (String d _ as r) =>
      negb (is_colon c && is_colon d) && no_colon_pair r
  | _ => true
  end.

(** The texts [inet_ntop6] produces for the packed address [src]: all eight
    groups; the groups around one run of two or more zero groups; and the
    two forms that end in a dotted quad. *)
Inductive v6_text (src : list byte) : string -> Prop :=
| text_full :
    v6_text src (groups (Libc.words_of src))
| text_run (before : list N) (zeros : nat) (after : list N) :
    Libc.words_of src = before ++ replicate zeros 0 ++ after ->
    (2 <= zeros)%nat ->
    v6_text src (groups before +:+ "::" +:+ groups after)
| text_compat :
    take 12 src = replicate 12 x00 ->
    v6_text src ("::" +:+ Libc.inet_ntop4 (drop 12 src))
| text_mapped :
    take 12 src = replicate 10 x00 ++ Libc.group_bytes 65535 ->
    v6_text src ("::ffff:" +:+ Libc.inet_ntop4 (drop 12 src)).

(** The groups of [ws] that the run [r] covers are all zero. *)
Definition zero_run (ws : list N) (r : Libc.run) : Prop :=
  forall j, (Libc.base r <= j < Libc.base r + Libc.len r)%nat ->
    ws !! j = Some 0.

(** [f] holds of the [k] numbers from [from] on. *)
Fixpoint holds_below (f : N -> bool) (k : nat) (from : N) : bool :=
  match k with
  | O => true
  | S k => f from && holds_below f k (N.succ from)
  end.

End Shape.

(** ** Addresses of note *)

Module Addr.

(** The IPv4-mapped IPv6 address of a packed IPv4 address: eighty zero
    bits, sixteen one bits, then the four bytes. *)
Definition mapped (quad : list byte) : list byte :=
  replicate 10 x00 ++ Libc.group_bytes 65535 ++ quad.

(** The twelve bytes every IPv4-mapped address starts with. *)
Definition mapped_head : list byte :=
  replicate 10 x00 ++ Libc.group_bytes 65535.

Definition is_comma (c : ascii) : bool := Ascii.eqb c ",".

(** A character that [str.strip] removes or that separates pieces. *)
Definition is_blank_or_comma (c : ascii) : bool := is_space c || is_comma c.

(** The rank of a normalised text in the order of precedence that the
    comment of [get_best_ip] gives: public before private before
    loopback. *)
Definition precedence (defs : defaults) (clean_ip : string) : nat :=
  if is_public_ip defs clean_ip then 2
  else if is_loopback_ip defs clean_ip then 0
  else 1.

End Addr.

(** The text made of the single character U+0000. *)
Definition nul : string := String Ascii.zero EmptyString.

(** * Properties *)

(** ** Strings *)

#[local] Arguments String.append : simpl nomatch.

Section StrFacts.

Lemma append_nil_r (s : string) : s +:+ "" = s.
Proof. induction s as [|c s IH]; simpl; [done | by rewrite IH]. Qed.

Lemma append_assoc (a b c : string) : (a +:+ b) +:+ c = a +:+ (b +:+ c).
Proof. induction a as [|x a IH]; simpl; [done | by rewrite IH]. Qed.

Lemma none_of_app p a b :
  none_of p (a +:+ b) = none_of p a && none_of p b.
Proof.
  induction a as [|x a IH]; simpl; [done |].
  rewrite IH. by destruct (p x).
Qed.

Lemma has_nul_none_of s : has_nul s = negb (none_of (fun c => Ascii.eqb c Ascii.zero) s).
Proof.
  induction s as [|c s IH]; simpl; [done |].
  rewrite IH. by destruct (Ascii.eqb c Ascii.zero).
Qed.

Lemma has_nul_app a b : has_nul (a +:+ b) = has_nul a || has_nul b.
Proof.
  induction a as [|x a IH]; simpl; [done |].
  rewrite IH. by rewrite orb_assoc.
Qed.

Lemma lstrip_none_of s : none_of is_space s = true -> lstrip s = s.
Proof. destruct s as [|c s]; simpl; [done |]. by destruct (is_space c). Qed.

Lemma rstrip_none_of s : none_of is_space s = true -> rstrip s = s.
Proof.
  induction s as [|c s IH]; simpl; [done |].
  destruct (is_space c) eqn:E; simpl; [done |].
  intros H. rewrite (IH H). by destruct s.
Qed.

(** A text without whitespace is its own trimming. *)
Lemma strip_none_of s : none_of is_space s = true -> str_strip s = s.
Proof.
  intros H. unfold str_strip. rewrite (lstrip_none_of s H).
  by apply rstrip_none_of.
Qed.

Lemma rstrip_nonempty_first c s :
  rstrip (String c s) <> "" -> exists r, rstrip (String c s) = String c r.
Proof.
  simpl. destruct (rstrip s) eqn:E.
  - destruct (is_space c); [done | eauto].
  - eauto.
Qed.

Lemma rstrip_idem s : rstrip (rstrip s) = rstrip s.
Proof.
  induction s as [|c s IH]; simpl; [done |].
  destruct (rstrip s) as [|d r] eqn:E.
  - destruct (is_space c) eqn:Ec; simpl; [done | by rewrite Ec].
  - simpl in *. rewrite IH. done.
Qed.

Lemma lstrip_first s :
  lstrip s = "" \/ exists c r, lstrip s = String c r /\ is_space c = false.
Proof.
  induction s as [|c s IH]; simpl; [by left |].
  destruct (is_space c) eqn:E; [done |]. right. eauto.
Qed.

Lemma lstrip_rstrip_first c s :
  is_space c = false -> lstrip (rstrip (String c s)) = rstrip (String c s).
Proof.
  intros Hc. simpl. destruct (rstrip s); rewrite ?Hc; simpl; by rewrite Hc.
Qed.

(** Trimming twice is trimming once. *)
Lemma strip_idem s : str_strip (str_strip s) = str_strip s.
Proof.
  unfold str_strip.
  destruct (lstrip_first s) as [-> | (c & r & -> & Hc)]; [done |].
  rewrite lstrip_rstrip_first by done. apply rstrip_idem.
Qed.

Lemma space_not_nul c : is_space c = true -> Ascii.eqb c Ascii.zero = false.
Proof. by destruct c as [[] [] [] [] [] [] [] []]. Qed.

Lemma has_nul_lstrip s : has_nul (lstrip s) = has_nul s.
Proof.
  induction s as [|c s IH]; simpl; [done |].
  destruct (is_space c) eqn:E; [|done].
  by rewrite IH, (space_not_nul c E).
Qed.

Lemma has_nul_rstrip s : has_nul (rstrip s) = has_nul s.
Proof.
  induction s as [|c s IH]; simpl; [done |].
  rewrite <- IH. destruct (rstrip s); simpl; [|done].
  destruct (is_space c) eqn:E; simpl; [|done].
  by rewrite (space_not_nul c E).
Qed.

(** Trimming neither removes nor adds a null character. *)
Lemma has_nul_strip s : has_nul (str_strip s) = has_nul s.
Proof. unfold str_strip. by rewrite has_nul_rstrip, has_nul_lstrip. Qed.

Lemma lower_char_nul c :
  Ascii.eqb (lower_char c) Ascii.zero = Ascii.eqb c Ascii.zero.
Proof. by destruct c as [[] [] [] [] [] [] [] []]. Qed.

Lemma has_nul_lower s : has_nul (str_lower s) = has_nul s.
Proof.
  induction s as [|c s IH]; simpl; [done |].
  by rewrite lower_char_nul, IH.
Qed.

Lemma has_nul_split sep s :
  has_nul s = false -> Forall (fun piece => has_nul piece = false) (str_split sep s).
Proof.
  induction s as [|c s IH]; simpl.
  - by repeat constructor.
  - intros [Hc Hs]%orb_false_elim. specialize (IH Hs).
    destruct (Ascii.eqb c sep).
    + by constructor.
    + destruct (str_split sep s) as [|h t]; inversion IH; subst;
        constructor; simpl; try done; by rewrite Hc.
Qed.

Lemma drop_chars_none_of p n s :
  none_of p s = true -> none_of p (Spec.drop_chars n s) = true.
Proof.
  revert s. induction n as [|n IH]; intros [|c s]; simpl; try done.
  intros [_ H]%andb_prop. by apply IH.
Qed.

End StrFacts.

Ltac str_norm :=
  repeat first [rewrite append_nil_r | rewrite append_assoc | progress simpl].

(** ** Dotted quads *)

Section Ipv4Facts.

Import Libc Shape.

Lemma u8_to_N n : n <= 255 -> Byte.to_N (u8 n) = n.
Proof.
  intros H. unfold u8. rewrite N.mod_small by lia.
  destruct (Byte.of_N n) as [b|] eqn:E.
  - simpl. by apply Byte.to_of_N.
  - apply Byte.of_N_None_iff in E. lia.
Qed.

Lemma u8_of_to_N b : u8 (Byte.to_N b) = b.
Proof.
  unfold u8. pose proof (Byte.to_N_bounded b).
  rewrite N.mod_small by lia. by rewrite Byte.of_to_N.
Qed.

Lemma is_digit_char ch :
  is_digit ch = true -> ch = digit_char (digit_value ch) /\ digit_value ch < 10.
Proof.
  unfold is_digit, digit_char, digit_value, code.
  intros [H1 H2]%andb_prop. apply N.leb_le in H1, H2. split; [|lia].
  replace (48 + (N_of_ascii ch - 48)) with (N_of_ascii ch) by lia.
  by rewrite ascii_N_embedding.
Qed.

Lemma digit_char_is_digit d :
  d < 10 -> is_digit (digit_char d) = true /\ digit_value (digit_char d) = d.
Proof.
  intros H. unfold is_digit, digit_value, digit_char, code.
  rewrite N_ascii_embedding by lia. split; [|lia].
  apply andb_true_intro. split; apply N.leb_le; lia.
Qed.

Lemma forallb_below (f : N -> bool) (k : nat) :
  forallb f (N.of_nat <$> seq 0 k) = true -> forall n, n < N.of_nat k -> f n = true.
Proof.
  intros H n Hn. rewrite forallb_forall in H. apply H.
  apply list_elem_of_In, list_elem_of_fmap. exists (N.to_nat n). split; [lia |].
  apply elem_of_seq. lia.
Qed.

Lemma fmt_u_snoc cur d :
  1 <= cur -> d < 10 -> cur * 10 + d <= 255 ->
  fmt_u (cur * 10 + d) = fmt_u cur +:+ String (digit_char d) "".
Proof.
  intros H1 H2 H3.
  pose (f := fun c => forallb (fun d => (c =? 0) || (255 <? c * 10 + d)
     || String.eqb (fmt_u (c * 10 + d)) (fmt_u c +:+ String (digit_char d) ""))
     (N.of_nat <$> seq 0 10)).
  assert (Hf : f cur = true).
  { apply (forallb_below f 26); [by vm_compute | lia]. }
  unfold f in Hf. pose proof (forallb_below _ 10 Hf d ltac:(lia)) as Hd.
  simpl in Hd. apply orb_prop in Hd as [Hd|Hd].
  - apply orb_prop in Hd as [Hd|Hd].
    + apply N.eqb_eq in Hd. lia.
    + apply N.ltb_lt in Hd. lia.
  - by apply String.eqb_eq in Hd.
Qed.

Lemma dotted_snoc done o :
  dotted (done ++ [o]) = dotted done +:+ fmt_u (Byte.to_N o) +:+ ".".
Proof.
  induction done as [|x done IH]; simpl.
  - done.
  - by rewrite IH, ?append_assoc.
Qed.

Lemma is_digit_not_dot ch : is_digit ch = true -> Ascii.eqb ch "." = false.
Proof.
  unfold is_digit, code. intros [H1 H2]%andb_prop. apply N.leb_le in H1.
  apply Ascii.eqb_neq. intros ->. by vm_compute in H1.
Qed.

Lemma pton4_loop_sound s : forall sd oc done cur b,
  pton4_loop s sd oc done cur = Some b ->
  oc = (length done + (if sd then 1 else 0))%nat ->
  (if sd then cur <= 255 /\ (oc <= 4)%nat else cur = 0 /\ (oc <= 3)%nat) ->
  length b = 4%nat
  /\ (str_count "." s + length done = 3)%nat
  /\ none_of (fun c => negb (is_quad_char c)) s = true
  /\ inet_ntop4 b = quad_so_far done sd cur +:+ s.
Proof.
  induction s as [|ch rest IH]; intros sd oc done cur b Hrun Hoc Hinv.
  - simpl in Hrun. destruct (oc <? 4)%nat eqn:E; [done |].
    apply Nat.ltb_ge in E. injection Hrun as <-.
    destruct sd; [|lia]. destruct Hinv as [Hcur Hle].
    assert (length done = 3%nat) as Hlen by lia.
    destruct done as [|o1 [|o2 [|o3 [|? ?]]]]; try done.
    repeat split; try done.
    unfold quad_so_far. simpl. rewrite u8_to_N by done.
    by str_norm.
  - simpl in Hrun. destruct (is_digit ch) eqn:Hd.
    + destruct (is_digit_char ch Hd) as [Hch Hlt].
      assert (Hq : negb (is_quad_char ch) = false).
      { unfold is_quad_char. by rewrite Hd. }
      simpl. rewrite (is_digit_not_dot ch Hd), Hq. simpl.
      destruct sd; simpl in Hrun.
      * destruct Hinv as [Hcur Hle].
        destruct (cur =? 0) eqn:E0; [done |]. apply N.eqb_neq in E0.
        destruct (255 <? cur * 10 + digit_value ch) eqn:E1; [done |].
        apply N.ltb_ge in E1.
        destruct (IH _ _ _ _ _ Hrun Hoc (conj E1 Hle)) as (?&?&?&Hs).
        repeat split; try done. rewrite Hs. unfold quad_so_far.
        rewrite fmt_u_snoc by lia. rewrite <- Hch.
        by str_norm.
      * destruct Hinv as [-> Hle]. simpl in Hrun.
        change (0 * 10 + digit_value ch) with (digit_value ch) in Hrun.
        destruct (255 <? digit_value ch) eqn:E1; [done |].
        apply N.ltb_ge in E1.
        destruct (4 <? S oc)%nat eqn:E4; [done |]. apply Nat.ltb_ge in E4.
        assert (Hoc' : S oc = (length done + 1)%nat) by lia.
        destruct (IH _ _ _ _ _ Hrun Hoc' (conj E1 E4)) as (?&?&?&Hs).
        repeat split; try done. rewrite Hs. unfold quad_so_far.
        assert (fmt_u (digit_value ch) = String ch "") as ->.
        { unfold fmt_u. apply N.ltb_lt in Hlt. rewrite Hlt. by rewrite <- Hch. }
        by str_norm.
    + destruct (Ascii.eqb ch ".") eqn:Hdot; [|done].
      apply Ascii.eqb_eq in Hdot as ->.
      destruct sd; [|done]. simpl in Hrun. destruct Hinv as [Hcur Hle].
      destruct (oc =? 4)%nat eqn:E4; [done |]. apply Nat.eqb_neq in E4.
      assert (Hoc' : oc = (length (done ++ [u8 cur]) + 0)%nat).
      { rewrite length_app. simpl. lia. }
      assert (Hle' : (oc <= 3)%nat) by lia.
      destruct (IH _ _ _ _ _ Hrun Hoc' (conj eq_refl Hle')) as (?&Hc&?&Hs).
      rewrite length_app in Hc. simpl in Hc.
      repeat split; try done; [simpl; lia |].
      rewrite Hs. unfold quad_so_far. rewrite dotted_snoc, u8_to_N by done.
      by str_norm.
Qed.

Lemma pton4_digit_first d rest oc done :
  d < 10 -> (oc < 4)%nat ->
  pton4_loop (String (digit_char d) rest) false oc done 0
  = pton4_loop rest true (S oc) done d.
Proof.
  intros Hd Hoc. destruct (digit_char_is_digit d Hd) as [H1 H2].
  simpl. rewrite H1, H2. simpl.
  change (0 * 10 + d) with d.
  replace (255 <? d) with false by (symmetry; apply N.ltb_ge; lia).
  replace (4 <? S oc)%nat with false by (symmetry; apply Nat.ltb_ge; lia).
  done.
Qed.

Lemma pton4_digit_next d rest oc done cur :
  d < 10 -> 1 <= cur -> cur * 10 + d <= 255 ->
  pton4_loop (String (digit_char d) rest) true oc done cur
  = pton4_loop rest true oc done (cur * 10 + d).
Proof.
  intros Hd Hc Hn. destruct (digit_char_is_digit d Hd) as [H1 H2].
  simpl. rewrite H1, H2. simpl.
  replace (cur =? 0) with false by (symmetry; apply N.eqb_neq; lia).
  replace (255 <? cur * 10 + d) with false by (symmetry; apply N.ltb_ge; lia).
  done.
Qed.

Lemma pton4_octet n rest oc done :
  n <= 255 -> (oc < 4)%nat ->
  pton4_loop (fmt_u n +:+ rest) false oc done 0
  = pton4_loop rest true (S oc) done n.
Proof.
  intros Hn Hoc. unfold fmt_u.
  replace (n / 100) with (n / 10 / 10) by (by rewrite N.Div0.div_div).
  pose proof (N.div_mod n 10 ltac:(lia)) as E1.
  pose proof (N.mod_lt n 10 ltac:(lia)) as M1.
  pose proof (N.div_mod (n / 10) 10 ltac:(lia)) as E2.
  pose proof (N.mod_lt (n / 10) 10 ltac:(lia)) as M2.
  revert E1 M1 E2 M2.
  generalize (n / 10), (n mod 10), (n / 10 mod 10), (n / 10 / 10).
  intros q1 r1 r2 q2 E1 M1 E2 M2.
  destruct (n <? 10) eqn:L1; [apply N.ltb_lt in L1 | apply N.ltb_ge in L1].
  { cbn [String.append]. by rewrite pton4_digit_first. }
  destruct (n <? 100) eqn:L2; [apply N.ltb_lt in L2 | apply N.ltb_ge in L2].
  { cbn [String.append]. rewrite pton4_digit_first by (try done; lia).
    rewrite pton4_digit_next by lia. f_equal. lia. }
  cbn [String.append]. rewrite pton4_digit_first by (try done; lia).
  rewrite pton4_digit_next by lia.
  rewrite pton4_digit_next by lia. f_equal. lia.
Qed.

Lemma pton4_dot rest oc done cur :
  (oc < 4)%nat ->
  pton4_loop (String "." rest) true oc done cur
  = pton4_loop rest false oc (done ++ [u8 cur]) 0.
Proof.
  intros Hoc. simpl.
  replace (oc =? 4)%nat with false by (symmetry; apply Nat.eqb_neq; lia).
  done.
Qed.

(** The parser reads back what the printer wrote. *)
Lemma pton4_ntop4 packed :
  length packed = 4%nat -> inet_pton4 (inet_ntop4 packed) = Some packed.
Proof.
  intros Hlen. destruct packed as [|a [|b [|c [|d [|? ?]]]]]; try done.
  unfold inet_pton4, inet_ntop4.
  pose proof (Byte.to_N_bounded a). pose proof (Byte.to_N_bounded b).
  pose proof (Byte.to_N_bounded c). pose proof (Byte.to_N_bounded d).
  rewrite pton4_octet by (try done; lia). cbn [String.append]. rewrite pton4_dot by lia.
  rewrite pton4_octet by (try done; lia). cbn [String.append]. rewrite pton4_dot by lia.
  rewrite pton4_octet by (try done; lia). cbn [String.append]. rewrite pton4_dot by lia.
  rewrite <- (append_nil_r (fmt_u (Byte.to_N d))).
  rewrite pton4_octet by (try done; lia). simpl.
  by rewrite !u8_of_to_N.
Qed.

(** What the parser accepts is in canonical form already. *)
Lemma ntop4_pton4 s packed :
  inet_pton4 s = Some packed ->
  length packed = 4%nat /\ str_count "." s = 3%nat
  /\ none_of (fun c => negb (is_quad_char c)) s = true
  /\ inet_ntop4 packed = s.
Proof.
  intros H. destruct (pton4_loop_sound s false 0 [] 0 packed H eq_refl)
    as (?&Hc&?&?); [split; [done | lia] |].
  simpl in Hc. repeat split; try done. lia.
Qed.

End Ipv4Facts.

(** ** Colon-separated groups *)

Section Ipv6Facts.

Import Libc Shape.

Lemma holds_below_spec f k from :
  holds_below f k from = true ->
  forall n, from <= n -> n < from + N.of_nat k -> f n = true.
Proof.
  revert from. induction k as [|k IH]; intros from H n H1 H2; [lia |].
  simpl in H. apply andb_prop in H as [Hf Hr].
  destruct (N.eq_dec n from) as [-> | Hne]; [done |].
  apply (IH (N.succ from)); [done | lia | lia].
Qed.

(** Reading the digits of a group leaves the loop with the group's value. *)
Lemma scan_hex_fmt_x w :
  w < 65536 ->
  exists seen, (0 < seen)%nat /\ scan_hex (fmt_x w) 0 0 = Some (seen, w).
Proof.
  intros Hw.
  pose (f := fun w => match scan_hex (fmt_x w) 0 0 with
                      | Some (seen, v) => (0 <? seen)%nat && (v =? w)
                      | None => false
                      end).
  assert (Hf : f w = true).
  { apply (holds_below_spec f (N.to_nat 65536) 0); [by vm_compute | lia | lia]. }
  unfold f in Hf. destruct (scan_hex (fmt_x w) 0 0) as [[seen v]|]; [|done].
  apply andb_prop in Hf as [H1 H2]. apply Nat.ltb_lt in H1.
  apply N.eqb_eq in H2 as ->. eauto.
Qed.

Lemma pton6_loop_scan ds : forall rest ct seen val tp cp seen' val',
  scan_hex ds seen val = Some (seen', val') ->
  pton6_loop (ds +:+ rest) ct seen val tp cp
  = pton6_loop rest ct seen' val' tp cp.
Proof.
  induction ds as [|ch ds IH]; intros rest ct seen val tp cp seen' val' H.
  - simpl in H. by injection H as -> ->.
  - simpl in *. destruct (hex_digit_value ch) as [d|]; [|done].
    destruct (seen =? 4)%nat; [done |].
    destruct (65535 <? N.lor (N.shiftl val 4) d); [done |].
    by apply IH.
Qed.

Lemma pton6_group w rest ct tp cp :
  w < 65536 ->
  exists seen, (0 < seen)%nat /\
    pton6_loop (fmt_x w +:+ rest) ct 0 0 tp cp
    = pton6_loop rest ct seen w tp cp.
Proof.
  intros Hw. destruct (scan_hex_fmt_x w Hw) as (seen & Hpos & Hscan).
  exists seen. split; [done |]. by apply pton6_loop_scan.
Qed.

Lemma pton6_colon_store rest ct seen val tp cp :
  (0 < seen)%nat -> rest <> "" -> (length tp + 2 <= 16)%nat ->
  pton6_loop (String ":" rest) ct seen val tp cp
  = pton6_loop rest rest 0 0 (tp ++ group_bytes val) cp.
Proof.
  intros Hs Hr Ht. simpl.
  replace (seen =? 0)%nat with false by (symmetry; apply Nat.eqb_neq; lia).
  destruct rest; [done |].
  replace (16 <? length tp + 2)%nat with false
    by (symmetry; apply Nat.ltb_ge; lia).
  done.
Qed.

Lemma words_bytes_cons w ws :
  words_bytes (w :: ws) = group_bytes w ++ words_bytes ws.
Proof. done. Qed.

Lemma words_bytes_length ws : length (words_bytes ws) = (2 * length ws)%nat.
Proof.
  induction ws as [|w ws IH]; [done |].
  rewrite words_bytes_cons, length_app, IH. simpl. lia.
Qed.

Lemma words_bytes_app a b : words_bytes (a ++ b) = words_bytes a ++ words_bytes b.
Proof. unfold words_bytes. by rewrite fmap_app, concat_app. Qed.

Lemma terminated_nonempty w ws rest : terminated (w :: ws) +:+ rest <> "".
Proof.
  simpl. unfold fmt_x.
  repeat match goal with |- context [if ?b then _ else _] => destruct b end;
    done.
Qed.

Lemma terminated_cons w ws rest :
  terminated (w :: ws) +:+ rest
  = fmt_x w +:+ String ":" (terminated ws +:+ rest).
Proof. simpl. by rewrite append_assoc. Qed.

Lemma terminated_rest_nonempty ws rest :
  rest <> "" -> terminated ws +:+ rest <> "".
Proof. destruct ws; [done |]. intros _. apply terminated_nonempty. Qed.

(** Groups that each end in a colon are stored one after the other. *)
Lemma pton6_terminated ws : forall rest ct tp cp,
  Forall (fun w => w < 65536) ws -> ws <> [] -> rest <> "" ->
  (length tp + 2 * length ws <= 16)%nat ->
  pton6_loop (terminated ws +:+ rest) ct 0 0 tp cp
  = pton6_loop rest rest 0 0 (tp ++ words_bytes ws) cp.
Proof.
  induction ws as [|w ws IH]; intros rest ct tp cp Hws Hne Hrest Hlen;
    [done |].
  inversion Hws as [|? ? Hw Hws']; subst. simpl in Hlen.
  rewrite terminated_cons.
  destruct (pton6_group w (String ":" (terminated ws +:+ rest)) ct tp cp Hw)
    as (seen & Hpos & ->).
  rewrite pton6_colon_store;
    [| done | by apply terminated_rest_nonempty | lia].
  rewrite words_bytes_cons.
  destruct ws as [|w' ws].
  - change (words_bytes []) with (@nil byte). by rewrite app_nil_r.
  - rewrite IH by (try done; rewrite length_app; simpl in *; lia).
    by rewrite <- app_assoc.
Qed.

Lemma colon_groups_groups ws :
  ws <> [] -> colon_groups ws = String ":" (groups ws).
Proof. by destruct ws. Qed.

Lemma groups_snoc ws z : groups (ws ++ [z]) = terminated ws +:+ fmt_x z.
Proof.
  induction ws as [|w ws IH].
  - simpl. by rewrite append_nil_r.
  - change (groups ((w :: ws) ++ [z]))
      with (fmt_x w +:+ colon_groups (ws ++ [z])).
    rewrite colon_groups_groups by (by destruct ws).
    rewrite IH. simpl. by rewrite append_assoc.
Qed.

Lemma groups_colon ws rest :
  ws <> [] -> groups ws +:+ String ":" rest = terminated ws +:+ rest.
Proof.
  induction ws as [|w ws IH]; [done |]. intros _.
  destruct ws as [|w' ws].
  - simpl. by rewrite !append_nil_r, ?append_assoc.
  - change (groups (w :: w' :: ws))
      with (fmt_x w +:+ colon_groups (w' :: ws)).
    rewrite colon_groups_groups by done.
    rewrite terminated_cons, <- IH by done.
    by rewrite append_assoc.
Qed.

Lemma pton6_finish_store seen val tp cp :
  (0 < seen)%nat -> (length tp + 2 <= 16)%nat ->
  pton6_finish seen val tp cp = pton6_finish 0 0 (tp ++ group_bytes val) cp.
Proof.
  intros Hs Ht. unfold pton6_finish.
  replace (0 <? seen)%nat with true by (symmetry; apply Nat.ltb_lt; lia).
  replace (16 <? length tp + 2)%nat with false
    by (symmetry; apply Nat.ltb_ge; lia).
  done.
Qed.

(** The groups after the last colon, up to the end of the text. *)
Lemma pton6_groups_end ws : forall ct tp cp,
  Forall (fun w => w < 65536) ws ->
  (length tp + 2 * length ws <= 16)%nat ->
  pton6_loop (groups ws) ct 0 0 tp cp
  = pton6_finish 0 0 (tp ++ words_bytes ws) cp.
Proof.
  intros ct tp cp Hws Hlen.
  destruct ws as [|w ws _] using rev_ind.
  - simpl. change (words_bytes []) with (@nil byte). by rewrite app_nil_r.
  - apply Forall_app in Hws as [Hws Hw]. inversion Hw as [|? ? Hw' _]; subst.
    rewrite length_app in Hlen. simpl in Hlen.
    rewrite groups_snoc, words_bytes_app.
    assert (exists ct', pton6_loop (terminated ws +:+ fmt_x w) ct 0 0 tp cp
      = pton6_loop (fmt_x w +:+ "") ct' 0 0 (tp ++ words_bytes ws) cp)
      as [ct' ->].
    { destruct ws as [|w0 ws].
      - exists ct. simpl. change (words_bytes []) with (@nil byte).
        by rewrite app_nil_r, append_nil_r.
      - exists (fmt_x w). rewrite append_nil_r. apply pton6_terminated;
          try done; [|lia].
        destruct (scan_hex_fmt_x w Hw') as (seen & Hpos & Hscan).
        intros E. rewrite E in Hscan. simpl in Hscan.
        injection Hscan as <- _. lia. }
    destruct (pton6_group w "" ct' (tp ++ words_bytes ws) cp Hw')
      as (seen & Hpos & ->).
    simpl. rewrite pton6_finish_store; [| done |].
    + rewrite words_bytes_cons. change (words_bytes []) with (@nil byte).
      by rewrite app_nil_r, app_assoc.
    + rewrite length_app, words_bytes_length. lia.
Qed.

Lemma scan_hex_fmt_u n :
  n <= 255 -> exists seen val, scan_hex (fmt_u n) 0 0 = Some (seen, val).
Proof.
  intros Hn.
  pose (f := fun n => bool_decide (is_Some (scan_hex (fmt_u n) 0 0))).
  assert (Hf : f n = true).
  { apply (holds_below_spec f 256 0); [by vm_compute | lia | lia]. }
  apply bool_decide_eq_true in Hf as [[seen val] Hf]. eauto.
Qed.

Lemma pton6_finish_val seen val tp cp :
  seen = 0%nat -> pton6_finish seen val tp cp = pton6_finish 0 0 tp cp.
Proof. by intros ->. Qed.

(** A dotted quad that closes the text is handed to [inet_pton4]. *)
Lemma pton6_quad_end q tp cp :
  length q = 4%nat -> (length tp + 4 <= 16)%nat ->
  pton6_loop (inet_ntop4 q) (inet_ntop4 q) 0 0 tp cp
  = pton6_finish 0 0 (tp ++ q) cp.
Proof.
  intros Hq Htp. pose proof (pton4_ntop4 q Hq) as Hparse.
  destruct q as [|a [|b [|c [|d [|? ?]]]]]; try done.
  remember (inet_ntop4 [a; b; c; d]) as ct eqn:Ect.
  rewrite Ect at 1. unfold inet_ntop4.
  destruct (scan_hex_fmt_u (Byte.to_N a)) as (seen & val & Hscan);
    [apply Byte.to_N_bounded |].
  rewrite (pton6_loop_scan _ _ _ _ _ _ _ _ _ Hscan).
  cbn [String.append]. cbn [pton6_loop].
  change (hex_digit_value ".") with (@None N). cbn iota.
  change (Ascii.eqb "." ":") with false. cbn iota.
  change (Ascii.eqb "." ".") with true.
  replace (length tp + 4 <=? 16)%nat with true
    by (symmetry; apply Nat.leb_le; lia).
  cbn [andb]. by rewrite Hparse.
Qed.

Lemma to_N_inj a b : Byte.to_N a = Byte.to_N b -> a = b.
Proof.
  intros H. pose proof (Byte.of_to_N a) as Ha.
  rewrite H, Byte.of_to_N in Ha. by injection Ha.
Qed.

(** A group and its two bytes determine each other. *)
Lemma group_of_bytes hi lo :
  let w := N.lor (N.shiftl (Byte.to_N hi) 8) (Byte.to_N lo) in
  w < 65536 /\ group_bytes w = [hi; lo].
Proof.
  pose (g := fun a b =>
    let w := N.lor (N.shiftl a 8) b in
    (w <? 65536) && (Byte.to_N (u8 (N.land (N.shiftr w 8) 255)) =? a)
    && (Byte.to_N (u8 (N.land w 255)) =? b)).
  pose (f := fun a => holds_below (g a) 256 0).
  assert (Hf : f (Byte.to_N hi) = true).
  { pose proof (Byte.to_N_bounded hi).
    apply (holds_below_spec f 256 0); [by vm_compute | lia | lia]. }
  assert (Hg : g (Byte.to_N hi) (Byte.to_N lo) = true).
  { pose proof (Byte.to_N_bounded lo).
    apply (holds_below_spec _ 256 0 Hf); lia. }
  unfold g in Hg. apply andb_prop in Hg as [[H1 H2]%andb_prop H3].
  apply N.ltb_lt in H1. apply N.eqb_eq, to_N_inj in H2, H3.
  split; [done |]. unfold group_bytes. by rewrite H2, H3.
Qed.

Lemma words_of_bounded src : Forall (fun w => w < 65536) (words_of src).
Proof.
  induction src as [src IH] using (induction_ltof1 _ (@length byte)).
  destruct src as [|hi [|lo src]]; simpl; [done | done |].
  constructor; [apply group_of_bytes | apply IH; unfold ltof; simpl; lia].
Qed.

Lemma words_bytes_pair hi lo src :
  words_bytes (words_of (hi :: lo :: src))
  = hi :: lo :: words_bytes (words_of src).
Proof.
  change (words_of (hi :: lo :: src))
    with (N.lor (N.shiftl (Byte.to_N hi) 8) (Byte.to_N lo) :: words_of src).
  by rewrite words_bytes_cons, (proj2 (group_of_bytes hi lo)).
Qed.

Lemma words_of_16 src :
  length src = 16%nat ->
  length (words_of src) = 8%nat /\ words_bytes (words_of src) = src.
Proof.
  intros H. do 17 (destruct src as [|? src]; try done).
  split; [done |]. by rewrite !words_bytes_pair.
Qed.

Lemma words_bytes_zeros n :
  words_bytes (replicate n 0) = replicate (2 * n) x00.
Proof.
  induction n as [|n IH]; [done |].
  change (replicate (S n) 0) with (0 :: replicate n 0).
  rewrite words_bytes_cons, IH.
  replace (2 * S n)%nat with (S (S (2 * n))) by lia. done.
Qed.

Lemma fmt_x_head w :
  w < 65536 ->
  exists c r, fmt_x w = String c r /\ is_hex c = true.
Proof.
  intros Hw. destruct (scan_hex_fmt_x w Hw) as (seen & Hpos & Hscan).
  destruct (fmt_x w) as [|c r]; simpl in Hscan.
  - injection Hscan as <- _. lia.
  - exists c, r. split; [done |]. unfold is_hex.
    apply bool_decide_eq_true. by destruct (hex_digit_value c).
Qed.

Lemma is_hex_not_colon c : is_hex c = true -> Ascii.eqb c ":" = false.
Proof.
  intros H. apply Ascii.eqb_neq. intros ->. by vm_compute in H.
Qed.

(** A text that opens with a group is read from its first character. *)
Lemma inet_pton6_group_first w rest :
  w < 65536 ->
  inet_pton6 (fmt_x w +:+ rest)
  = pton6_loop (fmt_x w +:+ rest) (fmt_x w +:+ rest) 0 0 [] None.
Proof.
  intros Hw. destruct (fmt_x_head w Hw) as (c & r & -> & Hc).
  simpl. by rewrite (is_hex_not_colon c Hc).
Qed.

(** A text that opens with [::] is read from the second colon, which marks
    the gap. *)
Lemma inet_pton6_gap_first rest :
  inet_pton6 (String ":" (String ":" rest))
  = pton6_loop rest rest 0 0 [] (Some 0%nat).
Proof. done. Qed.

Lemma pton6_gap rest ct val tp :
  pton6_loop (String ":" rest) ct 0 val tp None
  = pton6_loop rest rest 0 val tp (Some (length tp)).
Proof. done. Qed.

Lemma pton6_finish_gap tp c :
  (length tp < 16)%nat ->
  pton6_finish 0 0 tp (Some c)
  = Some (take c tp ++ replicate (16 - length tp) x00 ++ drop c tp).
Proof.
  intros H. unfold pton6_finish. simpl.
  replace (length tp =? 16)%nat with false
    by (symmetry; apply Nat.eqb_neq; lia).
  done.
Qed.

#[local] Arguments words_bytes : simpl never.

(** The parser reads back every text of the printer. *)
Lemma pton6_text src t :
  length src = 16%nat -> v6_text src t -> inet_pton6 t = Some src.
Proof.
  intros Hlen Ht. destruct (words_of_16 src Hlen) as [H8 Hsrc].
  pose proof (words_of_bounded src) as Hb.
  destruct Ht as [| P l S Hw Hl | Hz | Hz].
  - destruct (words_of src) as [|w ws] eqn:E; [done |].
    apply Forall_cons in Hb as [Hw0 Hws0].
    unfold groups. rewrite inet_pton6_group_first by done.
    change (fmt_x w +:+ colon_groups ws) with (groups (w :: ws)).
    rewrite pton6_groups_end by (try (by constructor); simpl in *; lia).
    simpl. rewrite Hsrc. unfold pton6_finish. simpl. by rewrite Hlen.
  - rewrite Hw in Hb, H8, Hsrc.
    apply Forall_app in Hb as [HP [_ HS]%Forall_app].
    rewrite !length_app, length_replicate in H8.
    rewrite !words_bytes_app, words_bytes_zeros in Hsrc.
    destruct P as [|p P].
    + cbn [groups String.append]. rewrite inet_pton6_gap_first.
      rewrite pton6_groups_end by (try done; simpl in *; lia).
      simpl. rewrite pton6_finish_gap by (rewrite words_bytes_length; simpl in *; lia).
      rewrite take_0, drop_0, words_bytes_length. simpl in H8.
      rewrite <- Hsrc. change (words_bytes []) with (@nil byte).
      by replace (16 - 2 * length S)%nat with (2 * l)%nat by lia.
    + change (groups (p :: P) +:+ "::" +:+ groups S)
        with (groups (p :: P) +:+ String ":" (String ":" (groups S))).
      rewrite groups_colon by done. pose proof HP as [Hp0 HP0]%Forall_cons.
      rewrite terminated_cons, inet_pton6_group_first by done.
      rewrite <- terminated_cons.
      rewrite pton6_terminated by (try done; simpl in *; lia).
      rewrite pton6_gap. simpl app.
      rewrite pton6_groups_end
        by (try done; rewrite words_bytes_length; simpl in *; lia).
      rewrite pton6_finish_gap
        by (rewrite length_app, !words_bytes_length; simpl in *; lia).
      rewrite take_app_length, drop_app_length.
      rewrite length_app, !words_bytes_length. simpl in H8.
      rewrite <- Hsrc.
      by replace (16 - (2 * length (p :: P) + 2 * length S))%nat
        with (2 * l)%nat by (simpl; lia).
  - cbn [String.append]. rewrite inet_pton6_gap_first.
    assert (length (drop 12 src) = 4%nat) as Hq by (rewrite length_drop; lia).
    rewrite pton6_quad_end by (try done; simpl; lia).
    simpl. rewrite pton6_finish_gap by lia.
    rewrite take_0, drop_0, Hq. change (16 - 4)%nat with 12%nat.
    by rewrite <- Hz, take_drop.
  - assert (length (drop 12 src) = 4%nat) as Hq by (rewrite length_drop; lia).
    change ("::ffff:" +:+ inet_ntop4 (drop 12 src))
      with (String ":" (String ":"
              (terminated [65535] +:+ inet_ntop4 (drop 12 src)))).
    rewrite inet_pton6_gap_first.
    rewrite pton6_terminated; [| by repeat constructor | done | | simpl; lia].
    + rewrite pton6_quad_end by (try done; simpl; lia).
      rewrite pton6_finish_gap by (rewrite length_app; simpl; lia).
      rewrite take_0, drop_0, length_app, Hq. simpl length.
      change (16 - (2 + 4))%nat with 10%nat. simpl app at 1.
      rewrite <- (take_drop 12 src) at 2. rewrite Hz.
      by rewrite <- app_assoc.
    + destruct (drop 12 src) as [|a [|b [|c [|d [|? ?]]]]]; try done.
      unfold inet_ntop4, fmt_u.
      by destruct (Byte.to_N a <? 10), (Byte.to_N a <? 100).
Qed.

Lemma zero_run_app pre ws r :
  zero_run pre r -> (base r + len r <= length pre)%nat ->
  zero_run (pre ++ ws) r.
Proof.
  intros Hz Hle j Hj. rewrite lookup_app_l by lia. by apply Hz.
Qed.

Lemma longer_cases best cur :
  longer best cur = best \/ longer best cur = cur.
Proof.
  unfold longer. destruct cur as [c|], best as [b|]; auto.
  destruct (len b <? len c)%nat; auto.
Qed.

(** The run the search settles on covers zero groups only. *)
Lemma scan_runs_zero ws : forall pre best cur r,
  scan_runs ws (length pre) best cur = Some r ->
  (forall b, best = Some b ->
     zero_run pre b /\ (base b + len b <= length pre)%nat) ->
  (forall c, cur = Some c ->
     zero_run pre c /\ (base c + len c = length pre)%nat) ->
  zero_run (pre ++ ws) r /\ (base r + len r <= length (pre ++ ws))%nat.
Proof.
  induction ws as [|w ws IH]; intros pre best cur r Hscan Hbest Hcur.
  - simpl in Hscan. rewrite app_nil_r.
    destruct (longer_cases best cur) as [E|E]; rewrite E in Hscan.
    + by apply Hbest.
    + destruct (Hcur r Hscan) as [? ?]. split; [done | lia].
  - simpl in Hscan.
    replace (pre ++ w :: ws) with ((pre ++ [w]) ++ ws)
      by (by rewrite <- app_assoc).
    replace (S (length pre)) with (length (pre ++ [w])) in Hscan
      by (rewrite length_app; simpl; lia).
    destruct (w =? 0) eqn:Ew.
    + apply N.eqb_eq in Ew as ->.
      apply (IH _ _ _ _ Hscan).
      * intros b Hb. destruct (Hbest b Hb) as [Hz Hle].
        split; [by apply zero_run_app |]. rewrite length_app. lia.
      * intros c Hc. rewrite length_app. simpl.
        destruct cur as [c0|]; simpl in Hc; injection Hc as <-; simpl.
        -- destruct (Hcur c0 eq_refl) as [Hz Hle]. split; [|lia].
           intros j Hj. simpl in Hj.
           destruct (decide (j = length pre)) as [-> | Hne].
           ++ by rewrite list_lookup_middle.
           ++ rewrite lookup_app_l by lia. apply Hz. lia.
        -- split; [|lia]. intros j Hj. simpl in Hj.
           assert (j = length pre) as -> by lia.
           by rewrite list_lookup_middle.
    + apply (IH _ _ _ _ Hscan); [|done].
      intros b Hb. rewrite length_app.
      destruct (longer_cases best cur) as [E|E]; rewrite E in Hb.
      * destruct (Hbest b Hb) as [Hz Hle].
        split; [by apply zero_run_app | lia].
      * destruct (Hcur b Hb) as [Hz Hle].
        split; [apply zero_run_app; [done | lia] | lia].
Qed.

Lemma best_run_zero ws r :
  best_run ws = Some r ->
  (2 <= len r)%nat /\ zero_run ws r /\ (base r + len r <= length ws)%nat.
Proof.
  unfold best_run. destruct (scan_runs ws 0 None None) as [b|] eqn:E; [|done].
  destruct (len b <? 2)%nat eqn:El; [done |]. intros [= ->].
  apply Nat.ltb_ge in El. split; [done |].
  by apply (scan_runs_zero ws [] None None r E).
Qed.

(** The groups around a run of zeros. *)
Lemma zero_run_split ws r :
  zero_run ws r -> (base r + len r <= length ws)%nat ->
  ws = take (base r) ws ++ replicate (len r) 0 ++ drop (base r + len r) ws.
Proof.
  intros Hz Hle.
  rewrite <- (take_drop (base r) ws) at 1. f_equal.
  rewrite <- (take_drop (len r) (drop (base r) ws)) at 1.
  rewrite drop_drop. f_equal.
  symmetry. apply replicate_as_Forall. split.
  - rewrite length_take, length_drop. lia.
  - apply Forall_forall. intros x Hx.
    apply list_elem_of_lookup in Hx as [j Hj].
    pose proof (lookup_lt_Some _ _ _ Hj) as Hlt.
    rewrite length_take in Hlt.
    rewrite lookup_take_lt, lookup_drop in Hj by lia.
    rewrite Hz in Hj by lia. by injection Hj.
Qed.

Lemma ntop6_loop_none src words ws : forall i,
  ntop6_loop src words None ws i
  = if (i =? 0)%nat then groups ws else colon_groups ws.
Proof.
  induction ws as [|w ws IH]; intros i.
  - simpl. by destruct (i =? 0)%nat.
  - cbn [ntop6_loop in_run encapsulated_v4]. rewrite andb_false_r.
    rewrite IH. simpl. destruct (i =? 0)%nat; by str_norm.
Qed.

Section Run.

Variables (src : list byte) (words : list N) (r : run).

(** Before the run: groups in full. *)
Lemma ntop6_loop_before P : forall i rest,
  (i + length P <= base r)%nat ->
  ntop6_loop src words (Some r) (P ++ rest) i
  = (if (i =? 0)%nat then groups P else colon_groups P)
    +:+ ntop6_loop src words (Some r) rest (i + length P).
Proof.
  induction P as [|w P IH]; intros i rest Hle.
  - simpl. rewrite Nat.add_0_r. by destruct (i =? 0)%nat.
  - simpl in Hle. cbn [app ntop6_loop in_run encapsulated_v4].
    replace (base r <=? i)%nat with false
      by (symmetry; apply Nat.leb_gt; lia).
    replace (base r =? 0)%nat with false
      by (symmetry; apply Nat.eqb_neq; lia).
    cbn [andb]. rewrite andb_false_r.
    rewrite IH by lia. simpl length.
    replace (S i + length P)%nat with (i + S (length P))%nat by lia.
    simpl. destruct (i =? 0)%nat; by str_norm.
Qed.

(** Inside the run, past its first group: nothing. *)
Lemma ntop6_loop_inside Z : forall i rest,
  (base r < i)%nat -> (i + length Z <= base r + len r)%nat ->
  ntop6_loop src words (Some r) (Z ++ rest) i
  = ntop6_loop src words (Some r) rest (i + length Z).
Proof.
  induction Z as [|z Z IH]; intros i rest Hlt Hle.
  - simpl. by rewrite Nat.add_0_r.
  - simpl in Hle. cbn [app ntop6_loop in_run starts_run].
    replace (base r <=? i)%nat with true
      by (symmetry; apply Nat.leb_le; lia).
    replace (i <? base r + len r)%nat with true
      by (symmetry; apply Nat.ltb_lt; lia).
    replace (i =? base r)%nat with false
      by (symmetry; apply Nat.eqb_neq; lia).
    cbn [andb]. rewrite IH by lia. simpl length.
    replace (S i + length Z)%nat with (i + S (length Z))%nat by lia.
    done.
Qed.

(** The first group of the run: a colon. *)
Lemma ntop6_loop_start z Z rest :
  (S (length Z) <= len r)%nat ->
  ntop6_loop src words (Some r) ((z :: Z) ++ rest) (base r)
  = String ":"
      (ntop6_loop src words (Some r) rest (base r + S (length Z))).
Proof.
  intros Hle. cbn [app ntop6_loop in_run starts_run].
  rewrite Nat.leb_refl, Nat.eqb_refl.
  replace (base r <? base r + len r)%nat with true
    by (symmetry; apply Nat.ltb_lt; lia).
  cbn [andb]. rewrite ntop6_loop_inside by lia.
  replace (S (base r) + length Z)%nat with (base r + S (length Z))%nat
    by lia.
  done.
Qed.

(** After the run: each group after a colon. *)
Lemma ntop6_loop_after S : forall i,
  (base r + len r <= i)%nat -> (0 < i)%nat ->
  encapsulated_v4 (Some r) words = false ->
  ntop6_loop src words (Some r) S i
  = colon_groups S +:+ trailing_colon (Some r).
Proof.
  induction S as [|w S IH]; intros i Hle Hpos Henc; [done |].
  cbn [ntop6_loop in_run]. rewrite Henc, andb_false_r.
  replace (i <? base r + len r)%nat with false
    by (symmetry; apply Nat.ltb_ge; lia).
  rewrite andb_false_r.
  replace (i =? 0)%nat with false by (symmetry; apply Nat.eqb_neq; lia).
  rewrite IH by (try done; lia). by str_norm.
Qed.

End Run.

(** Every text of the printer has one of the four shapes. *)
Lemma ntop6_text src : length src = 16%nat -> v6_text src (inet_ntop6 src).
Proof.
  intros Hlen. destruct (words_of_16 src Hlen) as [H8 Hsrc].
  unfold inet_ntop6. cbv zeta.
  destruct (best_run (words_of src)) as [r|] eqn:Hbest.
  2: { rewrite ntop6_loop_none. simpl. constructor. }
  destruct (best_run_zero _ _ Hbest) as (Hl & Hz & Hle).
  pose proof (zero_run_split _ _ Hz Hle) as Hsplit.
  set (P := take (base r) (words_of src)) in *.
  set (S := drop (base r + len r) (words_of src)) in *.
  assert (HP : length P = base r)
    by (unfold P; rewrite length_take; lia).
  assert (HS : (base r + len r + length S = 8)%nat)
    by (unfold S; rewrite length_drop; lia).
  rewrite Hsplit at 2.
  rewrite ntop6_loop_before by lia. simpl Nat.eqb. cbv iota.
  simpl Nat.add. rewrite HP.
  assert (Hrep : replicate (len r) 0 = 0 :: replicate (len r - 1) 0).
  { destruct (len r); [lia |]. simpl. by rewrite Nat.sub_0_r. }
  rewrite Hrep.
  rewrite ntop6_loop_start by (rewrite length_replicate; lia).
  rewrite length_replicate.
  replace (base r + Datatypes.S (len r - 1))%nat with (base r + len r)%nat
    by lia.
  clear Hrep.
  destruct (encapsulated_v4 (Some r) (words_of src)) eqn:Henc.
  - (* a dotted quad closes the text *)
    pose proof Henc as Hquad. unfold encapsulated_v4 in Henc.
    apply andb_prop in Henc as [Hb0 Hl56]. apply Nat.eqb_eq in Hb0.
    assert (P = []) as HPnil by (apply length_zero_iff_nil; lia).
    rewrite HPnil, Hb0 in *. simpl Nat.add in *. cbn [groups String.append].
    assert (Hbytes : src
      = replicate (2 * len r) x00 ++ words_bytes S).
    { rewrite <- Hsrc at 1. rewrite Hsplit. simpl app.
      by rewrite words_bytes_app, words_bytes_zeros. }
    apply orb_prop in Hl56 as [H6 | H5].
    + apply Nat.eqb_eq in H6. rewrite H6 in *.
      destruct S as [|w6 [|w7 [|? ?]]]; simpl in HS; try lia.
      cbn [ntop6_loop in_run]. unfold trailing_colon.
      rewrite Hquad, Hb0, H6. simpl. rewrite append_nil_r.
      apply text_compat. rewrite Hbytes.
      by apply take_app_length'.
    + apply andb_prop in H5 as [H5 Hw5]. apply Nat.eqb_eq in H5.
      apply bool_decide_eq_true in Hw5. rewrite H5 in *.
      destruct S as [|w5 [|w6 [|w7 [|? ?]]]]; simpl in HS; try lia.
      rewrite Hsplit in Hw5. simpl in Hw5. injection Hw5 as ->.
      cbn [ntop6_loop in_run]. unfold trailing_colon.
      rewrite Hquad, Hb0, H5. change (fmt_x 65535) with "ffff".
      simpl. rewrite append_nil_r.
      apply text_mapped. rewrite Hbytes.
      rewrite words_bytes_cons, app_assoc.
      by apply take_app_length'.
  - rewrite ntop6_loop_after by (try done; lia).
    assert (colon_groups S +:+ trailing_colon (Some r)
            = String ":" (groups S)) as ->.
    { unfold trailing_colon. destruct S as [|s S'].
      - simpl in HS.
        by replace (base r + len r =? 8)%nat with true
          by (symmetry; apply Nat.eqb_eq; lia).
      - simpl in HS.
        replace (base r + len r =? 8)%nat with false
          by (symmetry; apply Nat.eqb_neq; lia).
        by rewrite append_nil_r. }
    change (groups P +:+ String ":" (String ":" (groups S)))
      with (groups P +:+ "::" +:+ groups S).
    by apply (text_run src P (len r) S).
Qed.

(** Printing and reading an address gives the address back. *)
Lemma pton6_ntop6 src :
  length src = 16%nat -> inet_pton6 (inet_ntop6 src) = Some src.
Proof. intros H. by apply pton6_text, ntop6_text. Qed.

End Ipv6Facts.

(** ** The characters and the prefix of canonical texts *)

Section TextFacts.

Import Libc Shape.

Lemma none_of_weaken (p q : ascii -> bool) s :
  (forall c, q c = true -> p c = true) ->
  none_of p s = true -> none_of q s = true.
Proof.
  intros Hpq. induction s as [|c s IH]; simpl; [done |].
  intros [Hc Hs]%andb_prop. rewrite (IH Hs), andb_true_r.
  destruct (q c) eqn:E; [|done]. by rewrite (Hpq c E) in Hc.
Qed.

Lemma none_of_cons_true p c s : p c = true -> none_of p (String c s) = false.
Proof. intros H. simpl. by rewrite H. Qed.

Lemma addr_char_not_space c : is_space c = true -> negb (is_addr_char c) = true.
Proof. by destruct c as [[] [] [] [] [] [] [] []]. Qed.

Lemma addr_char_not_nul c :
  Ascii.eqb c Ascii.zero = true -> negb (is_addr_char c) = true.
Proof. by destruct c as [[] [] [] [] [] [] [] []]. Qed.

Lemma quad_char_addr_char c :
  negb (is_addr_char c) = true -> negb (is_quad_char c) = true.
Proof. by destruct c as [[] [] [] [] [] [] [] []]. Qed.

Lemma quad_char_not_colon c :
  is_colon c = true -> negb (is_quad_char c) = true.
Proof. by destruct c as [[] [] [] [] [] [] [] []]. Qed.

Lemma hex_addr_char c :
  negb (is_addr_char c) = true -> negb (is_hex c) = true.
Proof. by destruct c as [[] [] [] [] [] [] [] []]. Qed.

(** A text of address characters has neither whitespace nor U+0000. *)
Lemma addr_text_plain s :
  none_of (fun c => negb (is_addr_char c)) s = true ->
  str_strip s = s /\ has_nul s = false.
Proof.
  intros H. split.
  - apply strip_none_of. revert H. apply none_of_weaken, addr_char_not_space.
  - rewrite has_nul_none_of. apply negb_false_iff.
    revert H. apply none_of_weaken, addr_char_not_nul.
Qed.

Lemma ntop4_chars q :
  length q = 4%nat ->
  none_of (fun c => negb (is_quad_char c)) (inet_ntop4 q) = true.
Proof.
  intros Hq. by destruct (ntop4_pton4 _ _ (pton4_ntop4 q Hq)) as (_&_&?&_).
Qed.

Lemma ntop4_addr_chars q :
  length q = 4%nat ->
  none_of (fun c => negb (is_addr_char c)) (inet_ntop4 q) = true.
Proof.
  intros Hq. generalize (ntop4_chars q Hq).
  apply none_of_weaken, quad_char_addr_char.
Qed.

Lemma scan_hex_chars ds : forall seen val out,
  scan_hex ds seen val = Some out ->
  none_of (fun c => negb (is_hex c)) ds = true.
Proof.
  induction ds as [|c ds IH]; intros seen val out H; [done |].
  simpl in *. unfold is_hex at 1.
  destruct (hex_digit_value c) as [d|]; [|done]. simpl.
  destruct (seen =? 4)%nat; [done |].
  destruct (65535 <? N.lor (N.shiftl val 4) d); [done |]. eauto.
Qed.

Lemma fmt_x_chars w :
  w < 65536 -> none_of (fun c => negb (is_hex c)) (fmt_x w) = true.
Proof.
  intros Hw. destruct (scan_hex_fmt_x w Hw) as (seen & _ & Hscan).
  by apply (scan_hex_chars _ _ _ _ Hscan).
Qed.

Lemma fmt_x_addr_chars w :
  w < 65536 -> none_of (fun c => negb (is_addr_char c)) (fmt_x w) = true.
Proof.
  intros Hw. generalize (fmt_x_chars w Hw).
  apply none_of_weaken, hex_addr_char.
Qed.

Lemma colon_groups_chars ws :
  Forall (fun w => w < 65536) ws ->
  none_of (fun c => negb (is_addr_char c)) (colon_groups ws) = true.
Proof.
  induction 1 as [|w ws Hw _ IH]; [done |].
  simpl. rewrite none_of_app, IH, andb_true_r. by apply fmt_x_addr_chars.
Qed.

Lemma groups_chars ws :
  Forall (fun w => w < 65536) ws ->
  none_of (fun c => negb (is_addr_char c)) (groups ws) = true.
Proof.
  destruct 1 as [|w ws Hw Hws]; [done |].
  simpl. rewrite none_of_app, colon_groups_chars, andb_true_r by done.
  by apply fmt_x_addr_chars.
Qed.

(** Canonical IPv6 texts are made of address characters. *)
Lemma v6_text_chars src t :
  length src = 16%nat -> v6_text src t ->
  none_of (fun c => negb (is_addr_char c)) t = true.
Proof.
  intros Hlen Ht. pose proof (words_of_bounded src) as Hb.
  assert (length (drop 12 src) = 4%nat) as Hq by (rewrite length_drop; lia).
  destruct Ht as [| P l S Hw Hl | Hz | Hz].
  - by apply groups_chars.
  - rewrite Hw in Hb. apply Forall_app in Hb as [HP [_ HS]%Forall_app].
    rewrite !none_of_app, !groups_chars by done. done.
  - rewrite none_of_app, ntop4_addr_chars by done. done.
  - rewrite none_of_app, ntop4_addr_chars by done. done.
Qed.

(** They hold a colon, so they are no dotted quads. *)
Lemma groups_colon_or_short ws :
  Forall (fun w => w < 65536) ws -> (2 <= length ws)%nat ->
  none_of is_colon (groups ws) = false.
Proof.
  intros Hws Hlen. destruct ws as [|w [|w' ws]]; simpl in Hlen; try lia.
  simpl. rewrite none_of_app. apply andb_false_intro2. done.
Qed.

Lemma v6_text_colon src t :
  length src = 16%nat -> v6_text src t -> none_of is_colon t = false.
Proof.
  intros Hlen Ht. destruct (words_of_16 src Hlen) as [H8 _].
  pose proof (words_of_bounded src) as Hb.
  destruct Ht as [| P l S Hw Hl | Hz | Hz].
  - apply groups_colon_or_short; [done | lia].
  - rewrite none_of_app. apply andb_false_intro2. done.
  - done.
  - done.
Qed.

Lemma v6_text_not_quad src t :
  length src = 16%nat -> v6_text src t -> inet_pton4 t = None.
Proof.
  intros Hlen Ht. destruct (inet_pton4 t) as [q|] eqn:E; [|done].
  destruct (ntop4_pton4 _ _ E) as (_&_&Hc&_).
  apply (none_of_weaken _ is_colon) in Hc; [|apply quad_char_not_colon].
  by rewrite (v6_text_colon src t Hlen Ht) in Hc.
Qed.

Lemma none_of_colon_no_pair s : none_of is_colon s = true -> no_colon_pair s = true.
Proof.
  induction s as [|c s IH]; [done |]. simpl.
  intros [Hc Hs]%andb_prop. apply negb_true_iff in Hc.
  destruct s; [done |]. rewrite Hc. simpl. by apply IH.
Qed.

Lemma no_colon_pair_cons c d s :
  no_colon_pair (String c (String d s))
  = negb (is_colon c && is_colon d) && no_colon_pair (String d s).
Proof. done. Qed.

Lemma no_colon_pair_app a b :
  none_of is_colon a = true -> a <> "" -> no_colon_pair b = true ->
  no_colon_pair (a +:+ b) = true.
Proof.
  induction a as [|c a IH]; [done |]. intros Ha _ Hb.
  simpl in Ha. apply andb_prop in Ha as [Hc Ha]. apply negb_true_iff in Hc.
  destruct a as [|d a].
  - simpl. destruct b; [done |]. by rewrite Hc.
  - change (String c (String d a) +:+ b) with (String c (String d a +:+ b)).
    change (String d a +:+ b) with (String d (a +:+ b)) at 1.
    cbn [no_colon_pair]. rewrite Hc. simpl andb.
    change (String d (a +:+ b)) with (String d a +:+ b). by apply IH.
Qed.

Lemma hex_not_colon c : is_colon c = true -> negb (is_hex c) = true.
Proof. by destruct c as [[] [] [] [] [] [] [] []]. Qed.

Lemma fmt_x_no_colon w : w < 65536 -> none_of is_colon (fmt_x w) = true.
Proof.
  intros Hw. generalize (fmt_x_chars w Hw).
  apply none_of_weaken, hex_not_colon.
Qed.

Lemma fmt_x_nonempty w : w < 65536 -> fmt_x w <> "".
Proof. intros Hw. by destruct (fmt_x_head w Hw) as (c & r & -> & _). Qed.

Lemma colon_groups_no_pair ws :
  Forall (fun w => w < 65536) ws -> no_colon_pair (colon_groups ws) = true.
Proof.
  induction 1 as [|w ws Hw _ IH]; [done |].
  cbn [colon_groups]. destruct (fmt_x_head w Hw) as (c & r & E & Hc).
  assert (Hrest : no_colon_pair (fmt_x w +:+ colon_groups ws) = true).
  { apply no_colon_pair_app; [by apply fmt_x_no_colon | | done].
    by apply fmt_x_nonempty. }
  rewrite E in *. cbn [String.append] in *.
  rewrite no_colon_pair_cons, Hrest, andb_true_r. unfold is_colon at 2.
  by rewrite (is_hex_not_colon c Hc), andb_false_r.
Qed.

Lemma groups_no_pair ws :
  Forall (fun w => w < 65536) ws -> no_colon_pair (groups ws) = true.
Proof.
  destruct 1 as [|w ws Hw Hws]; [done |]. simpl.
  apply no_colon_pair_app;
    [by apply fmt_x_no_colon | by apply fmt_x_nonempty |].
  by apply colon_groups_no_pair.
Qed.

Lemma prefix_cons a p b s :
  String.prefix (String a p) (String b s)
  = if ascii_dec a b then String.prefix p s else false.
Proof. done. Qed.

Lemma prefix_empty a p : String.prefix (String a p) "" = false.
Proof. done. Qed.

(** Without two colons in a row there is nothing to replace. *)
Lemma replace_no_pair s :
  no_colon_pair s = true -> replace_from "::ffff:" "" 0 s = s.
Proof.
  induction s as [|c s IH]; [done |]. intros H.
  cbn [replace_from].
  assert (String.prefix "::ffff:" (String c s) = false) as ->.
  { rewrite prefix_cons. destruct (ascii_dec ":" c) as [<-|]; [|done].
    destruct s as [|d s]; [done |]. rewrite prefix_cons.
    destruct (ascii_dec ":" d) as [<-|]; [|done]. done. }
  rewrite IH; [done |]. destruct s as [|d s]; [done |].
  rewrite no_colon_pair_cons in H. by apply andb_prop in H as [_ ?].
Qed.

Lemma prefix_app p s : String.prefix p (p +:+ s) = true.
Proof.
  induction p as [|a p IH]; [by destruct s |].
  cbn [String.append]. rewrite prefix_cons.
  by destruct (ascii_dec a a).
Qed.

(** Dropping the mapped prefix by replacement leaves what follows it. *)
Lemma replace_mapped_prefix s :
  no_colon_pair s = true ->
  str_replace "::ffff:" "" ("::ffff:" +:+ s) = s
  /\ Spec.drop_chars 7 ("::ffff:" +:+ s) = s
  /\ String.prefix "::ffff:" ("::ffff:" +:+ s) = true.
Proof.
  intros H. split; [|split]; [| done | apply prefix_app].
  unfold str_replace.
  change ("::ffff:" +:+ s) with (String ":" (":ffff:" +:+ s)).
  cbn [replace_from].
  change (String ":" (":ffff:" +:+ s)) with ("::ffff:" +:+ s).
  rewrite prefix_app. cbn [String.append String.length Nat.sub replace_from].
  by apply replace_no_pair.
Qed.

(** Replacing the one-character text [_] by [-] maps over the characters. *)
Lemma str_replace_hyphenate key :
  str_replace "_" "-" key = Spec.hyphenate key.
Proof.
  unfold str_replace. induction key as [|c key IH]; [done |].
  cbn [replace_from Spec.hyphenate]. rewrite prefix_cons.
  destruct (ascii_dec "_" c) as [<-|Hne].
  - assert (String.prefix "" key = true) as -> by (by destruct key).
    cbn [String.length Nat.sub String.append]. by rewrite IH.
  - rewrite IH. destruct (Ascii.eqb_spec c "_") as [->|]; done.
Qed.

Lemma prefix_hex_head c r p :
  is_hex c = true -> String.prefix (String ":" p) (String c r) = false.
Proof.
  intros Hc. rewrite prefix_cons. destruct (ascii_dec ":" c) as [<-|]; done.
Qed.

Ltac prefix_step H :=
  first
    [ rewrite prefix_empty in H; discriminate H
    | rewrite prefix_cons in H;
      match type of H with
      | (if ascii_dec ?a ?b then _ else _) = true =>
          destruct (ascii_dec a b) as [?|?]; [|discriminate H]
      end ].

(** A first group that spells [ffff:] is the group 0xffff before a colon. *)
Lemma group_ffff w Y :
  (Y = "" \/ exists Y', Y = String ":" Y') ->
  String.prefix "ffff:" (fmt_x w +:+ Y) = true ->
  fmt_x w = "ffff" /\ exists Y', Y = String ":" Y'.
Proof.
  intros HY H. unfold fmt_x in *.
  generalize dependent (hex_char (w / 4096)).
  generalize dependent (hex_char (w / 256 mod 16)).
  generalize dependent (hex_char (w / 16 mod 16)).
  generalize dependent (hex_char (w mod 16)).
  intros h0 h1 h2 h3 H.
  destruct (w <? 16); [|destruct (w <? 256); [|destruct (w <? 4096)]];
    cbn [String.append] in H;
    destruct HY as [-> | [Y' ->]]; repeat prefix_step H; try discriminate.
  subst. eauto.
Qed.

(** The canonical texts that open with the mapped prefix: what follows it
    is a dotted quad or a few groups. *)
Lemma mapped_text src t :
  length src = 16%nat -> v6_text src t ->
  String.prefix "::ffff:" t = true ->
  exists R, t = "::ffff:" +:+ R /\
    ((exists q, length q = 4%nat /\ R = inet_ntop4 q)
     \/ (exists S1, S1 <> [] /\ (length S1 <= 5)%nat
           /\ Forall (fun w => w < 65536) S1 /\ R = groups S1)).
Proof.
  intros Hlen Ht Hpre. destruct (words_of_16 src Hlen) as [H8 _].
  pose proof (words_of_bounded src) as Hb.
  assert (length (drop 12 src) = 4%nat) as Hq by (rewrite length_drop; lia).
  destruct Ht as [| P l S Hw Hl | Hz | Hz].
  - destruct (words_of src) as [|w ws]; [done |].
    apply Forall_cons in Hb as [Hw0 _].
    destruct (fmt_x_head w Hw0) as (c & r & E & Hc).
    unfold groups in Hpre. rewrite E in Hpre. cbn [String.append] in Hpre.
    by rewrite prefix_hex_head in Hpre.
  - rewrite Hw in Hb, H8. apply Forall_app in Hb as [HP [_ HS]%Forall_app].
    rewrite !length_app, length_replicate in H8.
    destruct P as [|p P].
    + cbn [groups String.append] in Hpre |- *.
      do 2 prefix_step Hpre.
      destruct S as [|s S1]; [by rewrite prefix_empty in Hpre |].
      apply Forall_cons in HS as [Hs HS1]. unfold groups in Hpre |- *.
      apply group_ffff in Hpre as [E [Y' HY]].
      2: { destruct S1; [by left | right; eauto]. }
      rewrite E. exists (groups S1). split.
      * destruct S1 as [|s1 S1]; [done |]. done.
      * right. exists S1. repeat split; try done.
        -- by destruct S1.
        -- simpl in H8. lia.
    + apply Forall_cons in HP as [Hp0 _].
      destruct (fmt_x_head p Hp0) as (c & r & E & Hc).
      unfold groups in Hpre. rewrite E in Hpre. cbn [String.append] in Hpre.
      by rewrite prefix_hex_head in Hpre.
  - exfalso. cbn [String.append] in Hpre. do 2 prefix_step Hpre.
    pose proof (ntop4_chars _ Hq) as Hc.
    destruct (inet_ntop4 (drop 12 src)) as [|c r]; [done |].
    prefix_step Hpre. subst c. done.
  - exists (inet_ntop4 (drop 12 src)). split; [done |]. left. eauto.
Qed.

End TextFacts.

(** ** Normal forms *)

Section NormalFacts.

Import Libc Shape.

#[local] Arguments words_bytes : simpl never.

Lemma pton6_finish_length seen val tp cp packed :
  (length tp <= 16)%nat ->
  pton6_finish seen val tp cp = Some packed -> length packed = 16%nat.
Proof.
  intros Htp. unfold pton6_finish.
  destruct (0 <? seen)%nat.
  - destruct (16 <? length tp + 2)%nat eqn:E; [done |].
    apply Nat.ltb_ge in E.
    assert (length (tp ++ group_bytes val) <= 16)%nat as Hle
      by (rewrite length_app; simpl; lia).
    generalize dependent (tp ++ group_bytes val). intros tp' Hle.
    destruct cp as [c|].
    + destruct (length tp' =? 16)%nat; [done |].
      intros [= <-].
      rewrite !length_app, length_take, length_replicate, length_drop. lia.
    + destruct (length tp' =? 16)%nat eqn:E16; [|done].
      intros [= <-]. by apply Nat.eqb_eq.
  - destruct cp as [c|].
    + destruct (length tp =? 16)%nat; [done |]. intros [= <-].
      rewrite !length_app, length_take, length_replicate, length_drop. lia.
    + destruct (length tp =? 16)%nat eqn:E16; [|done].
      intros [= <-]. by apply Nat.eqb_eq.
Qed.

Lemma pton6_loop_length src : forall ct seen val tp cp packed,
  (length tp <= 16)%nat ->
  pton6_loop src ct seen val tp cp = Some packed -> length packed = 16%nat.
Proof.
  induction src as [|ch rest IH]; intros ct seen val tp cp packed Htp H.
  - by apply (pton6_finish_length _ _ _ _ _ Htp H).
  - simpl in H. destruct (hex_digit_value ch) as [d|].
    + destruct (seen =? 4)%nat; [done |].
      destruct (65535 <? N.lor (N.shiftl val 4) d); [done |]. eauto.
    + destruct (Ascii.eqb ch ":").
      * destruct (seen =? 0)%nat.
        -- destruct cp; [done |]. eauto.
        -- destruct rest as [|c' rest']; [done |].
           destruct (16 <? length tp + 2)%nat eqn:E; [done |].
           apply Nat.ltb_ge in E. eapply IH; [|exact H]. rewrite length_app. simpl. lia.
      * destruct (Ascii.eqb ch "." && (length tp + 4 <=? 16)%nat) eqn:E;
          [|done].
        apply andb_prop in E as [_ E]. apply Nat.leb_le in E.
        destruct (inet_pton4 ct) as [quad|] eqn:E4; [|done].
        destruct (ntop4_pton4 _ _ E4) as (Hq & _).
        eapply pton6_finish_length; [|exact H]. rewrite length_app. lia.
Qed.

(** What [inet_pton6] returns has sixteen bytes. *)
Lemma pton6_length s packed :
  inet_pton6 s = Some packed -> length packed = 16%nat.
Proof.
  unfold inet_pton6. destruct s as [|ch rest]; [done |].
  destruct (Ascii.eqb ch ":").
  - destruct rest as [|ch' rest']; [done |].
    destruct (Ascii.eqb ch' ":"); [|done].
    apply pton6_loop_length. simpl. lia.
  - apply pton6_loop_length. simpl. lia.
Qed.

Lemma unwrap_mapped_chars t :
  none_of (fun c => negb (is_addr_char c)) t = true ->
  none_of (fun c => negb (is_addr_char c)) (Spec.unwrap_mapped t) = true.
Proof.
  intros H. unfold Spec.unwrap_mapped.
  destruct (String.prefix "::ffff:" t); [|done].
  by apply drop_chars_none_of.
Qed.

(** A normalised text is trimmed, and has a null character only if the raw
    text has one. *)
Lemma normalize_plain s :
  has_nul s = false ->
  str_strip (Spec.normalize s) = Spec.normalize s
  /\ has_nul (Spec.normalize s) = false.
Proof.
  intros Hnul. unfold Spec.normalize. cbv zeta.
  destruct (inet_pton4 (str_strip s)) as [q|] eqn:E4.
  - destruct (ntop4_pton4 _ _ E4) as (Hq & _).
    by apply addr_text_plain, ntop4_addr_chars.
  - destruct (inet_pton6 (str_strip s)) as [b|] eqn:E6.
    + apply addr_text_plain, unwrap_mapped_chars.
      apply (v6_text_chars b); [by eapply pton6_length |].
      apply ntop6_text. by eapply pton6_length.
    + by rewrite strip_idem, has_nul_strip.
Qed.

Lemma normalize_quad q :
  length q = 4%nat -> Spec.normalize (inet_ntop4 q) = inet_ntop4 q.
Proof.
  intros Hq. unfold Spec.normalize. cbv zeta.
  destruct (addr_text_plain _ (ntop4_addr_chars q Hq)) as [-> _].
  by rewrite pton4_ntop4.
Qed.

Lemma normalize_v6 b :
  length b = 16%nat ->
  Spec.normalize (inet_ntop6 b) = Spec.unwrap_mapped (inet_ntop6 b).
Proof.
  intros Hb. unfold Spec.normalize. cbv zeta.
  pose proof (ntop6_text b Hb) as Ht.
  destruct (addr_text_plain _ (v6_text_chars b _ Hb Ht)) as [-> _].
  by rewrite (v6_text_not_quad b _ Hb Ht), pton6_ntop6.
Qed.

Lemma pton6_finish_short tp :
  length tp <> 16%nat -> pton6_finish 0 0 tp None = None.
Proof.
  intros H. unfold pton6_finish. simpl.
  by replace (length tp =? 16)%nat with false
    by (symmetry; by apply Nat.eqb_neq).
Qed.

Lemma normalize_groups ws :
  ws <> [] -> (length ws <= 5)%nat -> Forall (fun w => w < 65536) ws ->
  Spec.normalize (groups ws) = groups ws.
Proof.
  intros Hne Hlen Hws. unfold Spec.normalize. cbv zeta.
  destruct (addr_text_plain _ (groups_chars ws Hws)) as [-> _].
  destruct (inet_pton4 (groups ws)) as [q|] eqn:E4.
  - by destruct (ntop4_pton4 _ _ E4) as (_&_&_&?).
  - destruct ws as [|w ws]; [done |]. pose proof Hws as [Hw _]%Forall_cons.
    unfold groups at 1. rewrite inet_pton6_group_first by done.
    change (fmt_x w +:+ colon_groups ws) with (groups (w :: ws)).
    rewrite pton6_groups_end by (try done; simpl in *; lia).
    rewrite pton6_finish_short; [done |].
    simpl app. rewrite words_bytes_length. simpl in *. lia.
Qed.

(** Normalising a normalised text changes nothing. *)
Lemma normalize_idem s : Spec.normalize (Spec.normalize s) = Spec.normalize s.
Proof.
  unfold Spec.normalize at 2 3. cbv zeta.
  destruct (inet_pton4 (str_strip s)) as [q|] eqn:E4.
  - destruct (ntop4_pton4 _ _ E4) as (Hq & _). by apply normalize_quad.
  - destruct (inet_pton6 (str_strip s)) as [b|] eqn:E6.
    + pose proof (pton6_length _ _ E6) as Hb.
      pose proof (ntop6_text b Hb) as Ht.
      unfold Spec.unwrap_mapped.
      destruct (String.prefix "::ffff:" (inet_ntop6 b)) eqn:Hpre.
      * destruct (mapped_text b _ Hb Ht Hpre)
          as (R & -> & [(q & Hq & ->) | (S1 & Hne & Hlen & HS1 & ->)]).
        -- cbn [String.append Spec.drop_chars]. by apply normalize_quad.
        -- cbn [String.append Spec.drop_chars]. by apply normalize_groups.
      * rewrite normalize_v6 by done. unfold Spec.unwrap_mapped.
        by rewrite Hpre.
    + unfold Spec.normalize. cbv zeta. by rewrite strip_idem, E4, E6.
Qed.

End NormalFacts.

(** ** [utils.py] on a build with [inet_pton] *)

Section PosixFacts.

Import Libc Shape Spec.

Variable aton : string -> option (list byte).
Variable defs : defaults.

Local Abbreviation sock := (posix aton).

Lemma quad_nonempty s q : inet_pton4 s = Some q -> truthy s = true.
Proof. by destruct s. Qed.

Lemma v6_text_nonempty src t :
  length src = 16%nat -> v6_text src t -> truthy t = true.
Proof.
  intros Hlen Ht. pose proof (v6_text_colon src t Hlen Ht). by destruct t.
Qed.

(** [cleanup_ip] on a build with [inet_pton]: the normal form, unless the
    text holds a null character. *)
Lemma cleanup_ip_posix s :
  cleanup_ip sock s
  = if has_nul s then Raise ValueError else Ok (normalize s).
Proof.
  unfold cleanup_ip, cleanup_v4, Socket.inet_pton, Socket.inet_ntop, normalize.
  cbn [has_inet_pton posix]. cbv zeta. rewrite has_nul_strip.
  destruct (has_nul s); [done |].
  destruct (inet_pton4 (str_strip s)) as [q|] eqn:E4.
  - destruct (ntop4_pton4 _ _ E4) as (Hq & _ & _ & Hs).
    cbn [bind]. rewrite Hq. cbn [Nat.eqb bind falsy or_else].
    rewrite Hs, (quad_nonempty _ _ E4). done.
  - cbn [bind falsy].
    destruct (inet_pton6 (str_strip s)) as [b|] eqn:E6; [|done].
    pose proof (pton6_length _ _ E6) as Hb.
    pose proof (ntop6_text b Hb) as Ht.
    cbn [bind]. rewrite Hb. cbn [Nat.eqb].
    unfold unwrap_mapped.
    destruct (String.prefix "::ffff:" (inet_ntop6 b)) eqn:Hpre.
    + destruct (mapped_text b _ Hb Ht Hpre) as (R & -> & HR).
      assert (no_colon_pair R = true) as HRp.
      { destruct HR as [(q & Hq & ->) | (S1 & _ & _ & HS1 & ->)].
        - apply none_of_colon_no_pair.
          generalize (ntop4_chars q Hq).
          apply none_of_weaken, quad_char_not_colon.
        - by apply groups_no_pair. }
      destruct (replace_mapped_prefix R HRp) as (-> & -> & _). done.
    + cbn [or_else]. by rewrite (v6_text_nonempty b _ Hb Ht).
Qed.

Lemma is_valid_ipv4_posix s :
  is_valid_ipv4 sock s
  = if has_nul s then Raise ValueError else Ok (parses_ipv4 s).
Proof.
  unfold is_valid_ipv4, Socket.inet_pton, parses_ipv4. cbn [has_inet_pton posix].
  destruct (has_nul s); [done |].
  destruct (inet_pton4 s) as [q|]; [|done].
  by rewrite bool_decide_eq_true_2 by eauto.
Qed.

Lemma is_valid_ipv6_posix s :
  is_valid_ipv6 sock s
  = if has_nul s then Raise ValueError else Ok (parses_ipv6 s).
Proof.
  unfold is_valid_ipv6, Socket.inet_pton, parses_ipv6. cbn [has_inet_pton posix].
  destruct (has_nul s); [done |].
  destruct (inet_pton6 s) as [q|]; [|done].
  by rewrite bool_decide_eq_true_2 by eauto.
Qed.

Lemma is_valid_ip_posix s :
  is_valid_ip sock s
  = if has_nul s then Raise ValueError else Ok (valid_ip s).
Proof.
  unfold is_valid_ip, valid_ip.
  rewrite is_valid_ipv4_posix, is_valid_ipv6_posix.
  destruct (has_nul s); [done |]. cbn [bind].
  by destruct (parses_ipv4 s).
Qed.

Lemma collect_ips_filter pieces : forall ip_list,
  collect_ips pieces ip_list
  = ip_list
    ++ List.filter truthy
         ((fun piece => str_lower (str_strip piece)) <$> pieces).
Proof.
  induction pieces as [|ip pieces IH]; intros ip_list; simpl.
  - by rewrite app_nil_r.
  - rewrite IH. destruct (truthy (str_lower (str_strip ip))); [|done].
    by rewrite <- app_assoc.
Qed.

Lemma chain_tokens_nul s :
  has_nul s = false ->
  Forall (fun token => has_nul token = false) (chain_tokens s).
Proof.
  intros H. unfold chain_tokens.
  apply Forall_forall. intros token Hin.
  apply list_elem_of_In, filter_In in Hin as [Hin _].
  apply list_elem_of_In, list_elem_of_fmap in Hin as (piece & -> & Hin).
  rewrite has_nul_lower, has_nul_strip.
  pose proof (has_nul_split "," s H) as Hall.
  rewrite Forall_forall in Hall. by apply Hall.
Qed.

Lemma last_elem_of {A} (l : list A) x : last l = Some x -> x ∈ l.
Proof.
  intros H. apply last_Some in H as [l' ->]. set_solver.
Qed.

Lemma head_elem_of {A} (l : list A) x : head l = Some x -> x ∈ l.
Proof. destruct l; [done |]. intros [= ->]. set_solver. Qed.

(** [get_ips_from_string] on a text without null character. *)
Lemma get_ips_from_string_posix s :
  has_nul s = false ->
  get_ips_from_string sock s = Ok (parse_chain s).
Proof.
  intros Hnul. unfold get_ips_from_string, parse_chain. cbv zeta.
  rewrite collect_ips_filter. simpl app.
  change (List.filter truthy
            ((fun piece => str_lower (str_strip piece)) <$> str_split "," s))
    with (chain_tokens s).
  pose proof (chain_tokens_nul s Hnul) as Hall. rewrite Forall_forall in Hall.
  destruct (chain_tokens s) as [|first rest] eqn:E; [done |].
  rewrite <- E in *.
  assert ((0 <? length (chain_tokens s))%nat = true) as ->
    by (by rewrite E).
  unfold first_item, last_item.
  assert (head (chain_tokens s) = Some first) as Hh by (by rewrite E).
  destruct (last (chain_tokens s)) as [final|] eqn:El.
  2: { rewrite E, last_cons in El. by destruct (last rest). }
  rewrite Hh. cbn [bind].
  rewrite is_valid_ip_posix, (Hall first) by (by apply head_elem_of).
  cbn [bind]. destruct (valid_ip first); [|done].
  rewrite is_valid_ip_posix, (Hall final) by (by apply last_elem_of).
  cbn [bind andb]. by destruct (valid_ip final).
Qed.

Lemma get_ip_info_posix s :
  get_ip_info sock defs s
  = if has_nul s then Raise ValueError
    else Ok (if valid_ip (normalize s)
             then (Some (normalize s), is_public_ip defs (normalize s))
             else (None, false)).
Proof.
  unfold get_ip_info. rewrite cleanup_ip_posix.
  destruct (has_nul s) eqn:Hnul; [done |]. cbn [bind].
  rewrite is_valid_ip_posix, (proj2 (normalize_plain s Hnul)). cbn [bind].
  by destruct (valid_ip (normalize s)).
Qed.

Lemma get_best_ip_posix last_ip next_ip :
  get_best_ip sock defs (Some last_ip) next_ip
  = if has_nul last_ip || has_nul next_ip then Raise ValueError
    else Ok (if keeps_last defs (normalize last_ip) (normalize next_ip)
             then last_ip else next_ip).
Proof.
  unfold get_best_ip, keeps_last. rewrite !cleanup_ip_posix.
  destruct (has_nul last_ip); [done |]. cbn [bind orb].
  destruct (has_nul next_ip); [done |]. cbn [bind].
  destruct (is_public_ip defs (normalize last_ip)
            && negb (is_public_ip defs (normalize next_ip))); [done |].
  by destruct (is_private_ip defs (normalize last_ip)
               && is_loopback_ip defs (normalize next_ip)).
Qed.

End PosixFacts.

(** ** The functions of [utils.py] *)

Section UtilsTheorems.

Variable aton : string -> option (list byte).
Variable defs : defaults.

Local Abbreviation sock := (posix aton).

(** On texts without null character every function returns. *)
Lemma public_functions_return s t :
  has_nul s = false -> has_nul t = false ->
  returns (cleanup_ip sock s)
  /\ returns (is_valid_ipv4 sock s)
  /\ returns (is_valid_ipv6 sock s)
  /\ returns (is_valid_ip sock s)
  /\ returns (get_ips_from_string sock s)
  /\ returns (get_ip_info sock defs s)
  /\ returns (get_best_ip sock defs None t)
  /\ returns (get_best_ip sock defs (Some s) t).
Proof.
  intros Hs Ht. unfold returns.
  rewrite cleanup_ip_posix, is_valid_ipv4_posix, is_valid_ipv6_posix,
    is_valid_ip_posix, get_ip_info_posix, get_best_ip_posix,
    get_ips_from_string_posix, Hs, Ht by done.
  simpl. repeat split; eauto.
Qed.

(** C1. The public functions are not total over all strings: on the text
    made of one null character, [cleanup_ip], the three validity tests,
    [get_ips_from_string], [get_ip_info] and [get_best_ip] raise
    [ValueError], which [socket.inet_pton] raises before parsing and which
    no handler of [utils.py] catches. On texts without null character,
    be they empty, blank or not ASCII, all of them return. *)
Theorem public_functions_raise_on_nul :
  (cleanup_ip sock nul = Raise ValueError
   /\ is_valid_ipv4 sock nul = Raise ValueError
   /\ is_valid_ipv6 sock nul = Raise ValueError
   /\ is_valid_ip sock nul = Raise ValueError
   /\ get_ips_from_string sock nul = Raise ValueError
   /\ get_ip_info sock defs nul = Raise ValueError
   /\ get_best_ip sock defs (Some nul) nul = Raise ValueError)
  /\ forall s t,
       has_nul s = true \/ has_nul t = true
       \/ (returns (cleanup_ip sock s)
           /\ returns (is_valid_ipv4 sock s)
           /\ returns (is_valid_ipv6 sock s)
           /\ returns (is_valid_ip sock s)
           /\ returns (get_ips_from_string sock s)
           /\ returns (get_ip_info sock defs s)
           /\ returns (get_best_ip sock defs None t)
           /\ returns (get_best_ip sock defs (Some s) t)).
Proof.
  split; [repeat split; reflexivity |].
  intros s t. destruct (has_nul s) eqn:Hs; [by left |].
  destruct (has_nul t) eqn:Ht; [by right; left |].
  right. right. by apply public_functions_return.
Qed.

(** C2. With a candidate held, [get_best_ip] keeps it when its normal form
    is public and that of the new one is not, or when its normal form is
    private and that of the new one is loopback, and takes the new one in
    every other case; but when either text holds a null character it
    raises [ValueError] and returns neither. *)
Theorem get_best_ip_policy :
  get_best_ip sock defs (Some "10.0.0.1") nul = Raise ValueError
  /\ forall last_ip next_ip,
       get_best_ip sock defs (Some last_ip) next_ip
       = if has_nul last_ip || has_nul next_ip then Raise ValueError
         else Ok (if (is_public_ip defs (Spec.normalize last_ip)
                      && negb (is_public_ip defs (Spec.normalize next_ip)))
                     || (is_private_ip defs (Spec.normalize last_ip)
                         && is_loopback_ip defs (Spec.normalize next_ip))
                  then last_ip else next_ip).
Proof. split; [reflexivity | apply get_best_ip_posix]. Qed.

(** C3, as amended. With no candidate held, that is [None], [get_best_ip]
    returns the new one whatever it is, on every build and with any
    tables. *)
Theorem get_best_ip_none_last (any : platform) (next_ip : string) :
  get_best_ip any defs None next_ip = Ok next_ip.
Proof. reflexivity. Qed.

(** C4. [cleanup_ip] trims the text and returns the canonical dotted quad
    if the trimmed text parses as IPv4, else the canonical IPv6 text with
    the mapped prefix stripped if it parses as IPv6, else the trimmed text;
    so [::ffff:192.168.1.1] gives [192.168.1.1]. But on a text with a null
    character it raises [ValueError] instead of returning the trimmed
    text. *)
Theorem cleanup_ip_normalizes :
  cleanup_ip sock nul = Raise ValueError
  /\ cleanup_ip sock "::ffff:192.168.1.1" = Ok "192.168.1.1"
  /\ forall s,
       cleanup_ip sock s
       = if has_nul s then Raise ValueError else Ok (Spec.normalize s).
Proof. repeat split; try reflexivity. apply cleanup_ip_posix. Qed.

(** C5. A normalised address is a fixed point of [cleanup_ip]: a text that
    [cleanup_ip] has returned, a canonical dotted quad, or a canonical IPv6
    text with the mapped prefix stripped. *)
Theorem cleanup_ip_idempotent s :
  (exists raw, cleanup_ip sock raw = Ok s)
  \/ Spec.canonical_ipv4 s \/ Spec.canonical_ipv6 s ->
  cleanup_ip sock s = Ok s.
Proof.
  assert (Hfix : forall raw, has_nul raw = false ->
            cleanup_ip sock (Spec.normalize raw) = Ok (Spec.normalize raw)).
  { intros raw Hraw. rewrite cleanup_ip_posix.
    by rewrite (proj2 (normalize_plain raw Hraw)), normalize_idem. }
  intros [[raw Hraw] | [(q & Hq & ->) | (b & Hb & ->)]].
  - rewrite cleanup_ip_posix in Hraw.
    destruct (has_nul raw) eqn:E; [done |]. injection Hraw as <-.
    by apply Hfix.
  - rewrite <- (normalize_quad q Hq). apply Hfix.
    by apply addr_text_plain, ntop4_addr_chars.
  - rewrite <- (normalize_v6 b Hb). apply Hfix.
    by apply addr_text_plain, (v6_text_chars b), ntop6_text.
Qed.

(** C6. [get_ips_from_string] splits on commas, trims and lower-cases each
    piece and drops the empty ones; it returns that list with its length
    when the list is not empty and its first and last entries are valid,
    and the empty list with 0 otherwise. But a text with a null character
    can make it raise [ValueError]. *)
Theorem get_ips_from_string_chain :
  get_ips_from_string sock nul = Raise ValueError
  /\ get_ips_from_string sock "not-an-ip, 10.0.0.1" = Ok ([], 0%nat)
  /\ get_ips_from_string sock "203.0.113.5, 10.0.0.1"
     = Ok (["203.0.113.5"; "10.0.0.1"], 2%nat)
  /\ forall s,
       has_nul s = true
       \/ get_ips_from_string sock s = Ok (Spec.parse_chain s).
Proof.
  repeat split; try reflexivity.
  intros s. destruct (has_nul s) eqn:E; [by left | right].
  by apply get_ips_from_string_posix.
Qed.

(** C8. [get_ip_info] returns the normal form with its public flag when
    the normal form is valid and [(None, False)] otherwise, as for the empty
    text and for [garbage]; but on a text with a null character it raises
    [ValueError]. *)
Theorem get_ip_info_resolves :
  get_ip_info sock defs nul = Raise ValueError
  /\ get_ip_info sock defs "" = Ok (None, false)
  /\ get_ip_info sock defs "garbage" = Ok (None, false)
  /\ forall s,
       get_ip_info sock defs s
       = if has_nul s then Raise ValueError
         else Ok (if Spec.valid_ip (Spec.normalize s)
                  then (Some (Spec.normalize s),
                        is_public_ip defs (Spec.normalize s))
                  else (None, false)).
Proof. repeat split; try reflexivity. apply get_ip_info_posix. Qed.

(** C10. What [get_best_ip] returns is one of its two arguments as it was
    passed, never a normal form; but when a candidate is held and either
    text holds a null character it raises [ValueError] and returns
    nothing. *)
Theorem get_best_ip_returns_argument :
  get_best_ip sock defs (Some " 10.0.0.1 ") nul = Raise ValueError
  /\ forall last_ip next_ip,
       get_best_ip sock defs last_ip next_ip = Ok next_ip
       \/ exists held,
            last_ip = Some held
            /\ (get_best_ip sock defs last_ip next_ip = Ok held
                \/ has_nul held || has_nul next_ip = true
                   /\ get_best_ip sock defs last_ip next_ip
                      = Raise ValueError).
Proof.
  split; [reflexivity |].
  intros [held|] next_ip; [|by left].
  rewrite get_best_ip_posix.
  destruct (has_nul held || has_nul next_ip) eqn:E.
  - right. exists held. split; [done |]. by right.
  - destruct (Spec.keeps_last defs (Spec.normalize held)
                (Spec.normalize next_ip)).
    + right. exists held. split; [done |]. by left.
    + by left.
Qed.

End UtilsTheorems.

(** C7. [is_valid_ipv4] takes only full dotted quads. On every build a
    text without null character that has not exactly three dots, such as
    [127.1], is rejected; and with [inet_pton] an accepted text is a
    canonical dotted quad. *)
Theorem is_valid_ipv4_strict (sock : platform) (s : string) :
  has_nul s = false ->
  (str_count "." s <> 3%nat -> is_valid_ipv4 sock s = Ok false)
  /\ (has_inet_pton sock = true -> is_valid_ipv4 sock s = Ok true ->
      Spec.canonical_ipv4 s).
Proof.
  intros Hnul. unfold is_valid_ipv4, Socket.inet_pton, Socket.inet_aton.
  rewrite Hnul. destruct (has_inet_pton sock).
  - destruct (Libc.inet_pton4 s) as [q|] eqn:E; [|by split].
    destruct (ntop4_pton4 _ _ E) as (Hq & Hdots & _ & Hs).
    split; [done |]. intros _ _. by exists q.
  - split; [|done]. intros Hdots.
    destruct (libc_inet_aton sock s); [|done].
    by replace (str_count "." s =? 3)%nat with false
      by (symmetry; by apply Nat.eqb_neq).
Qed.

Lemma is_valid_ipv4_strict_witness :
  has_nul "127.1" = false
  /\ is_valid_ipv4 glibc "127.1" = Ok false
  /\ is_valid_ipv4 (legacy Libc.inet_aton) "127.1" = Ok false.
Proof.
  split; [reflexivity | split].
  - apply (is_valid_ipv4_strict glibc "127.1"); [reflexivity | discriminate].
  - apply (is_valid_ipv4_strict (legacy Libc.inet_aton) "127.1");
      [reflexivity | discriminate].
Defined.

Lemma cleanup_ip_idempotent_witness :
  cleanup_ip glibc "::ffff:192.168.1.1" = Ok "192.168.1.1"
  /\ cleanup_ip glibc "192.168.1.1" = Ok "192.168.1.1".
Proof.
  split; [reflexivity |].
  apply (cleanup_ip_idempotent Libc.inet_aton "192.168.1.1").
  left. exists "::ffff:192.168.1.1". reflexivity.
Defined.

(** C3, as stated, fails: an empty text held as candidate is not taken for
    absent. It is normalised to itself and, matching no prefix, counts as
    public, so a private address does not replace it. *)
Lemma get_best_ip_empty_last_kept :
  get_best_ip glibc example_defaults (Some "") "10.0.0.1" = Ok ""
  /\ get_best_ip glibc example_defaults (Some "") "10.0.0.1"
     <> Ok "10.0.0.1".
Proof. split; [reflexivity | discriminate]. Qed.

(** C9. [get_request_meta] takes the value under the key, else the value
    under the key with every underscore replaced by a hyphen, else the
    empty text; it trims it, and returns [None] exactly when nothing is
    left, the trimmed text otherwise. *)
Theorem get_request_meta_lookup (request : http_request) (key found : string) :
  META request !! key = Some found
  \/ (META request !! key = None
      /\ META request !! Spec.hyphenate key = Some found)
  \/ (META request !! key = None
      /\ META request !! Spec.hyphenate key = None /\ found = "") ->
  (get_request_meta request key = None <-> str_strip found = "")
  /\ (get_request_meta request key = Some (str_strip found)
      <-> str_strip found <> "").
Proof.
  intros Hfound.
  assert (get_request_meta request key
          = if String.eqb (str_strip found) "" then None
            else Some (str_strip found)) as ->.
  { unfold get_request_meta, dict_get. rewrite str_replace_hyphenate.
    by destruct Hfound as [-> | [[-> ->] | (-> & -> & ->)]]. }
  destruct (String.eqb (str_strip found) "") eqn:E.
  - apply String.eqb_eq in E. by rewrite E.
  - apply String.eqb_neq in E. by repeat split.
Qed.

Lemma get_request_meta_lookup_witness :
  let request := Request {[ "HTTP-X-REAL-IP" := " 203.0.113.5 " ]} in
  (META request !! "HTTP_X_REAL_IP" = None
   /\ META request !! Spec.hyphenate "HTTP_X_REAL_IP"
      = Some " 203.0.113.5 ")
  /\ get_request_meta request "HTTP_X_REAL_IP" = Some "203.0.113.5".
Proof.
  intros request.
  assert (Hfound : META request !! "HTTP_X_REAL_IP" = None
                   /\ META request !! Spec.hyphenate "HTTP_X_REAL_IP"
                      = Some " 203.0.113.5 ")
    by (split; reflexivity).
  split; [exact Hfound |].
  apply (get_request_meta_lookup request "HTTP_X_REAL_IP" " 203.0.113.5 ").
  - right. left. exact Hfound.
  - discriminate.
Defined.

(** ** Further facts on the parsers and on [utils.py] *)

Section Further.

Import Libc Shape Spec Addr.

(** *** Lower-casing and parsing *)

Lemma lower_char_digit c : is_digit (lower_char c) = is_digit c.
Proof. by destruct c as [[] [] [] [] [] [] [] []]. Qed.

Lemma lower_char_digit_id c : is_digit c = true -> lower_char c = c.
Proof. by destruct c as [[] [] [] [] [] [] [] []]. Qed.

Lemma lower_char_dot c : Ascii.eqb (lower_char c) "." = Ascii.eqb c ".".
Proof. by destruct c as [[] [] [] [] [] [] [] []]. Qed.

Lemma lower_char_colon c : Ascii.eqb (lower_char c) ":" = Ascii.eqb c ":".
Proof. by destruct c as [[] [] [] [] [] [] [] []]. Qed.

Lemma lower_char_hex c : hex_digit_value (lower_char c) = hex_digit_value c.
Proof. by destruct c as [[] [] [] [] [] [] [] []]. Qed.

Lemma lower_char_space c : is_space (lower_char c) = is_space c.
Proof. by destruct c as [[] [] [] [] [] [] [] []]. Qed.

Lemma lower_char_idem c : lower_char (lower_char c) = lower_char c.
Proof. by destruct c as [[] [] [] [] [] [] [] []]. Qed.

Lemma lower_char_comma c : Ascii.eqb (lower_char c) "," = Ascii.eqb c ",".
Proof. by destruct c as [[] [] [] [] [] [] [] []]. Qed.

Lemma pton4_loop_lower s : forall sd oc closed cur,
  pton4_loop (str_lower s) sd oc closed cur = pton4_loop s sd oc closed cur.
Proof.
  induction s as [|c s IH]; intros sd oc closed cur; [done |].
  cbn [str_lower pton4_loop]. rewrite lower_char_digit, lower_char_dot.
  destruct (is_digit c) eqn:Hd.
  - rewrite (lower_char_digit_id c Hd), !IH. done.
  - by rewrite IH.
Qed.

Lemma pton4_lower s : inet_pton4 (str_lower s) = inet_pton4 s.
Proof. apply pton4_loop_lower. Qed.

Lemma pton6_loop_lower s : forall ct seen val tp cp,
  pton6_loop (str_lower s) (str_lower ct) seen val tp cp
  = pton6_loop s ct seen val tp cp.
Proof.
  induction s as [|c s IH]; intros ct seen val tp cp; [done |].
  cbn [str_lower pton6_loop].
  rewrite lower_char_hex, lower_char_colon, lower_char_dot, pton4_lower.
  destruct (hex_digit_value c); [by rewrite IH |].
  rewrite !IH. by destruct s.
Qed.

Lemma pton6_lower s : inet_pton6 (str_lower s) = inet_pton6 s.
Proof.
  destruct s as [|c s]; [done |]. cbn [str_lower inet_pton6].
  rewrite lower_char_colon. destruct (Ascii.eqb c ":").
  - destruct s as [|c' s]; [done |]. cbn [str_lower].
    rewrite lower_char_colon. destruct (Ascii.eqb c' ":"); [|done].
    change (String (lower_char c') (str_lower s))
      with (str_lower (String c' s)).
    apply pton6_loop_lower.
  - change (String (lower_char c) (str_lower s))
      with (str_lower (String c s)).
    apply pton6_loop_lower.
Qed.

Lemma lstrip_lower s : lstrip (str_lower s) = str_lower (lstrip s).
Proof.
  induction s as [|c s IH]; [done |]. cbn [str_lower lstrip].
  rewrite lower_char_space. by destruct (is_space c).
Qed.

Lemma rstrip_lower s : rstrip (str_lower s) = str_lower (rstrip s).
Proof.
  induction s as [|c s IH]; [done |]. cbn [str_lower rstrip].
  rewrite IH, lower_char_space. destruct (rstrip s); [|done].
  by destruct (is_space c).
Qed.

Lemma strip_lower s : str_strip (str_lower s) = str_lower (str_strip s).
Proof. unfold str_strip. by rewrite lstrip_lower, rstrip_lower. Qed.

Lemma lower_idem s : str_lower (str_lower s) = str_lower s.
Proof.
  induction s as [|c s IH]; [done |]. cbn [str_lower].
  by rewrite lower_char_idem, IH.
Qed.

(** *** What the parsers accept *)

Lemma hex_is_addr_char c d : hex_digit_value c = Some d -> is_addr_char c = true.
Proof.
  intros H. unfold is_addr_char, is_hex.
  by rewrite bool_decide_eq_true_2 by (by rewrite H).
Qed.

Lemma pton6_loop_chars src : forall pre ct seen val tp cp packed,
  ct = pre +:+ src ->
  pton6_loop src ct seen val tp cp = Some packed ->
  none_of (fun c => negb (is_addr_char c)) src = true.
Proof.
  induction src as [|ch rest IH]; intros pre ct seen val tp cp packed Hct H;
    [done |].
  cbn [pton6_loop] in H. cbn [none_of].
  destruct (hex_digit_value ch) as [d|] eqn:Hhex.
  - rewrite (hex_is_addr_char ch d Hhex). simpl.
    destruct (seen =? 4)%nat; [done |].
    destruct (65535 <? N.lor (N.shiftl val 4) d); [done |].
    apply (IH (pre +:+ String ch "") _ _ _ _ _ _) in H; [done |].
    by rewrite Hct, append_assoc.
  - destruct (Ascii.eqb ch ":") eqn:Hcolon.
    + assert (is_addr_char ch = true) as ->.
      { unfold is_addr_char, is_colon. by rewrite Hcolon, orb_true_r. }
      simpl. destruct (seen =? 0)%nat.
      * destruct cp; [done |]. by apply (IH "" _ _ _ _ _ _ eq_refl) in H.
      * destruct rest as [|c' rest']; [done |].
        destruct (16 <? length tp + 2)%nat; [done |].
        by apply (IH "" _ _ _ _ _ _ eq_refl) in H.
    + destruct (Ascii.eqb ch "." && (length tp + 4 <=? 16)%nat); [|done].
      destruct (inet_pton4 ct) as [quad|] eqn:E4; [|done].
      destruct (ntop4_pton4 _ _ E4) as (_ & _ & Hc & _).
      rewrite Hct, none_of_app in Hc. apply andb_prop in Hc as [_ Hc].
      change (none_of (fun c => negb (is_addr_char c)) (String ch rest) = true).
      revert Hc. apply none_of_weaken, quad_char_addr_char.
Qed.

(** A text that [inet_pton6] accepts is made of address characters. *)
Lemma pton6_chars s packed :
  inet_pton6 s = Some packed ->
  none_of (fun c => negb (is_addr_char c)) s = true.
Proof.
  unfold inet_pton6. destruct s as [|ch rest]; [done |].
  destruct (Ascii.eqb ch ":") eqn:Hcolon.
  - destruct rest as [|ch' rest']; [done |].
    destruct (Ascii.eqb ch' ":"); [|done]. intros H.
    apply (pton6_loop_chars _ "" _ _ _ _ _ _ eq_refl) in H.
    change (negb (negb (is_addr_char ch))
            && none_of (fun c => negb (is_addr_char c)) (String ch' rest') = true).
    rewrite H, andb_true_r.
    unfold is_addr_char, is_colon. by rewrite Hcolon, orb_true_r.
  - apply (pton6_loop_chars _ "" _ _ _ _ _ _ eq_refl).
Qed.

Lemma pton4_addr_chars s packed :
  inet_pton4 s = Some packed ->
  none_of (fun c => negb (is_addr_char c)) s = true.
Proof.
  intros H. destruct (ntop4_pton4 _ _ H) as (_ & _ & Hc & _).
  revert Hc. apply none_of_weaken, quad_char_addr_char.
Qed.

(** A dotted quad is no IPv6 text. *)
Lemma quad_not_v6 s packed : inet_pton4 s = Some packed -> inet_pton6 s = None.
Proof.
  intros H. destruct (ntop4_pton4 _ _ H) as (Hq & _ & Hc & Hs).
  rewrite <- Hs. rewrite <- Hs in Hc.
  destruct (inet_ntop4 packed) as [|c r] eqn:E; [done |].
  cbn [inet_pton6]. cbn [none_of] in Hc. apply andb_prop in Hc as [Hc _].
  destruct (Ascii.eqb c ":") eqn:Hcolon.
  { by rewrite (quad_char_not_colon c Hcolon) in Hc. }
  rewrite <- E, pton6_quad_end by (try done; simpl; lia).
  apply pton6_finish_short. simpl. by rewrite Hq.
Qed.

Lemma valid_ip_plain s :
  valid_ip s = true ->
  str_strip s = s /\ has_nul s = false /\ s <> "".
Proof.
  unfold valid_ip, parses_ipv4, parses_ipv6.
  intros [H | H]%orb_prop; apply bool_decide_eq_true in H as [packed H].
  - destruct (addr_text_plain _ (pton4_addr_chars _ _ H)).
    repeat split; try done. by intros ->.
  - destruct (addr_text_plain _ (pton6_chars _ _ H)).
    repeat split; try done. by intros ->.
Qed.

(** *** Mapped addresses *)

Lemma mapped_length q : length q = 4%nat -> length (mapped q) = 16%nat.
Proof. intros H. unfold mapped. rewrite !length_app, length_replicate. simpl. lia. Qed.

Lemma mapped_take q : take 12 (mapped q) = mapped_head.
Proof. reflexivity. Qed.

Lemma mapped_drop q : drop 12 (mapped q) = q.
Proof. reflexivity. Qed.

Lemma ntop4_no_pair q : length q = 4%nat -> no_colon_pair (inet_ntop4 q) = true.
Proof.
  intros Hq. apply none_of_colon_no_pair.
  generalize (ntop4_chars q Hq). apply none_of_weaken, quad_char_not_colon.
Qed.

(** The text of a mapped address is the prefix and the dotted quad. *)
Lemma pton6_mapped_text q :
  length q = 4%nat -> inet_pton6 ("::ffff:" +:+ inet_ntop4 q) = Some (mapped q).
Proof.
  intros Hq. apply pton6_text; [by apply mapped_length |].
  rewrite <- (mapped_drop q) at 2. by apply text_mapped.
Qed.

Lemma mapped_words a b c d :
  words_of (mapped [a; b; c; d])
  = [0; 0; 0; 0; 0; 65535;
     N.lor (N.shiftl (Byte.to_N a) 8) (Byte.to_N b);
     N.lor (N.shiftl (Byte.to_N c) 8) (Byte.to_N d)].
Proof. reflexivity. Qed.

Lemma mapped_best_run w6 w7 :
  best_run [0; 0; 0; 0; 0; 65535; w6; w7] = Some (Run 0 5).
Proof.
  unfold best_run. cbn [scan_runs N.eqb extend longer base len].
  destruct (w6 =? 0), (w7 =? 0); reflexivity.
Qed.

Lemma ntop6_mapped q :
  length q = 4%nat -> inet_ntop6 (mapped q) = "::ffff:" +:+ inet_ntop4 q.
Proof.
  intros Hq. destruct q as [|a [|b [|c [|d [|? ?]]]]]; try done.
  unfold inet_ntop6. cbv zeta. rewrite mapped_words, mapped_best_run.
  cbn [ntop6_loop in_run starts_run base len Nat.leb Nat.ltb Nat.eqb Nat.add
       andb orb encapsulated_v4 trailing_colon].
  rewrite mapped_drop.
  change (bool_decide _) with true. cbn [andb orb].
  change (fmt_x 65535) with "ffff". by str_norm.
Qed.

(** *** Validity and the normal form *)

Lemma parses_ipv4_lower s : parses_ipv4 (str_lower s) = parses_ipv4 s.
Proof. unfold parses_ipv4. by rewrite pton4_lower. Qed.

Lemma parses_ipv6_lower s : parses_ipv6 (str_lower s) = parses_ipv6 s.
Proof. unfold parses_ipv6. by rewrite pton6_lower. Qed.

Lemma valid_ip_lower s : valid_ip (str_lower s) = valid_ip s.
Proof. unfold valid_ip. by rewrite parses_ipv4_lower, parses_ipv6_lower. Qed.

Lemma parses_ipv4_Some s : parses_ipv4 s = true -> exists q, inet_pton4 s = Some q.
Proof. intros H. by apply bool_decide_eq_true in H as [q H]; exists q. Qed.

Lemma parses_ipv6_Some s : parses_ipv6 s = true -> exists b, inet_pton6 s = Some b.
Proof. intros H. by apply bool_decide_eq_true in H as [b H]; exists b. Qed.

Lemma parses_ipv4_of s q : inet_pton4 s = Some q -> parses_ipv4 s = true.
Proof. intros H. apply bool_decide_eq_true. by exists q. Qed.

Lemma parses_ipv6_of s b : inet_pton6 s = Some b -> parses_ipv6 s = true.
Proof. intros H. apply bool_decide_eq_true. by exists b. Qed.

Lemma parses_ipv4_not_ipv6 s : parses_ipv4 s = true -> parses_ipv6 s = false.
Proof.
  intros [q H]%parses_ipv4_Some. unfold parses_ipv6.
  by rewrite (quad_not_v6 _ _ H).
Qed.

(** A valid text is its own normal form when it is IPv4. *)
Lemma normalize_valid_ipv4 s : parses_ipv4 s = true -> normalize s = s.
Proof.
  intros H. pose proof H as [q Hq]%parses_ipv4_Some.
  destruct (addr_text_plain _ (pton4_addr_chars _ _ Hq)) as [Hs _].
  unfold normalize. cbv zeta. rewrite Hs, Hq.
  by destruct (ntop4_pton4 _ _ Hq) as (_ & _ & _ & ?).
Qed.

Lemma hex_or_colon_not_dot c :
  Ascii.eqb c "." = true -> negb (is_hex c || is_colon c) = true.
Proof. by destruct c as [[] [] [] [] [] [] [] []]. Qed.

Lemma hex_then_colon c : negb (is_hex c || is_colon c) = true -> negb (is_hex c) = true.
Proof. by destruct (is_hex c). Qed.

Lemma colon_groups_hex ws :
  Forall (fun w => w < 65536) ws ->
  none_of (fun c => negb (is_hex c || is_colon c)) (colon_groups ws) = true.
Proof.
  induction 1 as [|w ws Hw _ IH]; [done |].
  cbn [colon_groups]. rewrite !none_of_app, IH, andb_true_r.
  apply andb_true_intro. split; [done |].
  generalize (fmt_x_chars w Hw). apply none_of_weaken, hex_then_colon.
Qed.

Lemma groups_hex ws :
  Forall (fun w => w < 65536) ws ->
  none_of (fun c => negb (is_hex c || is_colon c)) (groups ws) = true.
Proof.
  destruct 1 as [|w ws Hw Hws]; [done |].
  cbn [groups]. rewrite none_of_app, colon_groups_hex, andb_true_r by done.
  generalize (fmt_x_chars w Hw). apply none_of_weaken, hex_then_colon.
Qed.

Lemma str_count_none_of c s :
  none_of (fun x => Ascii.eqb x c) s = true -> str_count c s = 0%nat.
Proof.
  induction s as [|x s IH]; [done |]. simpl.
  destruct (Ascii.eqb x c); [done |]. by intros ?; apply IH.
Qed.

Lemma groups_not_quad ws :
  Forall (fun w => w < 65536) ws -> inet_pton4 (groups ws) = None.
Proof.
  intros Hws. destruct (inet_pton4 (groups ws)) as [q|] eqn:E4; [|done].
  destruct (ntop4_pton4 _ _ E4) as (_ & Hdots & _).
  rewrite str_count_none_of in Hdots; [done |].
  generalize (groups_hex ws Hws). apply none_of_weaken, hex_or_colon_not_dot.
Qed.

(** Some groups, five at most, with single colons between them are no
    address. *)
Lemma groups_invalid ws :
  ws <> [] -> (length ws <= 5)%nat -> Forall (fun w => w < 65536) ws ->
  valid_ip (groups ws) = false.
Proof.
  intros Hne Hlen Hws. unfold valid_ip, parses_ipv4, parses_ipv6.
  rewrite groups_not_quad by done.
  rewrite bool_decide_eq_false_2 by (by intros [? ?]). cbn [orb].
  rewrite bool_decide_eq_false_2; [done |].
  intros [b Hb].
  destruct ws as [|w ws]; [done |]. pose proof Hws as [Hw _]%Forall_cons.
  revert Hb. unfold groups at 1. rewrite inet_pton6_group_first by done.
  change (fmt_x w +:+ colon_groups ws) with (groups (w :: ws)).
  rewrite pton6_groups_end by (try done; simpl in *; lia).
  rewrite pton6_finish_short; [done |].
  simpl app. rewrite words_bytes_length. simpl in *. lia.
Qed.

Lemma has_nul_of_v6 s b : inet_pton6 (str_strip s) = Some b -> has_nul s = false.
Proof.
  intros H. rewrite <- has_nul_strip.
  by apply addr_text_plain, (pton6_chars _ b).
Qed.

Lemma has_nul_of_v4 s q : inet_pton4 (str_strip s) = Some q -> has_nul s = false.
Proof.
  intros H. rewrite <- has_nul_strip.
  by apply addr_text_plain, (pton4_addr_chars _ q).
Qed.

Lemma v6_not_quad s b : inet_pton6 s = Some b -> inet_pton4 s = None.
Proof.
  intros H. destruct (inet_pton4 s) as [q|] eqn:E; [|done].
  by rewrite (quad_not_v6 _ _ E) in H.
Qed.

Lemma normalize_of_v6 s b :
  inet_pton6 (str_strip s) = Some b ->
  normalize s = unwrap_mapped (inet_ntop6 b).
Proof.
  intros H. unfold normalize. cbv zeta. by rewrite (v6_not_quad _ _ H), H.
Qed.

Lemma unwrap_mapped_quad q :
  length q = 4%nat -> unwrap_mapped ("::ffff:" +:+ inet_ntop4 q) = inet_ntop4 q.
Proof.
  intros Hq. unfold unwrap_mapped.
  by destruct (replace_mapped_prefix _ (ntop4_no_pair q Hq)) as (_ & -> & ->).
Qed.

Lemma mapped_of_head b :
  length b = 16%nat -> take 12 b = mapped_head -> b = mapped (drop 12 b).
Proof.
  intros Hb Hh. rewrite <- (take_drop 12 b) at 1. rewrite Hh.
  unfold mapped, mapped_head. by rewrite <- app_assoc.
Qed.

(** What normalisation makes of a text that parses as IPv6: the dotted
    quad of a mapped address; something that is no address, when the text
    of the address opens with the mapped prefix for another reason; the
    text of the address otherwise. *)
Lemma normalize_v6_cases s b :
  inet_pton6 (str_strip s) = Some b ->
  (take 12 b = mapped_head /\ normalize s = inet_ntop4 (drop 12 b))
  \/ (take 12 b <> mapped_head
      /\ String.prefix "::ffff:" (inet_ntop6 b) = true
      /\ normalize s <> ""
      /\ valid_ip (normalize s) = false)
  \/ (String.prefix "::ffff:" (inet_ntop6 b) = false
      /\ normalize s = inet_ntop6 b).
Proof.
  intros H. rewrite (normalize_of_v6 _ _ H).
  pose proof (pton6_length _ _ H) as Hb.
  pose proof (ntop6_text b Hb) as Ht.
  destruct (String.prefix "::ffff:" (inet_ntop6 b)) eqn:Hpre.
  2: { right. right. split; [done |]. unfold unwrap_mapped. by rewrite Hpre. }
  destruct (mapped_text b _ Hb Ht Hpre)
    as (R & HR & [(q & Hq & ->) | (S1 & Hne & Hlen & HS1 & ->)]).
  - left. pose proof (pton6_ntop6 b Hb) as Hrt.
    rewrite HR, pton6_mapped_text in Hrt by done. injection Hrt as <-.
    rewrite mapped_take, mapped_drop. split; [done |].
    by rewrite ntop6_mapped, unwrap_mapped_quad.
  - right. left. split.
    + intros Hh. pose proof (mapped_of_head b Hb Hh) as Hm.
      assert (length (drop 12 b) = 4%nat) as Hq
        by (rewrite length_drop; lia).
      rewrite Hm, ntop6_mapped in HR by done.
      cbn [String.append] in HR. injection HR as HR.
      pose proof (pton4_ntop4 _ Hq) as H4.
      by rewrite HR, groups_not_quad in H4.
    + split; [done |]. rewrite HR. unfold unwrap_mapped.
      destruct (replace_mapped_prefix _ (groups_no_pair S1 HS1))
        as (_ & -> & ->).
      split; [|by apply groups_invalid].
      destruct S1 as [|w S1]; [done |].
      pose proof HS1 as [Hw _]%Forall_cons.
      cbn [groups]. destruct (fmt_x_head w Hw) as (c & r & -> & _). done.
Qed.

Lemma ntop6_valid b : length b = 16%nat -> valid_ip (inet_ntop6 b) = true.
Proof.
  intros Hb. unfold valid_ip.
  by rewrite (parses_ipv6_of _ b (pton6_ntop6 b Hb)), orb_true_r.
Qed.

Lemma ntop4_valid q : length q = 4%nat -> valid_ip (inet_ntop4 q) = true.
Proof.
  intros Hq. unfold valid_ip.
  by rewrite (parses_ipv4_of _ q (pton4_ntop4 q Hq)).
Qed.

(** Only a text that is valid once trimmed has a valid normal form. *)
Lemma normalize_valid_strip s :
  valid_ip (normalize s) = true -> valid_ip (str_strip s) = true.
Proof.
  unfold normalize. cbv zeta.
  destruct (inet_pton4 (str_strip s)) as [q|] eqn:E4.
  { intros _. unfold valid_ip. by rewrite (parses_ipv4_of _ _ E4). }
  destruct (inet_pton6 (str_strip s)) as [b|] eqn:E6; [|done].
  intros _. unfold valid_ip. by rewrite (parses_ipv6_of _ _ E6), orb_true_r.
Qed.

(** The normal form is empty only for a blank text. *)
Lemma normalize_empty s : normalize s = "" <-> str_strip s = "".
Proof.
  split.
  - intros Hn. destruct (inet_pton4 (str_strip s)) as [q|] eqn:E4.
    { pose proof (parses_ipv4_of _ _ E4) as Hv.
      unfold normalize in Hn. cbv zeta in Hn. rewrite E4 in Hn.
      destruct (ntop4_pton4 _ _ E4) as (_ & _ & _ & Hs). congruence. }
    destruct (inet_pton6 (str_strip s)) as [b|] eqn:E6.
    2: { unfold normalize in Hn. cbv zeta in Hn. by rewrite E4, E6 in Hn. }
    pose proof (pton6_length _ _ E6) as Hb.
    destruct (normalize_v6_cases s b E6)
      as [[_ Hq] | [(_ & _ & Hne & _) | [_ Hq]]]; [| done |].
    + rewrite Hn in Hq.
      assert (length (drop 12 b) = 4%nat) as Hl by (rewrite length_drop; lia).
      pose proof (ntop4_valid _ Hl) as Hv. by rewrite <- Hq in Hv.
    + rewrite Hn in Hq. pose proof (ntop6_valid b Hb) as Hv.
      by rewrite <- Hq in Hv.
  - intros Hs. unfold normalize. cbv zeta. by rewrite Hs.
Qed.

(** Case does not matter to the normal form of a valid text. *)
Lemma normalize_lower s :
  valid_ip (str_strip s) = true -> normalize (str_lower s) = normalize s.
Proof.
  intros Hv. unfold normalize. cbv zeta.
  rewrite strip_lower, pton4_lower, pton6_lower.
  destruct (inet_pton4 (str_strip s)) as [q|] eqn:E4; [done |].
  destruct (inet_pton6 (str_strip s)) as [b|] eqn:E6; [done |].
  unfold valid_ip, parses_ipv4, parses_ipv6 in Hv. rewrite E4, E6 in Hv.
  rewrite !bool_decide_eq_false_2 in Hv by (by intros [? ?]). done.
Qed.

Lemma prefixed_text s b :
  inet_pton6 (str_strip s) = Some b ->
  String.prefix "::ffff:" (inet_ntop6 b) = true ->
  inet_ntop6 b = "::ffff:" +:+ normalize s.
Proof.
  intros H Hpre. rewrite (normalize_of_v6 _ _ H).
  pose proof (pton6_length _ _ H) as Hb.
  destruct (mapped_text b _ Hb (ntop6_text b Hb) Hpre) as (R & HR & Hshape).
  assert (no_colon_pair R = true) as HRp.
  { destruct Hshape as [(q & Hq & ->) | (S1 & _ & _ & HS1 & ->)].
    - by apply ntop4_no_pair.
    - by apply groups_no_pair. }
  rewrite HR. unfold unwrap_mapped.
  by destruct (replace_mapped_prefix R HRp) as (_ & -> & ->).
Qed.

Lemma ntop6_inj b1 b2 :
  length b1 = 16%nat -> length b2 = 16%nat ->
  inet_ntop6 b1 = inet_ntop6 b2 -> b1 = b2.
Proof.
  intros H1 H2 H. pose proof (pton6_ntop6 b1 H1) as E1.
  rewrite H, pton6_ntop6 in E1 by done. by injection E1.
Qed.

Lemma ntop4_inj q1 q2 :
  length q1 = 4%nat -> length q2 = 4%nat ->
  inet_ntop4 q1 = inet_ntop4 q2 -> q1 = q2.
Proof.
  intros H1 H2 H. pose proof (pton4_ntop4 q1 H1) as E1.
  rewrite H, pton4_ntop4 in E1 by done. by injection E1.
Qed.

Lemma mapped_has_prefix b :
  length b = 16%nat -> take 12 b = mapped_head ->
  String.prefix "::ffff:" (inet_ntop6 b) = true.
Proof.
  intros Hb Hh. assert (length (drop 12 b) = 4%nat) as Hq
    by (rewrite length_drop; lia).
  rewrite (mapped_of_head b Hb Hh), ntop6_mapped by done.
  by destruct (replace_mapped_prefix _ (ntop4_no_pair _ Hq)) as (_ & _ & ->).
Qed.

Lemma normalize_v6_inj s1 s2 b1 b2 :
  inet_pton6 (str_strip s1) = Some b1 ->
  inet_pton6 (str_strip s2) = Some b2 ->
  normalize s1 = normalize s2 -> b1 = b2.
Proof.
  intros E1 E2 Hn.
  pose proof (pton6_length _ _ E1) as H1.
  pose proof (pton6_length _ _ E2) as H2.
  assert (Hq : forall b : list byte, length b = 16%nat -> length (drop 12 b) = 4%nat)
    by (intros b Hb; rewrite length_drop; lia).
  destruct (String.prefix "::ffff:" (inet_ntop6 b1)) eqn:P1,
           (String.prefix "::ffff:" (inet_ntop6 b2)) eqn:P2.
  - apply ntop6_inj; try done.
    by rewrite (prefixed_text _ _ E1 P1), (prefixed_text _ _ E2 P2), Hn.
  - exfalso.
    destruct (normalize_v6_cases _ _ E2)
      as [[Hh _] | [(_ & ? & _) | [_ N2]]]; [| congruence |].
    { by rewrite (mapped_has_prefix _ H2 Hh) in P2. }
    pose proof (ntop6_text b2 H2) as T2.
    destruct (normalize_v6_cases _ _ E1)
      as [[_ N1] | [(_ & _ & _ & V1) | [? _]]]; [| | congruence].
    + pose proof (pton4_ntop4 _ (Hq b1 H1)) as H4.
      by rewrite <- N1, Hn, N2, (v6_text_not_quad b2 _ H2 T2) in H4.
    + by rewrite Hn, N2, ntop6_valid in V1.
  - exfalso.
    destruct (normalize_v6_cases _ _ E1)
      as [[Hh _] | [(_ & ? & _) | [_ N1]]]; [| congruence |].
    { by rewrite (mapped_has_prefix _ H1 Hh) in P1. }
    pose proof (ntop6_text b1 H1) as T1.
    destruct (normalize_v6_cases _ _ E2)
      as [[_ N2] | [(_ & _ & _ & V2) | [? _]]]; [| | congruence].
    + pose proof (pton4_ntop4 _ (Hq b2 H2)) as H4.
      by rewrite <- N2, <- Hn, N1, (v6_text_not_quad b1 _ H1 T1) in H4.
    + by rewrite <- Hn, N1, ntop6_valid in V2.
  - apply ntop6_inj; try done.
    destruct (normalize_v6_cases _ _ E1)
      as [[Hh _] | [(_ & ? & _) | [_ N1]]]; [| congruence |].
    { by rewrite (mapped_has_prefix _ H1 Hh) in P1. }
    destruct (normalize_v6_cases _ _ E2)
      as [[Hh _] | [(_ & ? & _) | [_ N2]]]; [| congruence |].
    { by rewrite (mapped_has_prefix _ H2 Hh) in P2. }
    congruence.
Qed.

Lemma normalize_of_v4 s q :
  inet_pton4 (str_strip s) = Some q -> normalize s = inet_ntop4 q.
Proof. intros H. unfold normalize. cbv zeta. by rewrite H. Qed.

Lemma normalize_mapped s q :
  inet_pton6 (str_strip s) = Some (mapped q) -> normalize s = inet_ntop4 q.
Proof.
  intros H. pose proof (pton6_length _ _ H) as Hb.
  assert (length q = 4%nat) as Hq.
  { unfold mapped in Hb. rewrite !length_app, length_replicate in Hb.
    simpl in Hb. lia. }
  by rewrite (normalize_of_v6 _ _ H), ntop6_mapped, unwrap_mapped_quad.
Qed.

Lemma normalize_v4_v6 s1 s2 q b :
  inet_pton4 (str_strip s1) = Some q ->
  inet_pton6 (str_strip s2) = Some b ->
  normalize s1 = normalize s2 <-> b = mapped q.
Proof.
  intros E1 E2.
  destruct (ntop4_pton4 _ _ E1) as (Hq & _).
  pose proof (pton6_length _ _ E2) as Hb.
  rewrite (normalize_of_v4 _ _ E1). split.
  - intros Hn.
    destruct (normalize_v6_cases _ _ E2)
      as [[Hh N2] | [(_ & _ & _ & V2) | [_ N2]]].
    + rewrite N2 in Hn. apply ntop4_inj in Hn;
        [| done | rewrite length_drop; lia].
      rewrite Hn. by apply mapped_of_head.
    + by rewrite <- Hn, ntop4_valid in V2.
    + pose proof (pton4_ntop4 q Hq) as H4.
      by rewrite Hn, N2, (v6_text_not_quad b _ Hb (ntop6_text b Hb)) in H4.
  - intros ->. by rewrite (normalize_mapped _ _ E2).
Qed.

(** ** More on [utils.py] with [inet_pton] *)

Section PosixTheorems.

Variable aton : string -> option (list byte).
Variable defs : defaults.

Local Abbreviation sock := (posix aton).

Lemma is_valid_ip_true s :
  is_valid_ip sock s = Ok true <-> has_nul s = false /\ valid_ip s = true.
Proof.
  rewrite is_valid_ip_posix. destruct (has_nul s); [by split; [|intros []] |].
  split; [by intros [= ->] | by intros [_ ->]].
Qed.

Lemma is_valid_ipv4_true s :
  is_valid_ipv4 sock s = Ok true <-> has_nul s = false /\ parses_ipv4 s = true.
Proof.
  rewrite is_valid_ipv4_posix. destruct (has_nul s); [by split; [|intros []] |].
  split; [by intros [= ->] | by intros [_ ->]].
Qed.

Lemma is_valid_ipv6_true s :
  is_valid_ipv6 sock s = Ok true <-> has_nul s = false /\ parses_ipv6 s = true.
Proof.
  rewrite is_valid_ipv6_posix. destruct (has_nul s); [by split; [|intros []] |].
  split; [by intros [= ->] | by intros [_ ->]].
Qed.

Lemma cleanup_ip_ok s r :
  cleanup_ip sock s = Ok r <-> has_nul s = false /\ r = normalize s.
Proof.
  rewrite cleanup_ip_posix. destruct (has_nul s); [by split; [|intros []] |].
  split; [by intros [= ->] | by intros [_ ->]].
Qed.

(** X1. Blanks around the text matter neither to [cleanup_ip] nor to
    [get_ip_info], on any build: the text is trimmed before anything else
    is done with it. *)
Theorem cleanup_ip_ignores_blanks (any : platform) (s : string) :
  cleanup_ip any (str_strip s) = cleanup_ip any s
  /\ get_ip_info any defs (str_strip s) = get_ip_info any defs s.
Proof.
  assert (cleanup_ip any (str_strip s) = cleanup_ip any s) as H
    by (unfold cleanup_ip; by rewrite strip_idem).
  split; [done |]. unfold get_ip_info. by rewrite H.
Qed.

(** X2. What [cleanup_ip] returns is trimmed and has no null character,
    and it is empty only when the text was blank. *)
Theorem cleanup_ip_result_trimmed (s r : string) :
  cleanup_ip sock s = Ok r ->
  str_strip r = r /\ has_nul r = false /\ (r = "" <-> str_strip s = "").
Proof.
  intros [Hnul ->]%cleanup_ip_ok.
  destruct (normalize_plain s Hnul) as [Hs Hn].
  repeat split; try done; by apply normalize_empty.
Qed.

(** X3. A valid IPv4 text is returned by [cleanup_ip] as it is. *)
Theorem valid_ipv4_unchanged (s : string) :
  is_valid_ipv4 sock s = Ok true -> cleanup_ip sock s = Ok s.
Proof.
  intros [Hnul Hv]%is_valid_ipv4_true. apply cleanup_ip_ok.
  by rewrite normalize_valid_ipv4.
Qed.

(** X4. No text is valid in both families: one that is valid IPv4 is not
    valid IPv6, and the other way round. *)
Theorem families_disjoint (s : string) :
  (is_valid_ipv4 sock s = Ok true -> is_valid_ipv6 sock s = Ok false)
  /\ (is_valid_ipv6 sock s = Ok true -> is_valid_ipv4 sock s = Ok false).
Proof.
  rewrite is_valid_ipv4_posix, is_valid_ipv6_posix.
  destruct (has_nul s); [done |].
  destruct (parses_ipv4 s) eqn:H4; [|done].
  by rewrite (parses_ipv4_not_ipv6 s H4).
Qed.

(** X5. A valid text is made of hexadecimal digits, colons and dots: it is
    not empty and holds no blank, so that it is trimmed, and no comma. *)
Theorem valid_ip_characters (s : string) :
  is_valid_ip sock s = Ok true ->
  none_of (fun c => negb (is_addr_char c)) s = true
  /\ s <> "" /\ str_strip s = s /\ none_of is_comma s = true.
Proof.
  intros [_ Hv]%is_valid_ip_true.
  assert (none_of (fun c => negb (is_addr_char c)) s = true) as Hc.
  { unfold valid_ip in Hv.
    apply orb_prop in Hv as [[q H]%parses_ipv4_Some | [b H]%parses_ipv6_Some].
    - by apply (pton4_addr_chars _ q).
    - by apply (pton6_chars _ b). }
  destruct (valid_ip_plain s Hv) as (Hs & _ & Hne).
  repeat split; try done.
  revert Hc. apply none_of_weaken.
  intros c. by destruct c as [[] [] [] [] [] [] [] []].
Qed.

(** X6. Validity does not depend on the case of the letters. *)
Theorem validity_ignores_case (s : string) :
  is_valid_ipv4 sock (str_lower s) = is_valid_ipv4 sock s
  /\ is_valid_ipv6 sock (str_lower s) = is_valid_ipv6 sock s
  /\ is_valid_ip sock (str_lower s) = is_valid_ip sock s.
Proof.
  rewrite !is_valid_ipv4_posix, !is_valid_ipv6_posix, !is_valid_ip_posix.
  by rewrite has_nul_lower, parses_ipv4_lower, parses_ipv6_lower,
    valid_ip_lower.
Qed.

(** X7. Nor does the result of [cleanup_ip], for a text that is valid once
    trimmed. *)
Theorem cleanup_ip_ignores_case (s : string) :
  is_valid_ip sock (str_strip s) = Ok true ->
  cleanup_ip sock (str_lower s) = cleanup_ip sock s.
Proof.
  intros [_ Hv]%is_valid_ip_true.
  by rewrite !cleanup_ip_posix, has_nul_lower, normalize_lower.
Qed.

(** X8. An IPv4-mapped IPv6 address, however it is written, is turned into
    the dotted quad of its last four bytes, which is a valid IPv4 text. *)
Theorem cleanup_ip_unwraps_mapped (s : string) (q : list byte) :
  inet_pton6 (str_strip s) = Some (mapped q) ->
  cleanup_ip sock s = Ok (inet_ntop4 q)
  /\ is_valid_ipv4 sock (inet_ntop4 q) = Ok true.
Proof.
  intros H. pose proof (pton6_length _ _ H) as Hb.
  assert (length q = 4%nat) as Hq.
  { unfold mapped in Hb. rewrite !length_app, length_replicate in Hb.
    simpl in Hb. lia. }
  split.
  - apply cleanup_ip_ok. split; [by apply (has_nul_of_v6 _ _ H) |].
    by rewrite (normalize_mapped _ _ H).
  - apply is_valid_ipv4_true. split.
    + by apply addr_text_plain, ntop4_addr_chars.
    + by apply (parses_ipv4_of _ q), pton4_ntop4.
Qed.

(** X9. An IPv6 address that is not IPv4-mapped but whose text opens with
    the mapped prefix, as [::ffff:1:2:3] does, loses the prefix all the
    same; what is left is no address, and [get_ip_info] reports none
    although the text is valid. *)
Theorem get_ip_info_drops_prefixed (s : string) (b : list byte) :
  inet_pton6 (str_strip s) = Some b ->
  String.prefix "::ffff:" (inet_ntop6 b) = true ->
  take 12 b <> mapped_head ->
  is_valid_ip sock (str_strip s) = Ok true
  /\ (exists r, cleanup_ip sock s = Ok r /\ is_valid_ip sock r = Ok false)
  /\ get_ip_info sock defs s = Ok (None, false).
Proof.
  intros H Hpre Hh. pose proof (has_nul_of_v6 _ _ H) as Hnul.
  destruct (normalize_v6_cases _ _ H)
    as [[? _] | [(_ & _ & _ & Hv) | [? _]]]; [done | | congruence].
  split; [|split].
  - apply is_valid_ip_true. rewrite has_nul_strip. split; [done |].
    unfold valid_ip. by rewrite (parses_ipv6_of _ _ H), orb_true_r.
  - exists (normalize s). split; [by apply cleanup_ip_ok |].
    by rewrite is_valid_ip_posix, (proj2 (normalize_plain s Hnul)), Hv.
  - by rewrite get_ip_info_posix, Hnul, Hv.
Qed.


(** X11. An address is reported only for a text that is valid once
    trimmed, and asking again about the reported address gives the same
    answer. *)
Theorem get_ip_info_stable (s clean_ip : string) (routable : bool) :
  get_ip_info sock defs s = Ok (Some clean_ip, routable) ->
  is_valid_ip sock (str_strip s) = Ok true
  /\ get_ip_info sock defs clean_ip = Ok (Some clean_ip, routable).
Proof.
  rewrite !get_ip_info_posix. destruct (has_nul s) eqn:Hnul; [done |].
  destruct (valid_ip (normalize s)) eqn:Hv; [|done].
  intros [= <- <-]. split.
  - apply is_valid_ip_true. rewrite has_nul_strip. split; [done |].
    by apply normalize_valid_strip.
  - by rewrite (proj2 (normalize_plain s Hnul)), normalize_idem, Hv.
Qed.

(** X12. On IPv6 texts [cleanup_ip] tells addresses apart: two texts with
    the same result are texts of the same address. *)
Theorem cleanup_ip_ipv6_injective (s1 s2 : string) (b1 b2 : list byte) :
  inet_pton6 (str_strip s1) = Some b1 ->
  inet_pton6 (str_strip s2) = Some b2 ->
  cleanup_ip sock s1 = cleanup_ip sock s2 -> b1 = b2.
Proof.
  intros E1 E2. rewrite !cleanup_ip_posix.
  rewrite (has_nul_of_v6 _ _ E1), (has_nul_of_v6 _ _ E2).
  intros [= Hn]. by apply (normalize_v6_inj s1 s2).
Qed.

(** X13. An IPv4 text and an IPv6 text have the same result exactly when
    the IPv6 address is the IPv4-mapped form of the IPv4 address. *)
Theorem cleanup_ip_joins_mapped (s1 s2 : string) (q b : list byte) :
  inet_pton4 (str_strip s1) = Some q ->
  inet_pton6 (str_strip s2) = Some b ->
  cleanup_ip sock s1 = cleanup_ip sock s2 <-> b = mapped q.
Proof.
  intros E1 E2. rewrite !cleanup_ip_posix.
  rewrite (has_nul_of_v4 _ _ E1), (has_nul_of_v6 _ _ E2).
  rewrite <- (normalize_v4_v6 s1 s2 q b E1 E2).
  split; [by intros [= ->] | by intros ->].
Qed.

(** X14. A text that is a valid IPv4 address once trimmed is reported by
    [get_ip_info] as the trimmed text. *)
Theorem get_ip_info_ipv4 (s : string) :
  is_valid_ipv4 sock (str_strip s) = Ok true ->
  get_ip_info sock defs s
  = Ok (Some (str_strip s), is_public_ip defs (str_strip s)).
Proof.
  intros [Hnul Hv]%is_valid_ipv4_true. rewrite has_nul_strip in Hnul.
  rewrite get_ip_info_posix, Hnul.
  assert (normalize s = str_strip s) as ->.
  { rewrite <- (normalize_valid_ipv4 _ Hv).
    unfold normalize. cbv zeta. by rewrite strip_idem. }
  unfold valid_ip. by rewrite Hv.
Qed.

(** X15. A text that is a valid IPv6 address once trimmed, and whose
    canonical text does not open with the mapped prefix, is reported as
    that canonical text. *)
Theorem get_ip_info_ipv6 (s : string) (b : list byte) :
  inet_pton6 (str_strip s) = Some b ->
  String.prefix "::ffff:" (inet_ntop6 b) = false ->
  get_ip_info sock defs s
  = Ok (Some (inet_ntop6 b), is_public_ip defs (inet_ntop6 b)).
Proof.
  intros H Hpre. rewrite get_ip_info_posix, (has_nul_of_v6 _ _ H).
  rewrite (normalize_of_v6 _ _ H). unfold unwrap_mapped. rewrite Hpre.
  by rewrite (ntop6_valid b (pton6_length _ _ H)).
Qed.

End PosixTheorems.

(** *** Pieces of a chain *)

Lemma split_no_sep sep s :
  Forall (fun piece => none_of (fun c => Ascii.eqb c sep) piece = true)
    (str_split sep s).
Proof.
  induction s as [|c s IH]; cbn [str_split]; [by repeat constructor |].
  destruct (Ascii.eqb c sep) eqn:E; [by constructor |].
  destruct (str_split sep s) as [|h t].
  { repeat constructor. cbn [none_of]. by rewrite E. }
  apply Forall_cons in IH as [Hh Ht]. constructor; [|done].
  cbn [none_of]. by rewrite E, Hh.
Qed.

Lemma split_none_of p sep s :
  none_of p s = true ->
  Forall (fun piece => none_of p piece = true) (str_split sep s).
Proof.
  induction s as [|c s IH]; cbn [str_split none_of]; [by repeat constructor |].
  intros [Hc Hs]%andb_prop. specialize (IH Hs).
  destruct (Ascii.eqb c sep); [by constructor |].
  destruct (str_split sep s) as [|h t].
  { repeat constructor. cbn [none_of]. by rewrite Hc. }
  apply Forall_cons in IH as [Hh Ht]. constructor; [|done].
  cbn [none_of]. by rewrite Hc, Hh.
Qed.

(** A text without the separator is one piece. *)
Lemma split_single sep s :
  none_of (fun c => Ascii.eqb c sep) s = true -> str_split sep s = [s].
Proof.
  induction s as [|c s IH]; cbn [str_split none_of]; [done |].
  intros [Hc Hs]%andb_prop. apply negb_true_iff in Hc.
  by rewrite Hc, (IH Hs).
Qed.

Lemma lstrip_sub p s : none_of p s = true -> none_of p (lstrip s) = true.
Proof.
  induction s as [|c s IH]; cbn [lstrip none_of]; [done |].
  intros [Hc Hs]%andb_prop. destruct (is_space c); [by apply IH |].
  cbn [none_of]. by rewrite Hc, Hs.
Qed.

Lemma rstrip_sub p s : none_of p s = true -> none_of p (rstrip s) = true.
Proof.
  induction s as [|c s IH]; cbn [rstrip none_of]; [done |].
  intros [Hc Hs]%andb_prop. specialize (IH Hs).
  destruct (rstrip s) as [|d r].
  - destruct (is_space c); [done |]. cbn [none_of]. by rewrite Hc.
  - cbn [none_of] in *. by rewrite Hc, IH.
Qed.

(** Trimming only takes characters away. *)
Lemma strip_sub p s : none_of p s = true -> none_of p (str_strip s) = true.
Proof. intros H. by apply rstrip_sub, lstrip_sub. Qed.

Lemma lstrip_blank s :
  none_of (fun c => negb (is_space c)) s = true -> lstrip s = "".
Proof.
  induction s as [|c s IH]; cbn [lstrip none_of]; [done |].
  intros [Hc Hs]%andb_prop. rewrite negb_involutive in Hc.
  rewrite Hc. by apply IH.
Qed.

(** A blank text is trimmed to nothing. *)
Lemma strip_blank s :
  none_of (fun c => negb (is_space c)) s = true -> str_strip s = "".
Proof. intros H. unfold str_strip. by rewrite lstrip_blank. Qed.

Lemma lstrip_super p s :
  (forall c, is_space c = true -> p c = false) ->
  none_of p (lstrip s) = true -> none_of p s = true.
Proof.
  intros Hp. induction s as [|c s IH]; cbn [lstrip none_of]; [done |].
  destruct (is_space c) eqn:E; [|done].
  intros H. by rewrite (Hp c E), (IH H).
Qed.

Lemma rstrip_super p s :
  (forall c, is_space c = true -> p c = false) ->
  none_of p (rstrip s) = true -> none_of p s = true.
Proof.
  intros Hp. induction s as [|c s IH]; cbn [rstrip none_of]; [done |].
  destruct (rstrip s) as [|d r].
  - destruct (is_space c) eqn:E.
    + intros _. by rewrite (Hp c E), IH.
    + cbn [none_of]. intros [-> _]%andb_prop. by rewrite IH.
  - cbn [none_of]. intros [-> H]%andb_prop. by rewrite IH.
Qed.

(** Trimming takes away nothing but whitespace. *)
Lemma strip_super p s :
  (forall c, is_space c = true -> p c = false) ->
  none_of p (str_strip s) = true -> none_of p s = true.
Proof. intros Hp H. by apply (lstrip_super p), (rstrip_super p). Qed.

Lemma lower_no_comma s :
  none_of is_comma (str_lower s) = none_of is_comma s.
Proof.
  induction s as [|c s IH]; [done |]. cbn [str_lower none_of].
  unfold is_comma at 1 3. by rewrite lower_char_comma, IH.
Qed.

Lemma lower_truthy s : truthy (str_lower s) = truthy s.
Proof. by destruct s. Qed.

Lemma space_not_comma c : is_space c = true -> is_comma c = false.
Proof. by destruct c as [[] [] [] [] [] [] [] []]. Qed.

Lemma blank_piece piece :
  none_of (fun c => negb (is_blank_or_comma c)) piece = true ->
  none_of (fun c => Ascii.eqb c ",") piece = true ->
  none_of (fun c => negb (is_space c)) piece = true.
Proof.
  induction piece as [|c piece IH]; cbn [none_of]; [done |].
  intros [Hb Hp]%andb_prop [Hc Hq]%andb_prop. rewrite (IH Hp Hq), andb_true_r.
  unfold is_blank_or_comma, is_comma in Hb.
  apply negb_true_iff in Hc. rewrite Hc, orb_false_r in Hb. done.
Qed.

(** What the loop of [get_ips_from_string] keeps: trimmed, lower-case,
    non-empty pieces without comma. *)
Lemma chain_tokens_shape s :
  Forall (fun token => token <> "" /\ str_strip token = token
                       /\ str_lower token = token
                       /\ none_of is_comma token = true)
    (chain_tokens s).
Proof.
  unfold chain_tokens. apply Forall_forall. intros token Hin.
  apply list_elem_of_In, filter_In in Hin as [Hin Hne].
  apply list_elem_of_In, list_elem_of_fmap in Hin as (piece & -> & Hin).
  pose proof (split_no_sep "," s) as Hall.
  rewrite Forall_forall in Hall. specialize (Hall piece Hin).
  repeat split.
  - intros E. by rewrite E in Hne.
  - by rewrite strip_lower, strip_idem.
  - by rewrite lower_idem.
  - rewrite lower_no_comma. by apply strip_sub.
Qed.

Lemma chain_tokens_blank s :
  none_of (fun c => negb (is_blank_or_comma c)) s = true ->
  chain_tokens s = [].
Proof.
  intros H. unfold chain_tokens.
  pose proof (split_none_of _ "," s H) as Hall.
  pose proof (split_no_sep "," s) as Hsep.
  induction (str_split "," s) as [|piece pieces IH]; [done |].
  apply Forall_cons in Hall as [Hp Hall].
  apply Forall_cons in Hsep as [Hq Hsep].
  cbn [fmap list_fmap List.filter].
  rewrite strip_blank by (by apply blank_piece). by apply IH.
Qed.

Lemma chain_tokens_single s :
  none_of is_comma s = true -> str_strip s <> "" ->
  chain_tokens s = [str_lower (str_strip s)].
Proof.
  intros Hc Hne. unfold chain_tokens. rewrite split_single by done.
  cbn [fmap list_fmap List.filter]. rewrite lower_truthy.
  by destruct (str_strip s).
Qed.

Section ChainTheorems.

Variable aton : string -> option (list byte).
Variable defs : defaults.

Local Abbreviation sock := (posix aton).

(** X16. On any build, what [get_ips_from_string] returns is a list with
    its length; every entry is non-empty, trimmed, in lower case and
    without comma; and when there are entries the first and the last one
    are valid. *)
Theorem get_ips_from_string_entries (any : platform) (s : string)
    (ip_list : list string) (ip_count : nat) :
  get_ips_from_string any s = Ok (ip_list, ip_count) ->
  ip_count = length ip_list
  /\ Forall (fun ip => ip <> "" /\ str_strip ip = ip /\ str_lower ip = ip
                       /\ none_of is_comma ip = true) ip_list
  /\ (ip_list <> [] ->
      exists first final,
        head ip_list = Some first /\ last ip_list = Some final
        /\ is_valid_ip any first = Ok true
        /\ is_valid_ip any final = Ok true).
Proof.
  unfold get_ips_from_string. cbv zeta. rewrite collect_ips_filter.
  simpl app.
  change (List.filter truthy
            ((fun piece => str_lower (str_strip piece)) <$> str_split "," s))
    with (chain_tokens s).
  pose proof (chain_tokens_shape s) as Hshape.
  assert (Hnone : @Ok (list string * nat) ([], 0%nat) = Ok (ip_list, ip_count) ->
    ip_count = length ip_list
    /\ Forall (fun ip => ip <> "" /\ str_strip ip = ip /\ str_lower ip = ip
                         /\ none_of is_comma ip = true) ip_list
    /\ (ip_list <> [] ->
        exists first final,
          head ip_list = Some first /\ last ip_list = Some final
          /\ is_valid_ip any first = Ok true
          /\ is_valid_ip any final = Ok true)).
  { by intros [= <- <-]. }
  destruct (0 <? length (chain_tokens s))%nat; cbn [bind]; [|done].
  unfold first_item, last_item.
  destruct (head (chain_tokens s)) as [first|] eqn:Hh; cbn [bind]; [|done].
  destruct (is_valid_ip any first) as [[]|e] eqn:Hv1; cbn [bind];
    [| done | done].
  destruct (last (chain_tokens s)) as [final|] eqn:Hl; cbn [bind]; [|done].
  destruct (is_valid_ip any final) as [[]|e] eqn:Hv2; cbn [bind];
    [| done | done].
  intros [= <- <-]. repeat split; try done.
  intros _. by exists first, final.
Qed.

(** X17. On any build a text of nothing but blanks and commas gives the
    empty list and 0, no validity test being made. *)
Theorem get_ips_from_string_blank (any : platform) (s : string) :
  none_of (fun c => negb (is_blank_or_comma c)) s = true ->
  get_ips_from_string any s = Ok ([], 0%nat).
Proof.
  intros H. unfold get_ips_from_string. cbv zeta. rewrite collect_ips_filter.
  simpl app.
  change (List.filter truthy
            ((fun piece => str_lower (str_strip piece)) <$> str_split "," s))
    with (chain_tokens s).
  by rewrite chain_tokens_blank.
Qed.

(** X18. A text that is one valid address once trimmed gives the list of
    that address in lower case, and [get_ip_info] says of the entry what
    it says of the text. *)
Theorem get_ips_from_string_single (s : string) :
  is_valid_ip sock (str_strip s) = Ok true ->
  get_ips_from_string sock s = Ok ([str_lower (str_strip s)], 1%nat)
  /\ get_ip_info sock defs (str_lower (str_strip s))
     = get_ip_info sock defs s.
Proof.
  intros Hv. pose proof Hv as [Hnul Hvalid]%is_valid_ip_true.
  rewrite has_nul_strip in Hnul.
  destruct (valid_ip_plain _ Hvalid) as (_ & _ & Hne).
  assert (none_of is_comma s = true) as Hc.
  { apply (strip_super _ _ space_not_comma).
    assert (none_of (fun c => negb (is_addr_char c)) (str_strip s) = true)
      as Hchars.
    { unfold valid_ip in Hvalid.
      apply orb_prop in Hvalid
        as [[q H]%parses_ipv4_Some | [b H]%parses_ipv6_Some].
      - by apply (pton4_addr_chars _ q).
      - by apply (pton6_chars _ b). }
    revert Hchars. apply none_of_weaken.
    intros c. by destruct c as [[] [] [] [] [] [] [] []]. }
  split.
  - rewrite get_ips_from_string_posix by done. unfold parse_chain.
    rewrite chain_tokens_single by done. cbn [head last length].
    by rewrite valid_ip_lower, Hvalid.
  - rewrite !get_ip_info_posix, has_nul_lower, !has_nul_strip.
    assert (normalize (str_lower (str_strip s)) = normalize s) as ->; [|done].
    rewrite normalize_lower by (by rewrite strip_idem).
    unfold normalize. cbv zeta. by rewrite strip_idem.
Qed.

End ChainTheorems.

(** *** The prefix tables *)

Lemma prefix_extends p s t :
  String.prefix p s = true -> String.prefix p (s +:+ t) = true.
Proof.
  revert s. induction p as [|a p IH]; intros s; [by destruct (s +:+ t) |].
  destruct s as [|b s]; [done |]. cbn [String.append].
  rewrite !prefix_cons. destruct (ascii_dec a b); [apply IH | done].
Qed.

Lemma startswith_extends s t prefixes :
  str_startswith s prefixes = true -> str_startswith (s +:+ t) prefixes = true.
Proof.
  unfold str_startswith. rewrite !existsb_exists.
  intros (p & Hin & Hp). exists p. split; [done |]. by apply prefix_extends.
Qed.

Lemma startswith_subseteq s (small large : list string) :
  small ⊆ large ->
  str_startswith s small = true -> str_startswith s large = true.
Proof.
  intros Hsub. unfold str_startswith. rewrite !existsb_exists.
  intros (p & Hin & Hp). exists p. split; [|done].
  apply list_elem_of_In, Hsub. by apply list_elem_of_In.
Qed.

(** *** [inet_aton] on a canonical dotted quad *)

Lemma aton_step_dot more a r parts :
  (length parts <= 2)%nat ->
  aton_loop (S more) (fmt_u (Byte.to_N a) +:+ String "." r) parts
  = aton_loop more r (parts ++ [Byte.to_N a]).
Proof.
  intros Hlen. destruct parts as [|p1 [|p2 [|p3 parts]]];
    [| | | simpl in Hlen; lia]; by destruct a.
Qed.

Lemma aton_step_end more a p1 p2 p3 :
  aton_loop (S more) (fmt_u (Byte.to_N a)) [p1; p2; p3]
  = Some [u8 p1; u8 p2; u8 p3; a].
Proof. by destruct a. Qed.

Lemma aton_ntop4 q : length q = 4%nat -> inet_aton (inet_ntop4 q) = Some q.
Proof.
  intros Hq. destruct q as [|a [|b [|c [|d [|? ?]]]]]; try done.
  unfold inet_aton, inet_ntop4.
  cbn [String.append].
  rewrite aton_step_dot by (simpl; lia).
  rewrite aton_step_dot by (simpl; lia).
  rewrite aton_step_dot by (simpl; lia).
  cbn [app]. rewrite aton_step_end. by rewrite !u8_of_to_N.
Qed.

Lemma aton_bytes_length parts val :
  (length parts <= 3)%nat -> length (aton_bytes parts val) = 4%nat.
Proof.
  intros H. destruct parts as [|p1 [|p2 [|p3 [|p4 parts]]]];
    [done | done | done | done | simpl in H; lia].
Qed.

Lemma aton_loop_length more : forall cp parts q,
  (length parts <= 3)%nat ->
  aton_loop more cp parts = Some q -> length q = 4%nat.
Proof.
  induction more as [|more IH]; intros cp parts q Hlen; [done |].
  cbn [aton_loop]. destruct cp as [|c cp']; [done |].
  destruct (is_digit c); [|done].
  destruct (strtoul0 (String c cp')) as [val endp].
  destruct (4294967295 <? val); [done |].
  destruct endp as [|c' after].
  - destruct (aton_max (length parts) <? val); [done |].
    intros [= <-]. by apply aton_bytes_length.
  - destruct (Ascii.eqb c' ".").
    + destruct (2 <? length parts)%nat eqn:E; [done |].
      apply Nat.ltb_ge in E. cbn [orb].
      destruct (255 <? val); [done |].
      apply IH. rewrite length_app. simpl. lia.
    + destruct (negb (c_isspace c')); [done |].
      destruct (aton_max (length parts) <? val); [done |].
      intros [= <-]. by apply aton_bytes_length.
Qed.

(** What [inet_aton] returns has four bytes. *)
Lemma aton_length s q : inet_aton s = Some q -> length q = 4%nat.
Proof. apply aton_loop_length. simpl. lia. Qed.

Lemma ntop4_truthy q : length q = 4%nat -> truthy (inet_ntop4 q) = true.
Proof.
  intros Hq. pose proof (pton4_ntop4 q Hq) as H.
  by destruct (inet_ntop4 q).
Qed.

Lemma ntop4_dots q : length q = 4%nat -> str_count "." (inet_ntop4 q) = 3%nat.
Proof.
  intros Hq. by destruct (ntop4_pton4 _ _ (pton4_ntop4 q Hq)) as (_ & ? & _).
Qed.

Lemma ntop4_no_nul q : length q = 4%nat -> has_nul (inet_ntop4 q) = false.
Proof. intros Hq. by apply addr_text_plain, ntop4_addr_chars. Qed.

(** ** [utils.py] on a build without [inet_pton] *)

Section LegacyFacts.

Variable aton : string -> option (list byte).

Local Abbreviation old := (legacy aton).

Lemma cleanup_ip_old s :
  cleanup_ip old s
  = if has_nul s then Raise ValueError
    else match aton (str_strip s) with
         | Some q =>
             if (length q =? 4)%nat then Ok (inet_ntop4 q)
             else Raise SocketError
         | None => Raise SocketError
         end.
Proof.
  unfold cleanup_ip, cleanup_v4, Socket.inet_pton, Socket.inet_aton,
    Socket.inet_ntoa.
  cbn [has_inet_pton libc_inet_aton legacy bind]. cbv zeta.
  rewrite has_nul_strip. destruct (has_nul s); [done |].
  destruct (aton (str_strip s)) as [q|]; [|done]. cbn [bind].
  destruct (length q =? 4)%nat eqn:E; [|done].
  apply Nat.eqb_eq in E. cbn [bind falsy or_else].
  by rewrite (ntop4_truthy q E).
Qed.

Lemma is_valid_ipv4_old s :
  is_valid_ipv4 old s
  = if has_nul s then Raise ValueError
    else match aton s with
         | Some _ => Ok (str_count "." s =? 3)%nat
         | None => Ok false
         end.
Proof.
  unfold is_valid_ipv4, Socket.inet_pton, Socket.inet_aton.
  cbn [has_inet_pton libc_inet_aton legacy].
  destruct (has_nul s); [done |]. by destruct (aton s).
Qed.

End LegacyFacts.

Section LegacyTheorems.

Variable aton : string -> option (list byte).
Variable defs : defaults.

Local Abbreviation old := (legacy aton).

(** X19. Without [inet_pton], [cleanup_ip] returns nothing but the dotted
    quad of what [inet_aton] reads in the trimmed text; for a text that
    [inet_aton] rejects, an IPv6 address among others, the error leaves the
    handler it arises in and [cleanup_ip] raises [socket.error]. *)
Theorem cleanup_ip_legacy (s : string) :
  cleanup_ip old s
  = if has_nul s then Raise ValueError
    else match aton (str_strip s) with
         | Some q =>
             if (length q =? 4)%nat then Ok (inet_ntop4 q)
             else Raise SocketError
         | None => Raise SocketError
         end.
Proof. apply cleanup_ip_old. Qed.

(** X20. Without [inet_pton], [is_valid_ipv6] raises [AttributeError] on
    every text, so that [is_valid_ip] never answers no: it says yes, for an
    IPv4 text, or raises, and so do [get_ips_from_string] on a text with a
    piece in it and [get_ip_info] answering with an address or not at
    all. *)
Theorem is_valid_ip_legacy (s : string) :
  is_valid_ipv6 old s = Raise AttributeError
  /\ is_valid_ip old s <> Ok false
  /\ (get_ips_from_string old s = Ok ([], 0%nat) -> chain_tokens s = [])
  /\ (forall r, get_ip_info old defs s <> Ok (None, r)).
Proof.
  assert (Hv : forall t, is_valid_ip old t <> Ok false).
  { intros t. unfold is_valid_ip.
    destruct (is_valid_ipv4 old t) as [[]|e]; by cbn [bind]. }
  split; [done |]. split; [apply Hv |]. split.
  - unfold get_ips_from_string. cbv zeta. rewrite collect_ips_filter.
    simpl app.
    change (List.filter truthy
              ((fun piece => str_lower (str_strip piece)) <$> str_split "," s))
      with (chain_tokens s).
    destruct (chain_tokens s) as [|first rest] eqn:E; [done |].
    cbn [length Nat.ltb Nat.leb first_item head bind].
    destruct (is_valid_ip old first) as [[]|e] eqn:H1; cbn [bind];
      [| by destruct (Hv first) | done].
    destruct (last_item (first :: rest)) as [final|e]; cbn [bind]; [|done].
    destruct (is_valid_ip old final) as [[]|e] eqn:H2; cbn [bind];
      [done | by destruct (Hv final) | done].
  - intros r. unfold get_ip_info.
    destruct (cleanup_ip old s) as [clean_ip|e]; cbn [bind]; [|done].
    destruct (is_valid_ip old clean_ip) as [[]|e] eqn:H1; cbn [bind];
      [done | by destruct (Hv clean_ip) | done].
Qed.

End LegacyTheorems.

Section BuildTheorems.

Variable aton : string -> option (list byte).
Variable defs : defaults.

(** X21. The two builds agree on IPv4: a text that is valid with
    [inet_pton] is valid without it, the C library's [inet_aton] reading
    the same address, and [cleanup_ip] returns the text on both. *)
Theorem builds_agree_on_ipv4 (s : string) :
  is_valid_ipv4 (posix aton) s = Ok true ->
  is_valid_ipv4 (legacy Libc.inet_aton) s = Ok true
  /\ cleanup_ip (legacy Libc.inet_aton) s = Ok s
  /\ cleanup_ip (posix aton) s = Ok s.
Proof.
  intros [Hnul [q Hq]%parses_ipv4_Some]%is_valid_ipv4_true.
  destruct (ntop4_pton4 _ _ Hq) as (Hlen & Hdots & _ & Hs).
  destruct (addr_text_plain _ (pton4_addr_chars _ _ Hq)) as [Hst _].
  pose proof (aton_ntop4 q Hlen) as Ha. rewrite Hs in Ha.
  split; [|split].
  - by rewrite is_valid_ipv4_old, Hnul, Ha, Hdots.
  - by rewrite cleanup_ip_old, Hnul, Hst, Ha, Hlen, Hs.
  - apply cleanup_ip_ok. split; [done |].
    by rewrite normalize_valid_ipv4 by (by apply (parses_ipv4_of _ q)).
Qed.

(** X22. Without [inet_pton] and with the C library's [inet_aton],
    [get_ip_info] reports the address [inet_aton] reads in the trimmed
    text, shorthand included, and raises when there is none. *)
Theorem get_ip_info_legacy (s : string) :
  get_ip_info (legacy Libc.inet_aton) defs s
  = if has_nul s then Raise ValueError
    else match Libc.inet_aton (str_strip s) with
         | Some q =>
             Ok (Some (inet_ntop4 q), is_public_ip defs (inet_ntop4 q))
         | None => Raise SocketError
         end.
Proof.
  unfold get_ip_info. rewrite cleanup_ip_old.
  destruct (has_nul s); [done |].
  destruct (inet_aton (str_strip s)) as [q|] eqn:E; [|done].
  pose proof (aton_length _ _ E) as Hq. rewrite Hq. cbn [Nat.eqb bind].
  unfold is_valid_ip. rewrite is_valid_ipv4_old.
  by rewrite (ntop4_no_nul q Hq), (aton_ntop4 q Hq), (ntop4_dots q Hq).
Qed.

(** X23. [get_best_ip] follows the order of precedence public, private,
    loopback when every loopback prefix is among the non-public ones: on
    any build, with both candidates normalised, the held one is kept when
    the new one ranks lower, and also when both are loopback; the new one
    is taken otherwise. *)
Theorem get_best_ip_precedence (any : platform)
    (last_ip next_ip clean_last clean_next : string) :
  IPWARE_LOOPBACK_PREFIX defs ⊆ IPWARE_NON_PUBLIC_IP_PREFIX defs ->
  cleanup_ip any last_ip = Ok clean_last ->
  cleanup_ip any next_ip = Ok clean_next ->
  get_best_ip any defs (Some last_ip) next_ip
  = Ok (if (precedence defs clean_next <? precedence defs clean_last)%nat
           || (is_loopback_ip defs clean_last
               && is_loopback_ip defs clean_next)
        then last_ip else next_ip).
Proof.
  intros Hsub Hl Hn. unfold get_best_ip. rewrite Hl, Hn. cbn [bind].
  assert (Hloop : forall t, is_loopback_ip defs t = true ->
                            is_private_ip defs t = true)
    by (intros t; apply startswith_subseteq, Hsub).
  unfold precedence, is_public_ip.
  destruct (is_private_ip defs clean_last) eqn:Pl,
           (is_private_ip defs clean_next) eqn:Pn,
           (is_loopback_ip defs clean_last) eqn:Ll,
           (is_loopback_ip defs clean_next) eqn:Ln;
    try done;
    try (by rewrite (Hloop _ Ll) in Pl);
    try (by rewrite (Hloop _ Ln) in Pn).
Qed.

(** X24. The classes are read off the text alone: a text that starts like
    a non-public or a loopback one is classed as such whatever follows, be
    it an address or not. *)
Theorem classes_by_prefix (s t : string) :
  (is_private_ip defs s = true -> is_private_ip defs (s +:+ t) = true)
  /\ (is_private_ip defs s = true -> is_public_ip defs (s +:+ t) = false)
  /\ (is_loopback_ip defs s = true -> is_loopback_ip defs (s +:+ t) = true).
Proof.
  unfold is_public_ip, is_private_ip, is_loopback_ip.
  repeat split; intros H; rewrite ?negb_false_iff;
    by apply startswith_extends.
Qed.

(** X25. What [get_request_meta] returns is the trimmed value of the key or
    of the key with hyphens for underscores, never the empty text. *)
Theorem get_request_meta_value (request : http_request) (key value : string) :
  get_request_meta request key = Some value ->
  value <> "" /\ str_strip value = value
  /\ exists raw,
       (META request !! key = Some raw
        \/ (META request !! key = None
            /\ META request !! str_replace "_" "-" key = Some raw))
       /\ value = str_strip raw.
Proof.
  unfold get_request_meta, dict_get. cbv zeta.
  destruct (META request !! key) as [raw|] eqn:Ek.
  - destruct (String.eqb (str_strip raw) "") eqn:E; [done |].
    apply String.eqb_neq in E. intros [= <-].
    split; [done |]. split; [apply strip_idem |]. exists raw. by split; [left |].
  - destruct (META request !! str_replace "_" "-" key) as [raw|] eqn:Eh.
    + destruct (String.eqb (str_strip raw) "") eqn:E; [done |].
      apply String.eqb_neq in E. intros [= <-].
      split; [done |]. split; [apply strip_idem |]. exists raw.
      by split; [right |].
    + done.
Qed.

End BuildTheorems.

(** *** The theorems at work *)

Lemma cleanup_ip_result_trimmed_witness :
  cleanup_ip glibc "  203.0.113.5 " = Ok "203.0.113.5"
  /\ str_strip "203.0.113.5" = "203.0.113.5"
  /\ has_nul "203.0.113.5" = false.
Proof.
  split; [reflexivity |].
  split; apply (cleanup_ip_result_trimmed Libc.inet_aton "  203.0.113.5 ");
    reflexivity.
Defined.

Lemma valid_ipv4_unchanged_witness :
  is_valid_ipv4 glibc "203.0.113.5" = Ok true
  /\ cleanup_ip glibc "203.0.113.5" = Ok "203.0.113.5".
Proof.
  split; [reflexivity |].
  apply (valid_ipv4_unchanged Libc.inet_aton "203.0.113.5"). reflexivity.
Defined.

Lemma families_disjoint_witness :
  is_valid_ipv4 glibc "203.0.113.5" = Ok true
  /\ is_valid_ipv6 glibc "203.0.113.5" = Ok false
  /\ is_valid_ipv6 glibc "2001:db8::1" = Ok true
  /\ is_valid_ipv4 glibc "2001:db8::1" = Ok false.
Proof.
  split; [reflexivity | split].
  - apply (families_disjoint Libc.inet_aton "203.0.113.5"). reflexivity.
  - split; [reflexivity |].
    apply (families_disjoint Libc.inet_aton "2001:db8::1"). reflexivity.
Defined.

Lemma valid_ip_characters_witness :
  is_valid_ip glibc "2001:db8::1" = Ok true
  /\ str_strip "2001:db8::1" = "2001:db8::1"
  /\ none_of is_comma "2001:db8::1" = true.
Proof.
  split; [reflexivity |].
  split; apply (valid_ip_characters Libc.inet_aton "2001:db8::1"); reflexivity.
Defined.

Lemma cleanup_ip_ignores_case_witness :
  is_valid_ip glibc (str_strip " 2001:DB8::1 ") = Ok true
  /\ cleanup_ip glibc (str_lower " 2001:DB8::1 ")
     = cleanup_ip glibc " 2001:DB8::1 ".
Proof.
  split; [reflexivity |].
  apply (cleanup_ip_ignores_case Libc.inet_aton " 2001:DB8::1 "). reflexivity.
Defined.

Lemma cleanup_ip_unwraps_mapped_witness :
  inet_pton6 (str_strip "0:0:0:0:0:FFFF:C0A8:101")
  = Some (mapped [xc0; xa8; x01; x01])
  /\ cleanup_ip glibc "0:0:0:0:0:FFFF:C0A8:101"
     = Ok (inet_ntop4 [xc0; xa8; x01; x01])
  /\ inet_ntop4 [xc0; xa8; x01; x01] = "192.168.1.1".
Proof.
  split; [reflexivity |]. split; [|reflexivity].
  apply (cleanup_ip_unwraps_mapped Libc.inet_aton "0:0:0:0:0:FFFF:C0A8:101").
  reflexivity.
Defined.

Lemma get_ip_info_drops_prefixed_witness :
  let b := [x00; x00; x00; x00; x00; x00; x00; x00;
            xff; xff; x00; x01; x00; x02; x00; x03] in
  inet_pton6 (str_strip "0:0:0:0:ffff:1:2:3") = Some b
  /\ String.prefix "::ffff:" (inet_ntop6 b) = true
  /\ take 12 b <> mapped_head
  /\ get_ip_info glibc example_defaults "0:0:0:0:ffff:1:2:3"
     = Ok (None, false).
Proof.
  intros b.
  split; [reflexivity |]. split; [reflexivity |]. split; [discriminate |].
  apply (get_ip_info_drops_prefixed Libc.inet_aton example_defaults
           "0:0:0:0:ffff:1:2:3" b); [reflexivity | reflexivity | discriminate].
Defined.


Lemma get_ip_info_stable_witness :
  get_ip_info glibc example_defaults " 2001:DB8::1 "
  = Ok (Some "2001:db8::1", true)
  /\ get_ip_info glibc example_defaults "2001:db8::1"
     = Ok (Some "2001:db8::1", true).
Proof.
  split; [reflexivity |].
  apply (get_ip_info_stable Libc.inet_aton example_defaults " 2001:DB8::1 ").
  reflexivity.
Defined.

Lemma cleanup_ip_ipv6_injective_witness :
  let b := [x20; x01; x0d; xb8; x00; x00; x00; x00;
            x00; x00; x00; x00; x00; x00; x00; x01] in
  inet_pton6 (str_strip "2001:DB8::1") = Some b
  /\ inet_pton6 (str_strip "2001:db8:0:0:0:0:0:1") = Some b
  /\ cleanup_ip glibc "2001:DB8::1" = cleanup_ip glibc "2001:db8:0:0:0:0:0:1"
  /\ b = b.
Proof.
  intros b.
  split; [reflexivity |]. split; [reflexivity |]. split; [reflexivity |].
  apply (cleanup_ip_ipv6_injective Libc.inet_aton "2001:DB8::1"
           "2001:db8:0:0:0:0:0:1" b b); reflexivity.
Defined.

Lemma cleanup_ip_joins_mapped_witness :
  let q := [xc0; xa8; x01; x01] in
  inet_pton4 (str_strip "192.168.1.1") = Some q
  /\ inet_pton6 (str_strip "::FFFF:C0A8:101") = Some (mapped q)
  /\ cleanup_ip glibc "192.168.1.1" = cleanup_ip glibc "::FFFF:C0A8:101".
Proof.
  intros q. split; [reflexivity |]. split; [reflexivity |].
  apply (cleanup_ip_joins_mapped Libc.inet_aton "192.168.1.1" "::FFFF:C0A8:101"
           q (mapped q)); reflexivity.
Defined.

Lemma get_ips_from_string_entries_witness :
  let ip_list := ["fe80::1"; "10.0.0.1"] in
  get_ips_from_string glibc " FE80::1 ,, 10.0.0.1," = Ok (ip_list, 2%nat)
  /\ 2%nat = length ip_list
  /\ Forall (fun ip => ip <> "" /\ str_strip ip = ip /\ str_lower ip = ip
                        /\ none_of is_comma ip = true) ip_list.
Proof.
  intros ip_list. split; [reflexivity |].
  pose proof (get_ips_from_string_entries glibc " FE80::1 ,, 10.0.0.1,"
                ip_list 2%nat eq_refl) as (Hcount & Hall & _).
  exact (conj Hcount Hall).
Defined.

Lemma get_ips_from_string_blank_witness :
  none_of (fun c => negb (is_blank_or_comma c)) " , ," = true
  /\ get_ips_from_string (legacy Libc.inet_aton) " , ," = Ok ([], 0%nat).
Proof.
  split; [reflexivity |].
  apply (get_ips_from_string_blank (legacy Libc.inet_aton) " , ,"). reflexivity.
Defined.

Lemma get_ips_from_string_single_witness :
  is_valid_ip glibc (str_strip " 2001:DB8::1 ") = Ok true
  /\ get_ips_from_string glibc " 2001:DB8::1 "
     = Ok ([str_lower (str_strip " 2001:DB8::1 ")], 1%nat).
Proof.
  split; [reflexivity |].
  apply (get_ips_from_string_single Libc.inet_aton example_defaults
           " 2001:DB8::1 ").
  reflexivity.
Defined.

Lemma is_valid_ip_legacy_witness :
  get_ips_from_string (legacy Libc.inet_aton) " , ," = Ok ([], 0%nat)
  /\ chain_tokens " , ," = []
  /\ is_valid_ipv6 (legacy Libc.inet_aton) "::1" = Raise AttributeError.
Proof.
  split; [reflexivity |]. split.
  - apply (is_valid_ip_legacy Libc.inet_aton example_defaults " , ,"). reflexivity.
  - apply (is_valid_ip_legacy Libc.inet_aton example_defaults "::1").
Defined.

Lemma builds_agree_on_ipv4_witness :
  is_valid_ipv4 glibc "203.0.113.5" = Ok true
  /\ is_valid_ipv4 (legacy Libc.inet_aton) "203.0.113.5" = Ok true
  /\ cleanup_ip (legacy Libc.inet_aton) "203.0.113.5" = Ok "203.0.113.5".
Proof.
  split; [reflexivity |].
  split; apply (builds_agree_on_ipv4 Libc.inet_aton "203.0.113.5"); reflexivity.
Defined.

Lemma example_defaults_nested :
  IPWARE_LOOPBACK_PREFIX example_defaults
  ⊆ IPWARE_NON_PUBLIC_IP_PREFIX example_defaults.
Proof.
  intros p Hp%list_elem_of_In. apply list_elem_of_In.
  simpl in *. tauto.
Qed.

Lemma get_best_ip_precedence_witness :
  IPWARE_LOOPBACK_PREFIX example_defaults
  ⊆ IPWARE_NON_PUBLIC_IP_PREFIX example_defaults
  /\ cleanup_ip glibc " 10.0.0.1" = Ok "10.0.0.1"
  /\ cleanup_ip glibc "127.0.0.1" = Ok "127.0.0.1"
  /\ get_best_ip glibc example_defaults (Some " 10.0.0.1") "127.0.0.1"
     = Ok (if (precedence example_defaults "127.0.0.1"
               <? precedence example_defaults "10.0.0.1")%nat
              || (is_loopback_ip example_defaults "10.0.0.1"
                  && is_loopback_ip example_defaults "127.0.0.1")
           then " 10.0.0.1" else "127.0.0.1").
Proof.
  split; [exact example_defaults_nested |].
  split; [reflexivity |]. split; [reflexivity |].
  apply (get_best_ip_precedence example_defaults glibc " 10.0.0.1"
           "127.0.0.1" "10.0.0.1" "127.0.0.1");
    [exact example_defaults_nested | reflexivity | reflexivity].
Defined.

Lemma classes_by_prefix_witness :
  is_private_ip example_defaults "10." = true
  /\ is_private_ip example_defaults ("10." +:+ "0.0.1, unknown") = true
  /\ is_public_ip example_defaults ("10." +:+ "0.0.1, unknown") = false.
Proof.
  split; [reflexivity |].
  split; apply (classes_by_prefix example_defaults "10." "0.0.1, unknown");
    reflexivity.
Defined.

Lemma get_request_meta_value_witness :
  let request := Request {[ "REMOTE_ADDR" := " 203.0.113.5 " ]} in
  get_request_meta request "REMOTE_ADDR" = Some "203.0.113.5"
  /\ "203.0.113.5" <> ""
  /\ str_strip "203.0.113.5" = "203.0.113.5".
Proof.
  intros request. split; [reflexivity |].
  split; apply (get_request_meta_value request "REMOTE_ADDR" "203.0.113.5");
    reflexivity.
Defined.

Lemma get_ip_info_ipv4_witness :
  is_valid_ipv4 glibc (str_strip " 203.0.113.5 ") = Ok true
  /\ get_ip_info glibc example_defaults " 203.0.113.5 "
     = Ok (Some (str_strip " 203.0.113.5 "),
           is_public_ip example_defaults (str_strip " 203.0.113.5 ")).
Proof.
  split; [reflexivity |].
  apply (get_ip_info_ipv4 Libc.inet_aton example_defaults " 203.0.113.5 ").
  reflexivity.
Defined.

Lemma get_ip_info_ipv6_witness :
  let b := [x20; x01; x0d; xb8; x00; x00; x00; x00;
            x00; x00; x00; x00; x00; x00; x00; x01] in
  inet_pton6 (str_strip "2001:DB8:0:0:0:0:0:1") = Some b
  /\ String.prefix "::ffff:" (inet_ntop6 b) = false
  /\ get_ip_info glibc example_defaults "2001:DB8:0:0:0:0:0:1"
     = Ok (Some (inet_ntop6 b), is_public_ip example_defaults (inet_ntop6 b)).
Proof.
  intros b. split; [reflexivity |]. split; [reflexivity |].
  apply (get_ip_info_ipv6 Libc.inet_aton example_defaults
           "2001:DB8:0:0:0:0:0:1" b); reflexivity.
Defined.

End Further.

(** ** Worked examples *)

Section Examples.

Import Libc.

(** [inet_pton] takes neither shorthand nor leading zeros nor blanks;
    [inet_aton] takes shorthand, other radixes and trailing text. *)
Example pton4_vectors :
  inet_ntop4 <$> inet_pton4 "203.0.113.5" = Some "203.0.113.5"
  /\ inet_pton4 "127.1" = None
  /\ inet_pton4 "01.2.3.4" = None
  /\ inet_pton4 "1.2.3.4 " = None
  /\ inet_pton4 "256.1.1.1" = None
  /\ inet_pton4 "1.2.3.4.5" = None.
Proof. by vm_compute. Qed.

Example aton_vectors :
  inet_ntop4 <$> inet_aton "127.1" = Some "127.0.0.1"
  /\ inet_ntop4 <$> inet_aton "0x7f.1" = Some "127.0.0.1"
  /\ inet_ntop4 <$> inet_aton "017.0.0.1" = Some "15.0.0.1"
  /\ inet_ntop4 <$> inet_aton "1.2.3" = Some "1.2.0.3"
  /\ inet_ntop4 <$> inet_aton "1.2.3.4 x" = Some "1.2.3.4"
  /\ inet_aton "256.1.1.1" = None
  /\ inet_aton "1.2.3.4.5" = None.
Proof. by vm_compute. Qed.

(** The longest run of zero groups is abbreviated, the first one among
    equals, and a single zero group is not; addresses of the forms
    [::a.b.c.d] and [::ffff:a.b.c.d] end in a dotted quad. *)
Example ntop6_vectors :
  inet_ntop6 <$> inet_pton6 "2001:DB8::1" = Some "2001:db8::1"
  /\ inet_ntop6 <$> inet_pton6 "1:0:0:2:0:0:0:3" = Some "1:0:0:2::3"
  /\ inet_ntop6 <$> inet_pton6 "1:0:0:2:3:0:0:4" = Some "1::2:3:0:0:4"
  /\ inet_ntop6 <$> inet_pton6 "1:2:3:4:5:6:7::" = Some "1:2:3:4:5:6:7:0"
  /\ inet_ntop6 <$> inet_pton6 "0:0:0:0:0:0:1:0" = Some "::0.1.0.0"
  /\ inet_ntop6 <$> inet_pton6 "::ffff:1" = Some "::255.255.0.1"
  /\ inet_ntop6 <$> inet_pton6 "::FFFF:1.2.3.4" = Some "::ffff:1.2.3.4"
  /\ inet_ntop6 <$> inet_pton6 "0:0:0:0:ffff:1:2:3" = Some "::ffff:1:2:3"
  /\ inet_ntop6 <$> inet_pton6 "::" = Some "::"
  /\ inet_pton6 "1::2::3" = None
  /\ inet_pton6 "::00001" = None
  /\ inet_pton6 "::1.2.3" = None.
Proof. by vm_compute. Qed.

(** Normalisation trims, unwraps a mapped address and lets through what is
    no address; what follows the mapped prefix is not checked. *)
Example cleanup_ip_vectors :
  cleanup_ip glibc "  203.0.113.5 " = Ok "203.0.113.5"
  /\ cleanup_ip glibc "2001:DB8:0:0:0:0:0:1" = Ok "2001:db8::1"
  /\ cleanup_ip glibc "::FFFF:192.168.1.1" = Ok "192.168.1.1"
  /\ cleanup_ip glibc "0:0:0:0:ffff:1:2:3" = Ok "1:2:3"
  /\ cleanup_ip glibc " not an ip " = Ok "not an ip"
  /\ cleanup_ip glibc "127.1" = Ok "127.1"
  /\ cleanup_ip glibc "" = Ok "".
Proof. by vm_compute. Qed.

(** The two guards of the selector and its default, on the tables of
    [example_defaults]; the candidate comes back as it was passed. *)
Example get_best_ip_vectors :
  get_best_ip glibc example_defaults (Some "203.0.113.5") "10.0.0.1"
  = Ok "203.0.113.5"
  /\ get_best_ip glibc example_defaults (Some "10.0.0.1") "127.0.0.1"
     = Ok "10.0.0.1"
  /\ get_best_ip glibc example_defaults (Some "10.0.0.1") "10.0.0.2"
     = Ok "10.0.0.2"
  /\ get_best_ip glibc example_defaults (Some " 203.0.113.5 ") "10.0.0.1"
     = Ok " 203.0.113.5 "
  /\ get_best_ip glibc example_defaults (Some "10.0.0.1") "::FFFF:8.8.8.8"
     = Ok "::FFFF:8.8.8.8".
Proof. by vm_compute. Qed.

(** Only the two ends of a chain are validated. *)
Example get_ips_from_string_vectors :
  get_ips_from_string glibc "10.0.0.1, unknown, 203.0.113.5"
  = Ok (["10.0.0.1"; "unknown"; "203.0.113.5"], 3%nat)
  /\ get_ips_from_string glibc " FE80::1 ,, 10.0.0.1,"
     = Ok (["fe80::1"; "10.0.0.1"], 2%nat)
  /\ get_ips_from_string glibc "10.0.0.1, unknown" = Ok ([], 0%nat)
  /\ get_ips_from_string glibc " , ," = Ok ([], 0%nat).
Proof. by vm_compute. Qed.

(** Without [inet_pton] the fallback converts shorthand, as the comment in
    [cleanup_ip] notes, and validity still asks for three dots; but there
    a text that [inet_aton] rejects makes [cleanup_ip] raise, the error
    arising inside a handler, and the IPv6 step cannot run at all. *)
Example legacy_vectors :
  cleanup_ip (legacy inet_aton) "127.1" = Ok "127.0.0.1"
  /\ is_valid_ipv4 (legacy inet_aton) "127.1" = Ok false
  /\ is_valid_ipv4 (legacy inet_aton) "127.0.0.1" = Ok true
  /\ cleanup_ip (legacy inet_aton) "unknown" = Raise SocketError
  /\ is_valid_ipv6 (legacy inet_aton) "::1" = Raise AttributeError.
Proof. by vm_compute. Qed.

End Examples.
